(** * Orb of Night Habitat: the zone layout and its placement rules

    A shallow embedding of the layout logic of [script.js]: the zone list,
    the drag-and-drop handlers with their boundary and collision checks, the
    zone editor's position and rotation inputs, the commands on a zone
    (rotate, scale, duplicate, delete), the keyboard shortcuts, the habitat
    figures of [updateInfo], and the export and import of layout documents.

    JavaScript numbers are modelled as exact real numbers together with the
    three special values of IEEE 754 ([Infinity], [-Infinity], [NaN]).
    Rounding to binary64, overflow and the sign of zero are outside the
    model.  Rendering (scene graph, shaders, camera) is left out. *)

From Stdlib Require Import Reals Lra Lia ZArith List String Ascii Bool Arith.
From Stdlib Require Import NArith Permutation.
Import ListNotations.

Set Warnings "-register-all".
Local Open Scope R_scope.

(** ** JavaScript numbers *)

Module JS.

Inductive num : Type :=
| Fin (r : R)
| PInf
| NInf
| NaN.

Definition Rltb (a b : R) : bool := if Rlt_dec a b then true else false.
Definition Reqb (a b : R) : bool := if Req_dec_T a b then true else false.

(** The sign of a finite factor decides the product with an infinity. *)
Definition scale_inf (a : R) (pos : bool) : num :=
  if Reqb a 0 then NaN
  else if Bool.eqb (Rltb 0 a) pos then PInf else NInf.

Definition add (a b : num) : num :=
  match a, b with
  | NaN, _ | _, NaN => NaN
  | Fin x, Fin y => Fin (x + y)
  | PInf, NInf | NInf, PInf => NaN
  | PInf, _ | _, PInf => PInf
  | NInf, _ | _, NInf => NInf
  end.

Definition neg (a : num) : num :=
  match a with
  | Fin x => Fin (- x)
  | PInf => NInf
  | NInf => PInf
  | NaN => NaN
  end.

Definition sub (a b : num) : num :=
  match a, b with
  | Fin x, Fin y => Fin (x - y)
  | _, _ => add a (neg b)
  end.

Definition mul (a b : num) : num :=
  match a, b with
  | NaN, _ | _, NaN => NaN
  | Fin x, Fin y => Fin (x * y)
  | Fin x, PInf | PInf, Fin x => scale_inf x true
  | Fin x, NInf | NInf, Fin x => scale_inf x false
  | PInf, PInf | NInf, NInf => PInf
  | PInf, NInf | NInf, PInf => NInf
  end.

(** Division; a finite non-zero number over zero is an infinity of the
    sign of the numerator, zero over zero is [NaN]. *)
Definition div (a b : num) : num :=
  match a, b with
  | NaN, _ | _, NaN => NaN
  | Fin x, Fin y =>
      if Reqb y 0 then scale_inf x true else Fin (x / y)
  | Fin _, _ => Fin 0
  | PInf, Fin y => if Rltb y 0 then NInf else PInf
  | NInf, Fin y => if Rltb y 0 then PInf else NInf
  | _, _ => NaN
  end.

(** [a < b]: false as soon as one side is [NaN]. *)
Definition ltb (a b : num) : bool :=
  match a, b with
  | NaN, _ | _, NaN => false
  | Fin x, Fin y => Rltb x y
  | NInf, NInf | PInf, _ => false
  | NInf, _ => true
  | Fin _, PInf => true
  | Fin _, NInf => false
  end.

Definition isFinite (a : num) : bool :=
  match a with Fin _ => true | _ => false end.

Module Math.

Definition PI : num := Fin Rtrigo1.PI.

Definition sqrt (a : num) : num :=
  match a with
  | Fin x => if Rltb x 0 then NaN else Fin (R_sqrt.sqrt x)
  | PInf => PInf
  | NInf | NaN => NaN
  end.

Definition min (a b : num) : num :=
  match a, b with
  | NaN, _ | _, NaN => NaN
  | _, _ => if ltb b a then b else a
  end.

(** [Math.round]: the nearest integer, ties towards [+Infinity]. *)
Definition round (a : num) : num :=
  match a with
  | Fin x => Fin (IZR (Zfloor (x + / 2)))
  | _ => a
  end.

(** [Math.pow] with a natural exponent. *)
Fixpoint pow (a : num) (n : nat) : num :=
  match n with
  | O => Fin 1
  | S O => a
  | S m => mul a (pow a m)
  end.

End Math.

End JS.

Declare Scope js_scope.
Delimit Scope js_scope with js.
Bind Scope js_scope with JS.num.
Infix "+" := JS.add : js_scope.
Infix "-" := JS.sub : js_scope.
Infix "*" := JS.mul : js_scope.
Infix "/" := JS.div : js_scope.
Infix "<?" := JS.ltb (at level 70, no associativity) : js_scope.

(** ** Decimal strings: [toFixed], [parseFloat], [parseInt] *)

Module Str.

Local Open Scope string_scope.
Local Open Scope N_scope.

Definition digit (d : N) : ascii := ascii_of_N (48 + d).

Definition is_digit (c : ascii) : bool :=
  (48 <=? N_of_ascii c) && (N_of_ascii c <=? 57).

Definition digit_val (c : ascii) : N := N_of_ascii c - 48.

(** Hexadecimal digits, for the [0x] form read by [parseInt]. *)
Definition hex_val (c : ascii) : option N :=
  let n := N_of_ascii c in
  if (48 <=? n) && (n <=? 57) then Some (n - 48)
  else if (97 <=? n) && (n <=? 102) then Some (n - 87)
  else if (65 <=? n) && (n <=? 70) then Some (n - 55)
  else None.

(** The white space of ASCII: tab, line feed, vertical tab, form feed,
    carriage return, space. *)
Definition is_space (c : ascii) : bool :=
  let n := N_of_ascii c in
  ((9 <=? n) && (n <=? 13)) || (n =? 32).

Fixpoint skip_space (s : string) : string :=
  match s with
  | String c s' => if is_space c then skip_space s' else s
  | EmptyString => s
  end.

(** Digits of [n], most significant first, put in front of [acc]; [fuel]
    bounds the number of digits. *)
Fixpoint dec_digits (fuel : nat) (n : N) (acc : string) : string :=
  match fuel with
  | O => acc
  | S fuel' =>
      let acc' := String (digit (n mod 10)) acc in
      if n / 10 =? 0 then acc' else dec_digits fuel' (n / 10) acc'
  end.

Definition string_of_N (n : N) : string :=
  dec_digits (S (N.to_nat (N.log2 n))) n "".

(** Exactly [f] digits of [b], padded with zeros on the left. *)
Fixpoint fixed_digits (f : nat) (b : N) (acc : string) : string :=
  match f with
  | O => acc
  | S f' => fixed_digits f' (b / 10) (String (digit (b mod 10)) acc)
  end.

(** The longest run of digits at the head of [s]: its value (on top of
    [acc]), its length (on top of [cnt]) and the rest of the string. *)
Fixpoint take_digits (s : string) (acc : N) (cnt : nat) : N * nat * string :=
  match s with
  | String c s' =>
      if is_digit c then take_digits s' (10 * acc + digit_val c) (S cnt)
      else (acc, cnt, s)
  | EmptyString => (acc, cnt, s)
  end.

Fixpoint take_hex (s : string) (acc : N) (cnt : nat) : N * nat :=
  match s with
  | String c s' =>
      match hex_val c with
      | Some d => take_hex s' (16 * acc + d) (S cnt)
      | None => (acc, cnt)
      end
  | EmptyString => (acc, cnt)
  end.

Definition take_sign (s : string) : bool * string :=
  match s with
  | String "-" s' => (true, s')
  | String "+" s' => (false, s')
  | _ => (false, s)
  end.

(** The exponent part [e±digits], when it is complete. *)
Definition take_exponent (s : string) : bool * N :=
  match s with
  | String c s' =>
      if (c =? "e")%char || (c =? "E")%char then
        let '(neg, s'') := take_sign s' in
        let '(e, cnt, _) := take_digits s'' 0 O in
        match cnt with O => (false, 0) | S _ => (neg, e) end
      else (false, 0)
  | EmptyString => (false, 0)
  end.

End Str.

Module JSString.

Import JS.
Local Open Scope string_scope.

Definition signed (neg : bool) (r : R) : R := if neg then (- r)%R else r.

(** [Number.prototype.toFixed(f)]: the integer [n] nearest to [|x|·10^f]
    (the larger one on a tie), printed with a point before its last [f]
    digits.  Magnitudes of [1e21] and more, which JavaScript prints in
    exponent notation, are printed in the same fixed notation here. *)
Definition toFixed (f : nat) (x : num) : string :=
  match x with
  | NaN => "NaN"
  | PInf => "Infinity"
  | NInf => "-Infinity"
  | Fin r =>
      let n := Z.to_N (Zfloor (Rabs r * 10 ^ f + / 2)) in
      let scale := (10 ^ N.of_nat f)%N in
      (if Rltb r 0 then "-" else "") ++
      Str.string_of_N (n / scale) ++
      match f with
      | O => ""
      | S _ => "." ++ Str.fixed_digits f (n mod scale) ""
      end
  end.

(** [parseFloat] on a string: leading white space, a sign, then either
    [Infinity] or digits with an optional fraction and exponent; whatever
    follows is ignored, and [NaN] is returned when no number starts the
    string. *)
Definition parseFloat (s : string) : num :=
  let '(neg, s1) := Str.take_sign (Str.skip_space s) in
  if String.prefix "Infinity" s1 then (if neg then NInf else PInf)
  else
    let '(ip, ni, s2) := Str.take_digits s1 0 O in
    let '(fp, nf, s3) :=
      match s2 with
      | String "." s2' => Str.take_digits s2' 0 O
      | _ => (0%N, O, s2)
      end in
    match ni, nf with
    | O, O => NaN
    | _, _ =>
        let m := (IZR (Z.of_N ip) + IZR (Z.of_N fp) / 10 ^ nf)%R in
        let '(eneg, e) := Str.take_exponent s3 in
        let p := (10 ^ N.to_nat e)%R in
        Fin (signed neg (if eneg then m / p else m * p))
    end.

(** [parseInt] without a radix: base 10, or base 16 after [0x]. *)
Definition parseInt (s : string) : num :=
  let '(neg, s1) := Str.take_sign (Str.skip_space s) in
  let '(v, cnt) :=
    match s1 with
    | String "0" (String c s2) =>
        if (c =? "x")%char || (c =? "X")%char then Str.take_hex s2 0 O
        else let '(v, cnt, _) := Str.take_digits s1 0 O in (v, cnt)
    | _ => let '(v, cnt, _) := Str.take_digits s1 0 O in (v, cnt)
    end in
  match cnt with
  | O => NaN
  | S _ => Fin (signed neg (IZR (Z.of_N v)))
  end.

End JSString.

(** ** Values of parsed documents *)

Module JSValue.

Import JS.
Local Open Scope string_scope.

(** What [JSON.parse] returns, and [undefined] for a missing property. *)
Inductive Value : Type :=
| VUndefined
| VNull
| VBool (b : bool)
| VNum (n : num)
| VStr (s : string)
| VArr (items : list Value)
| VObj (fields : list (string * Value)).

(** An object holds one entry per key. *)
Fixpoint lookup (k : string) (fields : list (string * Value)) : Value :=
  match fields with
  | [] => VUndefined
  | (k', v) :: rest => if String.eqb k k' then v else lookup k rest
  end.

(** Property access [v.k]: a [TypeError] ([None]) on [null] and
    [undefined]; [undefined] when the property is missing.  The keys read
    by the program are not properties of strings, arrays or numbers. *)
Definition prop (v : Value) (k : string) : option Value :=
  match v with
  | VUndefined | VNull => None
  | VObj fields => Some (lookup k fields)
  | _ => Some VUndefined
  end.

(** [v.toFixed(1)] as a method call: only numbers have the method. *)
Definition call_toFixed (f : nat) (v : Value) : option string :=
  match v with
  | VNum n => Some (JSString.toFixed f n)
  | _ => None
  end.

(** [parseFloat(v)]: the argument is first turned into a string.  A number
    reads back as itself; an array prints its items separated by commas, so
    only its first item counts. *)
Fixpoint parseFloat (v : Value) : num :=
  match v with
  | VNum n => n
  | VStr s => JSString.parseFloat s
  | VArr (v' :: _) => parseFloat v'
  | _ => NaN
  end.

(** The value after [JSON.stringify] and [JSON.parse]: numbers that are
    not finite become [null], [undefined] disappears from objects and
    becomes [null] inside arrays. *)
Fixpoint JSON_clone (v : Value) : Value :=
  match v with
  | VNum n => if isFinite n then v else VNull
  | VArr items =>
      VArr (map (fun i => match i with
                          | VUndefined => VNull
                          | _ => JSON_clone i
                          end) items)
  | VObj fields =>
      VObj ((fix clone_fields (l : list (string * Value)) :=
               match l with
               | [] => []
               | (k, VUndefined) :: rest => clone_fields rest
               | (k, i) :: rest => (k, JSON_clone i) :: clone_fields rest
               end) fields)
  | _ => v
  end.

End JSValue.

(** ** The part of three.js the layout logic uses *)

Module THREE.

Import JS.
Local Open Scope js_scope.

Record Vector3 : Type := vec { x : num; y : num; z : num }.

(** [a.distanceTo(b)] *)
Definition distanceTo (a b : Vector3) : num :=
  let dx := x a - x b in
  let dy := y a - y b in
  let dz := z a - z b in
  Math.sqrt (dx * dx + dy * dy + dz * dz).

(** [a.add(b)] *)
Definition add (a b : Vector3) : Vector3 :=
  vec (x a + x b) (y a + y b) (z a + z b).

(** [lerpVectors(v1, v2, alpha)] *)
Definition lerpVectors (v1 v2 : Vector3) (alpha : num) : Vector3 :=
  vec (x v1 + (x v2 - x v1) * alpha)
      (y v1 + (y v2 - y v1) * alpha)
      (z v1 + (z v2 - z v1) * alpha).

(** A zone: the mesh made by [addZone], with [userData.type], its position,
    rotation and scale and the size of its box geometry. *)
Record Mesh : Type := mesh {
  userData_type : JSValue.Value;
  position : Vector3;
  rotation : Vector3;
  scale : Vector3;
  geometry : Vector3
}.

Definition set_position (p : Vector3) (m : Mesh) : Mesh :=
  mesh (userData_type m) p (rotation m) (scale m) (geometry m).

End THREE.

(** ** The editor *)

Import JS JSValue THREE.

(** A revert animation started by [animateZoneToPosition] and waiting for
    its next frame.  Its target is not stored: the function is only called
    with the global [dragStartPosition] object, which the animation reads
    again at every frame. *)
Record Animation : Type := animation {
  anim_zone : nat;
  startPosition : Vector3;
  duration : num;
  startTime : num
}.

(** The global variables of [script.js] and the form controls it reads.
    Meshes are objects with an identity: [meshes] is the store of every
    mesh created so far, indexed by identity, and [zones], [selectedZone]
    and the other variables hold identities.  The identity also stands for
    [userData.id], the UUID given at creation.  [value] maps the id of a
    form control to its current [value]. *)
Record State : Type := state {
  meshes : nat -> Mesh;
  next_uuid : nat;
  zones : list nat;
  selectedZone : option nat;
  selectedZones : list nat;
  multiSelectMode : bool;
  isDragging : bool;
  dragStartPosition : Vector3;
  snapToGrid : bool;
  showCrew : bool;
  currentEditingZone : option nat;
  value : string -> string;
  feedback : option (string * bool);
  animations : list Animation;
  pendingDeselect : nat
}.

Definition with_meshes (f : nat -> Mesh) (st : State) : State :=
  state f (next_uuid st) (zones st) (selectedZone st) (selectedZones st)
        (multiSelectMode st) (isDragging st) (dragStartPosition st)
        (snapToGrid st) (showCrew st) (currentEditingZone st) (value st)
        (feedback st) (animations st) (pendingDeselect st).

Definition with_zones (zs : list nat) (st : State) : State :=
  state (meshes st) (next_uuid st) zs (selectedZone st) (selectedZones st)
        (multiSelectMode st) (isDragging st) (dragStartPosition st)
        (snapToGrid st) (showCrew st) (currentEditingZone st) (value st)
        (feedback st) (animations st) (pendingDeselect st).

Definition with_value (v : string -> string) (st : State) : State :=
  state (meshes st) (next_uuid st) (zones st) (selectedZone st)
        (selectedZones st) (multiSelectMode st) (isDragging st)
        (dragStartPosition st) (snapToGrid st) (showCrew st)
        (currentEditingZone st) v (feedback st) (animations st)
        (pendingDeselect st).

Definition with_animations (a : list Animation) (st : State) : State :=
  state (meshes st) (next_uuid st) (zones st) (selectedZone st)
        (selectedZones st) (multiSelectMode st) (isDragging st)
        (dragStartPosition st) (snapToGrid st) (showCrew st)
        (currentEditingZone st) (value st) (feedback st) a
        (pendingDeselect st).

(** [showFeedback(message, isValid)] *)
Definition showFeedback (message : string) (isValid : bool) (st : State)
  : State :=
  state (meshes st) (next_uuid st) (zones st) (selectedZone st)
        (selectedZones st) (multiSelectMode st) (isDragging st)
        (dragStartPosition st) (snapToGrid st) (showCrew st)
        (currentEditingZone st) (value st) (Some (message, isValid))
        (animations st) (pendingDeselect st).

(** Writing through a reference to a mesh. *)
Definition update_mesh (i : nat) (f : Mesh -> Mesh) (st : State) : State :=
  with_meshes (fun j => if Nat.eqb j i then f (meshes st j) else meshes st j)
              st.

Definition set_control (id text : string) (st : State) : State :=
  with_value (fun k => if String.eqb k id then text else value st k) st.

(** The zones of the layout, in list order. *)
Definition layout_zones (st : State) : list Mesh :=
  map (meshes st) (zones st).

(** *** Habitat figures *)

Record Info : Type := info {
  volume : num;
  floorArea : num;
  perAstronaut : num;
  volume_text : string;
  floorArea_text : string;
  perAstronaut_text : string;
  zones_count : nat
}.

(** [updateInfo]: the figures and the numerals put on the page (the unit
    is left out of the texts). *)
Definition updateInfo (st : State) : Info :=
  let radius := JSString.parseFloat (value st "radius") in
  let height := JSString.parseFloat (value st "height") in
  let crew := JSString.parseInt (value st "crew") in
  let shape := value st "shape" in
  let volume :=
    if String.eqb shape "cylinder" then
      (Math.PI * radius * radius * height)%js
    else if String.eqb shape "dome" then
      (Fin (2 / 3) * Math.PI * Math.pow radius 3)%js
    else
      ((Math.PI * radius * radius * (height - radius * Fin 2))
       + (Fin (4 / 3) * Math.PI * Math.pow radius 3))%js in
  let floorArea := (Math.PI * radius * radius)%js in
  info volume floorArea (volume / crew)%js
       (JSString.toFixed 1 volume) (JSString.toFixed 1 floorArea)
       (JSString.toFixed 1 (volume / crew)%js)
       (List.length (zones st)).

(** *** Zones *)

Definition box_2_2_2 : Vector3 := vec (Fin 2) (Fin 2) (Fin 2).
Definition zero3 : Vector3 := vec (Fin 0) (Fin 0) (Fin 0).
Definition one3 : Vector3 := vec (Fin 1) (Fin 1) (Fin 1).

(** [addZone(type, position)].  Without a position the zone is put at a
    random place; [random] holds the two results of [Math.random()]. *)
Definition addZone (type : Value) (pos : option Vector3)
    (random : num * num) (st : State) : State :=
  let p :=
    match pos with
    | Some p => vec (x p) (y p) (z p)
    | None =>
        let radius := JSString.parseFloat (value st "radius") in
        vec ((fst random - Fin (1 / 2)) * radius)%js (Fin 1)
            ((snd random - Fin (1 / 2)) * radius)%js
    end in
  let zoneMesh := mesh type p zero3 one3 box_2_2_2 in
  let i := next_uuid st in
  state (fun j => if Nat.eqb j i then zoneMesh else meshes st j) (S i)
        (zones st ++ [i]) (selectedZone st) (selectedZones st)
        (multiSelectMode st) (isDragging st) (dragStartPosition st)
        (snapToGrid st) (showCrew st) (currentEditingZone st) (value st)
        (feedback st) (animations st) (pendingDeselect st).

(** [zones.splice(index, 1)] at the first index with the given id. *)
Fixpoint remove_first (id : nat) (zs : list nat) : list nat :=
  match zs with
  | [] => []
  | i :: rest => if Nat.eqb i id then rest else i :: remove_first id rest
  end.

Definition removeZone (id : nat) (st : State) : State :=
  with_zones (remove_first id (zones st)) st.

(** [duplicateZone(zone)] *)
Definition duplicateZone (zone : nat) (st : State) : State :=
  let offset := vec (Fin 3) (Fin 0) (Fin 0) in
  let newPosition := THREE.add (position (meshes st zone)) offset in
  showFeedback "Zone duplicated" true
    (addZone (userData_type (meshes st zone)) (Some newPosition)
             (NaN, NaN) st).

(** *** Export *)

Definition export_zone (zone : Mesh) : Value :=
  VObj [("type", userData_type zone);
        ("position",
         VObj [("x", VStr (JSString.toFixed 2 (x (position zone))));
               ("y", VStr (JSString.toFixed 2 (y (position zone))));
               ("z", VStr (JSString.toFixed 2 (z (position zone))))])]%string.

(** [exportLayout]: the [layout] object handed to [JSON.stringify], and
    the state afterwards. *)
Definition exportLayout (st : State) : Value * State :=
  let layout :=
    VObj [("habitat",
           VObj [("shape", VStr (value st "shape"));
                 ("radius", VNum (JSString.parseFloat (value st "radius")));
                 ("height", VNum (JSString.parseFloat (value st "height")));
                 ("crew", VNum (JSString.parseInt (value st "crew")))]);
          ("zones", VArr (map export_zone (layout_zones st)))]%string in
  (layout, showFeedback "Layout exported!" true st).

(** *** Reset *)

(** [resetHabitat]: the zone list is emptied and the crew avatars are
    switched off. *)
Definition resetHabitat (st : State) : State :=
  state (meshes st) (next_uuid st) [] (selectedZone st) (selectedZones st)
        (multiSelectMode st) (isDragging st) (dragStartPosition st)
        (snapToGrid st) false (currentEditingZone st) (value st)
        (feedback st) (animations st) (pendingDeselect st).

(** *** Statements that may throw *)

(** A computation on the editor state; [None] is a thrown exception, and
    the state reached when it was thrown is kept. *)
Definition M (A : Type) : Type := State -> State * option A.

Definition ret {A : Type} (a : A) : M A := fun st => (st, Some a).

Definition bind {A B : Type} (m : M A) (k : A -> M B) : M B :=
  fun st =>
    match m st with
    | (st', Some a) => k a st'
    | (st', None) => (st', None)
    end.

Definition throwing {A : Type} (o : option A) : M A := fun st => (st, o).

Definition modify (f : State -> State) : M unit := fun st => (f st, Some tt).

Notation "x <- m ;; k" := (bind m (fun x => k))
  (at level 61, m at next level, right associativity).
Notation "m ;; k" := (bind m (fun _ => k))
  (at level 61, right associativity).

(** [items.forEach(body)] *)
Fixpoint forEach {A : Type} (items : list A) (body : A -> M unit) : M unit :=
  match items with
  | [] => ret tt
  | a :: rest => body a ;; forEach rest body
  end.

(** The [forEach] method exists on arrays only. *)
Definition as_array (v : Value) : option (list Value) :=
  match v with
  | VArr items => Some items
  | _ => None
  end.

(** Math.random() is not called when [addZone] is given a position. *)
Definition no_random : num * num := (NaN, NaN).

Section Editor.

(** [JSON.parse]; [None] when it throws a [SyntaxError]. *)
Variable JSON_parse : string -> option Value.

(** The form controls are declared in [index.html], which is not among the
    sources: [control_text id v] is what the [value] of control [id] reads
    after [v] was assigned to it. *)
Variable control_text : string -> Value -> string.

Definition assign (id : string) (v : Value) : M unit :=
  modify (fun st => set_control id (control_text id v) st).

Definition load_zone (zoneData : Value) : M unit :=
  position <- throwing (prop zoneData "position") ;;
  px <- throwing (prop position "x") ;;
  py <- throwing (prop position "y") ;;
  pz <- throwing (prop position "z") ;;
  let pos := vec (parseFloat px) (parseFloat py) (parseFloat pz) in
  type <- throwing (prop zoneData "type") ;;
  modify (addZone type (Some pos) no_random).

(** [loadLayout(layout)] *)
Definition loadLayout (layout : Value) : M unit :=
  modify resetHabitat ;;
  habitat <- throwing (prop layout "habitat") ;;
  shape <- throwing (prop habitat "shape") ;;
  assign "shape" shape ;;
  radius <- throwing (prop habitat "radius") ;;
  assign "radius" radius ;;
  height <- throwing (prop habitat "height") ;;
  assign "height" height ;;
  crew <- throwing (prop habitat "crew") ;;
  assign "crew" crew ;;
  throwing (call_toFixed 1 radius) ;;
  throwing (call_toFixed 1 height) ;;
  zs <- throwing (prop layout "zones") ;;
  items <- throwing (as_array zs) ;;
  forEach items load_zone ;;
  modify (showFeedback "Layout loaded!" true).

(** The [onload] handler of the import file reader:
    [try { loadLayout(JSON.parse(text)); } catch (error) { ... }] *)
Definition importFile (text : string) (st : State) : State :=
  match JSON_parse text with
  | None => showFeedback "Invalid JSON file!" false st
  | Some layout =>
      match loadLayout layout st with
      | (st', Some _) => st'
      | (st', None) => showFeedback "Invalid JSON file!" false st'
      end
  end.

End Editor.

(** *** Drag and drop *)

(** The state before any event; [value0] holds the values the controls
    have in [index.html]. *)
Definition initial_state (value0 : string -> string) : State :=
  state (fun _ => mesh VUndefined zero3 zero3 one3 box_2_2_2) 0 [] None []
        false false zero3 true false None value0 None [] 0.

(** [onPointerDown(event)]; [hit] is the first zone met by the ray through
    the pointer, if there is one. *)
Definition onPointerDown (button : nat) (ctrlKey : bool) (hit : option nat)
    (st : State) : State :=
  if negb (Nat.eqb button 0) then st
  else
    match hit with
    | Some zone =>
        let selected :=
          if ctrlKey && negb (existsb (Nat.eqb zone) (selectedZones st))
          then (selectedZones st ++ [zone], true)
          else if negb ctrlKey then ([zone], multiSelectMode st)
          else (selectedZones st, multiSelectMode st) in
        state (meshes st) (next_uuid st) (zones st) (Some zone)
              (fst selected) (snd selected) true
              (position (meshes st zone)) (snapToGrid st) (showCrew st)
              (currentEditingZone st) (value st)
              (Some ("Zone selected - drag to reposition"%string, true))
              (animations st) (pendingDeselect st)
    | None =>
        state (meshes st) (next_uuid st) (zones st) (selectedZone st)
              [] false (isDragging st) (dragStartPosition st)
              (snapToGrid st) (showCrew st) (currentEditingZone st)
              (value st) (feedback st) (animations st) (pendingDeselect st)
    end.

(** [Math.round(c / gridSize) * gridSize] with [gridSize = 1.0] *)
Definition snap (c : num) : num :=
  let gridSize := Fin 1 in
  (Math.round (c / gridSize) * gridSize)%js.

(** The boundary check: [distanceFromCenter < maxDistance] *)
Definition isValidPlacement (radius px pz : num) : bool :=
  let distanceFromCenter := Math.sqrt (px * px + pz * pz)%js in
  let maxDistance := (radius - Fin (3 / 2))%js in
  (distanceFromCenter <? maxDistance)%js.

(** The collision loop over [zones], left at the first zone closer than
    2.5 to the selected zone's position. *)
Fixpoint hasCollision (ms : nat -> Mesh) (sel : nat) (zs : list nat) : bool :=
  match zs with
  | [] => false
  | zone :: rest =>
      if negb (Nat.eqb zone sel)
         && (distanceTo (position (ms sel)) (position (ms zone))
             <? Fin (5 / 2))%js
      then true
      else hasCollision ms sel rest
  end.

(** [onPointerMove(event)] while a zone is dragged; [floorHit] is the
    point where the ray through the pointer meets the habitat floor.  The
    hover effects of the other branch only touch materials. *)
Definition onPointerMove (floorHit : option Vector3) (st : State) : State :=
  match selectedZone st, isDragging st, floorHit with
  | Some sel, true, Some point0 =>
      let radius := JSString.parseFloat (value st "radius") in
      let point :=
        if snapToGrid st
        then vec (snap (x point0)) (y point0) (snap (z point0))
        else point0 in
      let valid := isValidPlacement radius (x point) (z point) in
      let collision := hasCollision (meshes st) sel (zones st) in
      let finalValid := valid && negb collision in
      let feedbackText :=
        (if finalValid then "Valid placement"
         else if collision then "Too close to another zone"
         else "Outside habitat boundary")%string in
      showFeedback feedbackText finalValid
        (update_mesh sel (set_position (vec (x point) (Fin 1) (z point))) st)
  | _, _, _ => st
  end.

(** One run of the [animate] callback of [animateZoneToPosition] at clock
    reading [now]: the new state, and whether another frame is requested. *)
Definition animation_frame (a : Animation) (now : num) (st : State)
  : State * bool :=
  let elapsed := (now - startTime a)%js in
  let progress := Math.min (elapsed / duration a)%js (Fin 1) in
  let easeProgress := (Fin 1 - Math.pow (Fin 1 - progress) 3)%js in
  (update_mesh (anim_zone a)
     (set_position
        (lerpVectors (startPosition a) (dragStartPosition st) easeProgress))
     st,
   (progress <? Fin 1)%js).

Definition run_frame (a : Animation) (now : num) (st : State) : State :=
  let '(st', again) := animation_frame a now st in
  if again then with_animations (animations st' ++ [a]) st' else st'.

(** [animateZoneToPosition(zone, dragStartPosition)]; [now0] and [now1] are
    the two readings of [performance.now()], for [startTime] and for the
    first run of [animate]. *)
Definition animateZoneToPosition (zone : nat) (now0 now1 : num) (st : State)
  : State :=
  let startPosition := position (meshes st zone) in
  let distance := distanceTo startPosition (dragStartPosition st) in
  let duration := Math.min (distance * Fin 200)%js (Fin 1000) in
  run_frame (animation zone startPosition duration now0) now1 st.

(** A later animation frame: the pending callback number [k] runs. *)
Definition onAnimationFrame (k : nat) (now : num) (st : State) : State :=
  match nth_error (animations st) k with
  | Some a =>
      run_frame a now
        (with_animations
           (firstn k (animations st) ++ skipn (S k) (animations st)) st)
  | None => st
  end.

(** [onPointerUp(event)] *)
Definition onPointerUp (ctrlKey : bool) (now0 now1 : num) (st : State)
  : State :=
  match selectedZone st, isDragging st with
  | Some sel, true =>
      let st1 :=
        state (meshes st) (next_uuid st) (zones st) (selectedZone st)
              (selectedZones st) (multiSelectMode st) false
              (dragStartPosition st) (snapToGrid st) (showCrew st)
              (currentEditingZone st) (value st) (feedback st)
              (animations st) (pendingDeselect st) in
      let radius := JSString.parseFloat (value st "radius") in
      let p := position (meshes st sel) in
      let collision := hasCollision (meshes st) sel (zones st) in
      let valid := isValidPlacement radius (x p) (z p) && negb collision in
      let st2 :=
        if negb valid then
          showFeedback
            "Invalid placement - zone returned to original position" false
            (animateZoneToPosition sel now0 now1 st1)
        else showFeedback "Zone positioned successfully" true st1 in
      if negb (multiSelectMode st) && negb ctrlKey then
        state (meshes st2) (next_uuid st2) (zones st2) (selectedZone st2)
              (selectedZones st2) (multiSelectMode st2) (isDragging st2)
              (dragStartPosition st2) (snapToGrid st2) (showCrew st2)
              (currentEditingZone st2) (value st2) (feedback st2)
              (animations st2) (S (pendingDeselect st2))
      else st2
  | _, _ => st
  end.

(** The callback of the [setTimeout] of [onPointerUp]. *)
Definition deselectTimeout (st : State) : State :=
  match pendingDeselect st with
  | O => st
  | S n =>
      state (meshes st) (next_uuid st) (zones st) None (selectedZones st)
            (multiSelectMode st) (isDragging st) (dragStartPosition st)
            (snapToGrid st) (showCrew st) (currentEditingZone st) (value st)
            (feedback st) (animations st) n
  end.

(** [onKeyDown(event)] for the key G: grid snapping is toggled. *)
Definition onKeyDown_KeyG (st : State) : State :=
  showFeedback
    (if negb (snapToGrid st) then "Grid snapping enabled"
     else "Grid snapping disabled")%string true
    (state (meshes st) (next_uuid st) (zones st) (selectedZone st)
           (selectedZones st) (multiSelectMode st) (isDragging st)
           (dragStartPosition st) (negb (snapToGrid st)) (showCrew st)
           (currentEditingZone st) (value st) (feedback st) (animations st)
           (pendingDeselect st)).

(** *** The zone editor's position inputs *)

(** [updateZonePosition] *)
Definition updateZonePosition (st : State) : State :=
  match currentEditingZone st with
  | None => st
  | Some zone =>
      let px := JSString.parseFloat (value st "zone-pos-x") in
      let py := JSString.parseFloat (value st "zone-pos-y") in
      let pz := JSString.parseFloat (value st "zone-pos-z") in
      update_mesh zone (set_position (vec px py pz)) st
  end.

(** ** Reading a layout document *)

(** [v.k] where it does not throw. *)
Definition field (v : Value) (k : string) : Value :=
  match prop v k with
  | Some w => w
  | None => VUndefined
  end.

(** The position and type [loadLayout] reads from an entry of [zones]. *)
Definition doc_zone_position (zoneData : Value) : Vector3 :=
  let p := field zoneData "position" in
  vec (parseFloat (field p "x")) (parseFloat (field p "y"))
      (parseFloat (field p "z")).

Definition doc_zone_type (zoneData : Value) : Value := field zoneData "type".

(** The mesh [addZone] makes for an entry of [zones]. *)
Definition doc_mesh (zoneData : Value) : Mesh :=
  mesh (doc_zone_type zoneData) (doc_zone_position zoneData)
       zero3 one3 box_2_2_2.

(** An entry of [zones] whose position can be read: the entry and its
    [position] are neither [null] nor missing. *)
Definition loadable_zone (zoneData : Value) : bool :=
  match prop zoneData "position" with
  | Some p => match prop p "x" with Some _ => true | None => false end
  | None => false
  end.

(** The zones of a document are added one after the other. *)
Definition add_doc_zones (items : list Value) (st : State) : State :=
  fold_left
    (fun s zoneData =>
       addZone (doc_zone_type zoneData) (Some (doc_zone_position zoneData))
               no_random s)
    items st.

(** The state [loadLayout] reaches on a document it reads to the end. *)
Definition loaded (control_text : string -> Value -> string)
    (shape radius height crew : Value) (items : list Value) (st : State)
  : State :=
  showFeedback "Layout loaded!" true
    (add_doc_zones items
       (set_control "crew" (control_text "crew" crew)
          (set_control "height" (control_text "height" height)
             (set_control "radius" (control_text "radius" radius)
                (set_control "shape" (control_text "shape" shape)
                   (resetHabitat st))))))%string.

(** ** Rounding of exported positions *)

(** A number rounded to 2 decimal places, half away from zero. *)
Definition round_to_2_decimals (n : num) : num :=
  match n with
  | Fin r =>
      Fin (JSString.signed (Rltb r 0)
             (IZR (Zfloor (Rabs r * 100 + / 2)) / 100))
  | _ => n
  end.

Definition round_position (p : Vector3) : Vector3 :=
  vec (round_to_2_decimals (x p)) (round_to_2_decimals (y p))
      (round_to_2_decimals (z p)).

(** ** Properties kept by a computation *)

(** Every zone of [s] was created at or after the identity [n]. *)
Definition created_from (n : nat) (s : State) : Prop :=
  (n <= next_uuid s)%nat /\ Forall (fun i => (n <= i)%nat) (zones s).

(** A computation that keeps a property of the state, thrown or not. *)
Definition keeps (P : State -> Prop) {A : Type} (m : M A) : Prop :=
  forall st, P st -> P (fst (m st)).

(** ** Sample states and a sample environment *)

(** The control values of a dome of radius 10 and height 15 for a crew of
    8 (the figures of the layout loaded at start-up). *)
Definition dome_controls : string -> string :=
  fun id =>
    (if String.eqb id "shape" then "dome"
     else if String.eqb id "radius" then "10"
     else if String.eqb id "height" then "15"
     else if String.eqb id "crew" then "8"
     else "")%string.

(** One zone at [(9, 1, 0)] in that dome, and the same zone picked up with
    the pointer. *)
Definition zone_at_9 : State :=
  addZone (VStr "sleeping") (Some (vec (Fin 9) (Fin 1) (Fin 0))) no_random
          (initial_state dome_controls).

Definition zone_at_9_picked : State :=
  onPointerDown 0 false (Some 0%nat) zone_at_9.

(** The same with grid snapping switched off. *)
Definition zone_at_9_picked_free : State := onKeyDown_KeyG zone_at_9_picked.

(** Two zones at [(9, 1, 0)] and [(9, 1, 1)], the first one picked up,
    grid snapping off. *)
Definition crowded_edge : State :=
  onKeyDown_KeyG
    (onPointerDown 0 false (Some 0%nat)
       (addZone (VStr "storage") (Some (vec (Fin 9) (Fin 1) (Fin 1)))
          no_random zone_at_9)).

(** Two zones at [(0, 1, 0)] and [(5, 1, 0)], the first one picked up,
    grid snapping off. *)
Definition two_apart : State :=
  onKeyDown_KeyG
    (onPointerDown 0 false (Some 0%nat)
       (addZone (VStr "kitchen") (Some (vec (Fin 5) (Fin 1) (Fin 0)))
          no_random
          (addZone (VStr "sleeping") (Some (vec (Fin 0) (Fin 1) (Fin 0)))
             no_random (initial_state dome_controls)))).

(** The zone of [zone_at_9] after the Scale Zone command enlarged it to
    1.2 times its size. *)
Definition enlarged_zone : State :=
  update_mesh 0
    (fun m => mesh (userData_type m) (position m) (rotation m)
                   (vec (Fin (6 / 5)) (Fin (6 / 5)) (Fin (6 / 5)))
                   (geometry m))
    zone_at_9.

(** The zone editor open on the zone of [zone_at_9], with 100, 1 and 0
    typed into its position inputs. *)
Definition editor_with_far_position : State :=
  set_control "zone-pos-z" "0"
    (set_control "zone-pos-y" "1"
       (set_control "zone-pos-x" "100"
          (state (meshes zone_at_9) (next_uuid zone_at_9) (zones zone_at_9)
                 None [] false false zero3 true false (Some 0%nat)
                 (value zone_at_9) None [] 0))).

(** An instance of the environment for the examples: [JSON.parse] knows
    the text [{}] and the text of an empty dome, and the controls keep the
    strings assigned to them and show the numbers 10, 15 and 8 in
    decimal. *)
Definition empty_dome_document : Value :=
  VObj [("habitat",
         VObj [("shape", VStr "dome"); ("radius", VNum (Fin 10));
               ("height", VNum (Fin 15)); ("crew", VNum (Fin 8))]);
        ("zones", VArr [])]%string.

Definition quoted (s : string) : string :=
  (String (ascii_of_nat 34) s ++ String (ascii_of_nat 34) "")%string.

Definition empty_dome_text : string :=
  ("{" ++ quoted "habitat" ++ ":{" ++ quoted "shape" ++ ":"
   ++ quoted "dome" ++ "," ++ quoted "radius" ++ ":10,"
   ++ quoted "height" ++ ":15," ++ quoted "crew" ++ ":8},"
   ++ quoted "zones" ++ ":[]}")%string.

Definition sample_JSON_parse (text : string) : option Value :=
  if String.eqb text "{}" then Some (VObj [])
  else if String.eqb text empty_dome_text then Some empty_dome_document
  else None.

Definition sample_control_text (id : string) (v : Value) : string :=
  match v with
  | VStr s => s
  | VNum (Fin r) =>
      (if Reqb r 10 then "10" else if Reqb r 15 then "15"
       else if Reqb r 8 then "8" else "")%string
  | _ => ""%string
  end.

(** ** Commands on a zone *)

(** *** The Rotate Zone and Scale Zone commands *)

(** [zone.rotation.y = r] *)
Definition set_rotation_y (r : num) (m : Mesh) : Mesh :=
  mesh (userData_type m) (position m)
       (vec (x (rotation m)) r (z (rotation m))) (scale m) (geometry m).

(** [zone.rotation.set(rx, ry, rz)] *)
Definition set_rotation (r : Vector3) (m : Mesh) : Mesh :=
  mesh (userData_type m) (position m) r (scale m) (geometry m).

(** [zone.scale.setScalar(s)] *)
Definition setScalar (s : num) (m : Mesh) : Mesh :=
  mesh (userData_type m) (position m) (rotation m) (vec s s s) (geometry m).

(** [a === b] on numbers: [NaN] is equal to nothing. *)
Definition strict_eq (a b : num) : bool :=
  match a, b with
  | Fin p, Fin q => Reqb p q
  | PInf, PInf | NInf, NInf => true
  | _, _ => false
  end.

(** The frames of an animation that follow its first one.  [clock] holds
    the readings of [performance.now()] at the frames to come, and a frame
    that does not request another one ends the animation.  The frames of
    [rotateZone] and [scaleZone] write values computed from the variables
    captured when the command started, so that they are followed here one
    after the other, without the other events that may come in between. *)
Fixpoint later_frames (frame : num -> State -> State * bool)
    (clock : list num) (st : State) : State :=
  match clock with
  | [] => st
  | now :: rest =>
      let '(st', again) := frame now st in
      if again then later_frames frame rest st' else st'
  end.

(** One run of the [animate] callback of [rotateZone] at clock reading
    [now]: the new state, and whether another frame is requested. *)
Definition rotateZone_frame (zone : nat)
    (currentRotation targetRotation startTime now : num) (st : State)
  : State * bool :=
  let duration := Fin 500 in
  let elapsed := (now - startTime)%js in
  let progress := Math.min (elapsed / duration)%js (Fin 1) in
  let easeProgress := (Fin 1 - Math.pow (Fin 1 - progress) 3)%js in
  let newRotation :=
    (currentRotation + (targetRotation - currentRotation) * easeProgress)%js in
  (update_mesh zone (set_rotation_y newRotation) st, (progress <? Fin 1)%js).

(** [rotateZone(zone)]; [now0] and [now1] are the readings of
    [performance.now()] for [startTime] and for the first run of [animate],
    [clock] the readings at the frames that follow. *)
Definition rotateZone (zone : nat) (now0 now1 : num) (clock : list num)
    (st : State) : State :=
  let currentRotation := y (rotation (meshes st zone)) in
  let targetRotation := (currentRotation + Math.PI / Fin 2)%js in
  let frame := rotateZone_frame zone currentRotation targetRotation now0 in
  let '(st1, again) := frame now1 st in
  let st2 := showFeedback "Zone rotated 90 degrees" true st1 in
  if again then later_frames frame clock st2 else st2.

(** One run of the [animate] callback of [scaleZone]. *)
Definition scaleZone_frame (zone : nat)
    (currentScale targetScale startTime now : num) (st : State)
  : State * bool :=
  let duration := Fin 300 in
  let elapsed := (now - startTime)%js in
  let progress := Math.min (elapsed / duration)%js (Fin 1) in
  let easeProgress := (Fin 1 - Math.pow (Fin 1 - progress) 3)%js in
  let newScale :=
    (currentScale + (targetScale - currentScale) * easeProgress)%js in
  (update_mesh zone (setScalar newScale) st, (progress <? Fin 1)%js).

(** [scaleZone(zone)] *)
Definition scaleZone (zone : nat) (now0 now1 : num) (clock : list num)
    (st : State) : State :=
  let currentScale := x (scale (meshes st zone)) in
  let targetScale :=
    if strict_eq currentScale (Fin 1) then Fin (6 / 5) else Fin 1 in
  let frame := scaleZone_frame zone currentScale targetScale now0 in
  let '(st1, again) := frame now1 st in
  let st2 :=
    showFeedback
      (if (Fin 1 <? targetScale)%js then "Zone enlarged" else "Zone restored")
      true st1 in
  if again then later_frames frame clock st2 else st2.

(** *** Selection from the zone list, crew avatars, the editor panel *)

(** [selectZoneFromList(zone)]; the camera move it starts is left out. *)
Definition selectZoneFromList (zone : nat) (st : State) : State :=
  state (meshes st) (next_uuid st) (zones st) (Some zone) [zone]
        (multiSelectMode st) (isDragging st) (dragStartPosition st)
        (snapToGrid st) (showCrew st) (currentEditingZone st) (value st)
        (feedback st) (animations st) (pendingDeselect st).

(** [toggleCrewAvatars]; the avatars themselves are left out. *)
Definition toggleCrewAvatars (st : State) : State :=
  state (meshes st) (next_uuid st) (zones st) (selectedZone st)
        (selectedZones st) (multiSelectMode st) (isDragging st)
        (dragStartPosition st) (snapToGrid st) (negb (showCrew st))
        (currentEditingZone st) (value st) (feedback st) (animations st)
        (pendingDeselect st).

(** [closeZoneEditor] *)
Definition closeZoneEditor (st : State) : State :=
  showFeedback "Zone editor closed" true
    (state (meshes st) (next_uuid st) (zones st) (selectedZone st)
           (selectedZones st) (multiSelectMode st) (isDragging st)
           (dragStartPosition st) (snapToGrid st) (showCrew st) None
           (value st) (feedback st) (animations st) (pendingDeselect st)).

(** [updateZoneRotation]: the rotation inputs hold degrees. *)
Definition updateZoneRotation (st : State) : State :=
  match currentEditingZone st with
  | None => st
  | Some zone =>
      let rx :=
        (JSString.parseFloat (value st "zone-rot-x") * Math.PI / Fin 180)%js in
      let ry :=
        (JSString.parseFloat (value st "zone-rot-y") * Math.PI / Fin 180)%js in
      let rz :=
        (JSString.parseFloat (value st "zone-rot-z") * Math.PI / Fin 180)%js in
      update_mesh zone (set_rotation (vec rx ry rz)) st
  end.

(** *** Keyboard shortcuts *)

(** [selectedZones.forEach(zone => removeZone(zone.userData.id))] *)
Definition remove_selected (st : State) : State :=
  fold_left (fun s zone => removeZone zone s) (selectedZones st) st.

(** [onKeyDown(event)]; [code] is [event.code], and the clock readings are
    those of the animation a command starts. *)
Definition onKeyDown (code : string) (now0 now1 : num) (clock : list num)
    (st : State) : State :=
  if String.eqb code "KeyG" then onKeyDown_KeyG st
  else if String.eqb code "Delete" || String.eqb code "Backspace" then
    match selectedZones st with
    | [] => st
    | _ :: _ =>
        let st1 := remove_selected st in
        showFeedback "Selected zones deleted" true
          (state (meshes st1) (next_uuid st1) (zones st1) (selectedZone st1)
                 [] (multiSelectMode st1) (isDragging st1)
                 (dragStartPosition st1) (snapToGrid st1) (showCrew st1)
                 (currentEditingZone st1) (value st1) (feedback st1)
                 (animations st1) (pendingDeselect st1))
    end
  else if String.eqb code "KeyR" then
    match selectedZone st with
    | Some zone => rotateZone zone now0 now1 clock st
    | None => st
    end
  else if String.eqb code "KeyS" then
    match selectedZone st with
    | Some zone => scaleZone zone now0 now1 clock st
    | None => st
    end
  else if String.eqb code "Escape" then
    state (meshes st) (next_uuid st) (zones st) None [] (multiSelectMode st)
          (isDragging st) (dragStartPosition st) (snapToGrid st)
          (showCrew st) (currentEditingZone st) (value st) (feedback st)
          (animations st) (pendingDeselect st)
  else st.

(** ** The events of the page *)

Inductive Axis : Type := axis_x | axis_y | axis_z.

(** The form controls whose listeners are modelled: the habitat controls
    and the zone type of the Add Zone button, whose listeners only redraw,
    and the position and rotation inputs of the zone editor. *)
Inductive Control : Type :=
| shape_control
| radius_control
| height_control
| crew_control
| zone_type_control
| zone_pos (a : Axis)
| zone_rot (a : Axis).

Definition axis_name (a : Axis) : string :=
  match a with axis_x => "x" | axis_y => "y" | axis_z => "z" end.

Definition control_id (c : Control) : string :=
  match c with
  | shape_control => "shape"
  | radius_control => "radius"
  | height_control => "height"
  | crew_control => "crew"
  | zone_type_control => "zone-type"
  | zone_pos a => "zone-pos-" ++ axis_name a
  | zone_rot a => "zone-rot-" ++ axis_name a
  end.

(** The events whose listeners are modelled above, with what the browser
    hands to the listener. *)
Inductive Event : Type :=
| AddZoneClick (random : num * num)
| ExportClick
| ImportFileLoaded (text : string)
| ToggleCrewClick
| ResetClick
| PointerDown (button : nat) (ctrlKey : bool) (hit : option nat)
| PointerMove (floorHit : option Vector3)
| PointerUp (ctrlKey : bool) (now0 now1 : num)
| DeselectTimeout
| AnimationFrame (k : nat) (now : num)
| KeyDown (code : string) (now0 now1 : num) (clock : list num)
| MenuRotate (zone : nat) (now0 now1 : num) (clock : list num)
| MenuScale (zone : nat) (now0 now1 : num) (clock : list num)
| MenuDuplicate (zone : nat)
| MenuDelete (zone : nat)
| ListSelect (zone : nat)
| ListRemove (id : nat)
| Input (c : Control) (text : string)
| CloseEditorClick.

Section Events.

Variable JSON_parse : string -> option Value.
Variable control_text : string -> Value -> string.

(** The listeners registered by [setupEventListeners],
    [setupZoneEditorControls], [updateZonesList] and
    [showZoneContextMenu]. *)
Definition handle (e : Event) (st : State) : State :=
  match e with
  | AddZoneClick random =>
      addZone (VStr (value st "zone-type")) None random st
  | ExportClick => snd (exportLayout st)
  | ImportFileLoaded text => importFile JSON_parse control_text text st
  | ToggleCrewClick => toggleCrewAvatars st
  | ResetClick => resetHabitat st
  | PointerDown button ctrlKey hit => onPointerDown button ctrlKey hit st
  | PointerMove floorHit => onPointerMove floorHit st
  | PointerUp ctrlKey now0 now1 => onPointerUp ctrlKey now0 now1 st
  | DeselectTimeout => deselectTimeout st
  | AnimationFrame k now => onAnimationFrame k now st
  | KeyDown code now0 now1 clock => onKeyDown code now0 now1 clock st
  | MenuRotate zone now0 now1 clock => rotateZone zone now0 now1 clock st
  | MenuScale zone now0 now1 clock => scaleZone zone now0 now1 clock st
  | MenuDuplicate zone => duplicateZone zone st
  | MenuDelete zone => removeZone zone st
  | ListSelect zone => selectZoneFromList zone st
  | ListRemove id => removeZone id st
  | Input c text =>
      let st1 := set_control (control_id c) text st in
      match c with
      | zone_pos _ => updateZonePosition st1
      | zone_rot _ => updateZoneRotation st1
      | _ => st1
      end
  | CloseEditorClick => closeZoneEditor st
  end.

(** The state after a sequence of events. *)
Definition run (events : list Event) (st : State) : State :=
  fold_left (fun s e => handle e s) events st.

End Events.

(** The zone list holds distinct identities of meshes created so far, and
    no zone is selected twice. *)
Definition distinct_zones (st : State) : Prop :=
  NoDup (zones st)
  /\ Forall (fun i => (i < next_uuid st)%nat) (zones st)
  /\ NoDup (selectedZones st).

(** A document [loadLayout] reads to the end: the habitat is an object
    (or anything but [null] and [undefined]) with a numeric radius and
    height, and [zones] is an array of entries with a position. *)
Definition loadable_document (layout : Value) : bool :=
  match prop layout "habitat" with
  | Some habitat =>
      match prop habitat "radius", prop habitat "height",
            prop layout "zones" with
      | Some (VNum _), Some (VNum _), Some (VArr items) =>
          forallb loadable_zone items
      | _, _, _ => false
      end
  | None => false
  end.

(** The control values of a capsule of radius 10 and height 15 without a
    crew. *)
Definition capsule_controls : string -> string :=
  fun id =>
    (if String.eqb id "shape" then "capsule"
     else if String.eqb id "radius" then "10"
     else if String.eqb id "height" then "15"
     else if String.eqb id "crew" then "0"
     else "")%string.

(** A document with two entries in [zones], the second one without a
    position, its text, and a [JSON.parse] that knows this text too. *)
Definition broken_document : Value :=
  VObj [("habitat",
         VObj [("shape", VStr "dome"); ("radius", VNum (Fin 10));
               ("height", VNum (Fin 15)); ("crew", VNum (Fin 8))]);
        ("zones",
         VArr [VObj [("type", VStr "kitchen");
                     ("position",
                      VObj [("x", VStr "1.00"); ("y", VStr "1.00");
                            ("z", VStr "2.00")])];
               VObj [("type", VStr "storage")]])]%string.

Definition broken_text : string :=
  ("{" ++ quoted "habitat" ++ ":{" ++ quoted "shape" ++ ":"
   ++ quoted "dome" ++ "," ++ quoted "radius" ++ ":10,"
   ++ quoted "height" ++ ":15," ++ quoted "crew" ++ ":8},"
   ++ quoted "zones" ++ ":[{" ++ quoted "type" ++ ":" ++ quoted "kitchen"
   ++ "," ++ quoted "position" ++ ":{" ++ quoted "x" ++ ":" ++ quoted "1.00"
   ++ "," ++ quoted "y" ++ ":" ++ quoted "1.00" ++ "," ++ quoted "z" ++ ":"
   ++ quoted "2.00" ++ "}},{" ++ quoted "type" ++ ":" ++ quoted "storage"
   ++ "}]}")%string.

Definition sample_JSON_parse_broken (text : string) : option Value :=
  if String.eqb text broken_text then Some broken_document
  else sample_JSON_parse text.

(** The zone of [zone_at_9_picked_free] dragged out of the habitat, to
    [(12, 1, 0)]. *)
Definition zone_dragged_out : State :=
  onPointerMove (Some (vec (Fin 12) (Fin 0) (Fin 0))) zone_at_9_picked_free.

(** The layout exported from [st], as it comes back from the JSON text,
    loaded into [st0]. *)
Definition reimport (control_text : string -> Value -> string)
    (st st0 : State) : State :=
  fst (loadLayout control_text (JSON_clone (fst (exportLayout st))) st0).

(** The two zones of [crowded_edge], at [(9, 1, 0)] and [(9, 1, 1)], while
    a revert of the first one from [(12, 1, 0)] is waiting for its next
    frame. *)
Definition revert_pending : State :=
  with_animations
    [animation 0 (vec (Fin 12) (Fin 1) (Fin 0)) (Fin 600) (Fin 0)]
    (update_mesh 0 (set_position (vec (Fin 12) (Fin 1) (Fin 0)))
       crowded_edge).

(** ** Values that can be turned into strings *)

(** Whether [ToString] returns on a value of a parsed document.  It throws
    a [TypeError] on an object that has a key [toString], which hides the
    method of that name without being a function, and on an array that
    holds such a value.  [loadLayout] turns the shape and the crew of the
    habitat and the coordinates and the type of every zone entry into
    strings (when it assigns to a control, in a template, in [parseFloat],
    as the key of [zoneColors]); the model above has no error path there,
    so that it follows the program on the documents whose values of these
    places are printable. *)
Fixpoint printable (v : Value) : bool :=
  match v with
  | VObj fields =>
      negb (existsb (fun kv => String.eqb (fst kv) "toString") fields)
  | VArr items => forallb printable items
  | _ => true
  end.

Definition printable_zone (zoneData : Value) : bool :=
  let p := field zoneData "position" in
  printable (field p "x") && printable (field p "y")
  && printable (field p "z") && printable (field zoneData "type").

Definition printable_document (layout : Value) : bool :=
  let habitat := field layout "habitat" in
  printable (field habitat "shape") && printable (field habitat "radius")
  && printable (field habitat "height") && printable (field habitat "crew")
  && match field layout "zones" with
     | VArr items => forallb printable_zone items
     | _ => true
     end.

(** * Properties *)

(** ** Comparisons of real numbers and square roots *)

Lemma Rltb_true (a b : R) : Rltb a b = true <-> a < b.
Proof.
  unfold Rltb. destruct (Rlt_dec a b); split; intro; try easy; lra.
Qed.

Lemma Rltb_false (a b : R) : Rltb a b = false <-> b <= a.
Proof.
  unfold Rltb. destruct (Rlt_dec a b); split; intro; try easy; lra.
Qed.

Lemma Reqb_true (a b : R) : Reqb a b = true <-> a = b.
Proof.
  unfold Reqb. destruct (Req_dec_T a b); split; intro; easy.
Qed.

Lemma Reqb_false (a b : R) : Reqb a b = false <-> a <> b.
Proof.
  unfold Reqb. destruct (Req_dec_T a b); split; intro; easy.
Qed.

(** Settles the comparisons between real numbers that linear arithmetic
    decides. *)
Ltac decide_real_tests :=
  repeat match goal with
    | |- context [Rltb ?a ?b] =>
        first
          [ replace (Rltb a b) with true
              by (symmetry; apply Rltb_true; lra)
          | replace (Rltb a b) with false
              by (symmetry; apply Rltb_false; lra) ]
    | |- context [Reqb ?a ?b] =>
        first
          [ replace (Reqb a b) with true
              by (symmetry; apply Reqb_true; lra)
          | replace (Reqb a b) with false
              by (symmetry; apply Reqb_false; lra) ]
    end.

Lemma sqrt_lt_sq (s m : R) :
  0 <= s -> (sqrt s < m <-> 0 < m /\ s < m * m).
Proof.
  intro Hs.
  pose proof (sqrt_pos s) as Hp.
  pose proof (sqrt_sqrt s Hs) as Hq.
  split.
  - intro H. split; nra.
  - intros [Hm H]. destruct (Rlt_dec (sqrt s) m) as [|Hn]; [assumption|].
    exfalso. nra.
Qed.

Lemma sqrt_ge_sq (s m : R) :
  0 <= s -> (m <= sqrt s <-> m <= 0 \/ m * m <= s).
Proof.
  intro Hs. pose proof (sqrt_lt_sq s m Hs) as H.
  split.
  - intro Hle. destruct (Rle_dec m 0) as [|Hm]; [now left|right].
    destruct (Rle_dec (m * m) s) as [|Hn]; [assumption|].
    exfalso. assert (sqrt s < m) by (apply H; lra). lra.
  - intros [Hm|Hm].
    + pose proof (sqrt_pos s). lra.
    + destruct (Rle_dec m (sqrt s)) as [|Hn]; [assumption|].
      exfalso. assert (sqrt s < m) as Hlt by lra. apply H in Hlt. lra.
Qed.

Lemma sum_squares_nonneg (a b : R) : 0 <= a * a + b * b.
Proof. nra. Qed.

Lemma sum_squares3_nonneg (a b c : R) : 0 <= a * a + b * b + c * c.
Proof.
  pose proof (Rle_0_sqr a). pose proof (Rle_0_sqr b).
  pose proof (Rle_0_sqr c). unfold Rsqr in *. lra.
Qed.

Lemma Math_sqrt_Fin (s : R) :
  0 <= s -> Math.sqrt (Fin s) = Fin (sqrt s).
Proof.
  intro H. unfold Math.sqrt.
  replace (Rltb s 0) with false; [reflexivity|].
  symmetry. now apply Rltb_false.
Qed.

(** ** Rounding to the grid *)

Lemma snap_Fin (c : R) : snap (Fin c) = Fin (IZR (Zfloor (c + / 2))).
Proof.
  unfold snap. cbn [JS.div].
  decide_real_tests.
  cbn [Math.round JS.mul]. f_equal.
  replace (c / 1) with c by lra. lra.
Qed.

(** The integer chosen by [Math.round] is a nearest one. *)
Lemma round_nearest (c : R) : Rabs (c - IZR (Zfloor (c + / 2))) <= / 2.
Proof.
  pose proof (Zfloor_bound (c + / 2)) as [H1 H2].
  apply Rabs_le. lra.
Qed.

(** ** The boundary check *)

Lemma isValidPlacement_Fin (radius px pz : R) :
  isValidPlacement (Fin radius) (Fin px) (Fin pz)
  = Rltb (sqrt (px * px + pz * pz)) (radius - 3 / 2).
Proof.
  unfold isValidPlacement. cbn [JS.mul JS.add JS.sub].
  rewrite Math_sqrt_Fin by apply sum_squares_nonneg.
  reflexivity.
Qed.



Lemma parseFloat_10 : JSString.parseFloat "10" = Fin 10.
Proof. cbn. unfold JSString.signed. f_equal. lra. Qed.

Lemma sqrt_81 : sqrt (9 * 9 + 0 * 0) = 9.
Proof. replace (9 * 9 + 0 * 0) with (9 * 9) by lra. apply sqrt_square. lra. Qed.



(** ** Distances between zones *)

Lemma distanceTo_Fin (a b c a' b' c' : R) :
  distanceTo (vec (Fin a) (Fin b) (Fin c)) (vec (Fin a') (Fin b') (Fin c'))
  = Fin (sqrt ((a - a') * (a - a') + (b - b') * (b - b')
               + (c - c') * (c - c'))).
Proof.
  unfold distanceTo. cbn [x y z JS.sub JS.mul JS.add].
  apply Math_sqrt_Fin. apply sum_squares3_nonneg.
Qed.

(** Two finite positions are closer than 2.5 exactly when the sum of the
    squared differences is below 2.5². *)
Lemma near_Fin (a b c a' b' c' : R) :
  (distanceTo (vec (Fin a) (Fin b) (Fin c)) (vec (Fin a') (Fin b') (Fin c'))
   <? Fin (5 / 2))%js = true
  <-> (a - a') * (a - a') + (b - b') * (b - b') + (c - c') * (c - c')
      < 25 / 4.
Proof.
  rewrite distanceTo_Fin. cbn [JS.ltb]. rewrite Rltb_true.
  rewrite sqrt_lt_sq by apply sum_squares3_nonneg.
  split; [intros [_ H]|intro H; split]; lra.
Qed.

Lemma far_Fin (a b c a' b' c' : R) :
  (distanceTo (vec (Fin a) (Fin b) (Fin c)) (vec (Fin a') (Fin b') (Fin c'))
   <? Fin (5 / 2))%js = false
  <-> 25 / 4 <= (a - a') * (a - a') + (b - b') * (b - b')
                + (c - c') * (c - c').
Proof.
  pose proof (near_Fin a b c a' b' c') as H.
  destruct (distanceTo _ _ <? Fin (5 / 2))%js; split; intro H1;
    try reflexivity; try discriminate.
  - assert (true = true) as H2 by reflexivity. apply H in H2. lra.
  - destruct (Rlt_dec ((a - a') * (a - a') + (b - b') * (b - b')
                       + (c - c') * (c - c')) (25 / 4)) as [Hlt|]; [|lra].
    apply H in Hlt. discriminate.
Qed.


(** ** The collision loop *)

(** The loop finds a collision exactly when some zone of the list, other
    than the selected one, is closer than 2.5 to the selected zone. *)
Lemma hasCollision_exists (ms : nat -> Mesh) (sel : nat) (zs : list nat) :
  hasCollision ms sel zs = true
  <-> exists zone,
        In zone zs /\ zone <> sel
        /\ (distanceTo (position (ms sel)) (position (ms zone))
            <? Fin (5 / 2))%js = true.
Proof.
  induction zs as [|zone rest IH]; cbn [hasCollision].
  - split; [discriminate|intros (zone & [] & _)].
  - destruct (Nat.eqb_spec zone sel) as [Heq|Hne]; cbn [negb andb].
    + rewrite IH. split; intros (z' & Hin & Hz & Hd); exists z'.
      * repeat split; auto. now right.
      * destruct Hin as [->|Hin]; [contradiction|auto].
    + destruct (distanceTo _ _ <? Fin (5 / 2))%js eqn:Hd.
      * split; [intros _|reflexivity]. exists zone.
        repeat split; auto. now left.
      * rewrite IH. split; intros (z' & Hin & Hz & Hd'); exists z'.
        -- repeat split; auto. now right.
        -- destruct Hin as [->|Hin]; [congruence|auto].
Qed.

(** The order in which the zones are scanned does not matter. *)
Lemma hasCollision_Permutation (ms : nat -> Mesh) (sel : nat)
    (zs zs' : list nat) :
  Permutation zs zs' -> hasCollision ms sel zs = hasCollision ms sel zs'.
Proof.
  intro Hp.
  destruct (hasCollision ms sel zs) eqn:H1;
    destruct (hasCollision ms sel zs') eqn:H2; try reflexivity; exfalso.
  - apply hasCollision_exists in H1 as (zone & Hin & Hz & Hd).
    assert (hasCollision ms sel zs' = true) as H3.
    { apply hasCollision_exists. exists zone. repeat split; auto.
      now apply (Permutation_in _ Hp). }
    congruence.
  - apply hasCollision_exists in H2 as (zone & Hin & Hz & Hd).
    assert (hasCollision ms sel zs = true) as H3.
    { apply hasCollision_exists. exists zone. repeat split; auto.
      now apply (Permutation_in _ (Permutation_sym Hp)). }
    congruence.
Qed.

(** X6.  When the pointer is released, the position the drag has given to
    the zone is accepted exactly when it passes the boundary check and no
    other zone of the layout is closer than 2.5 to it. *)
Lemma onPointerUp_accepts (st : State) (sel : nat) (ctrlKey : bool)
    (now0 now1 : num) :
  selectedZone st = Some sel -> isDragging st = true ->
  (feedback (onPointerUp ctrlKey now0 now1 st)
   = Some ("Zone positioned successfully"%string, true)
   <-> isValidPlacement (JSString.parseFloat (value st "radius"))
         (x (position (meshes st sel))) (z (position (meshes st sel)))
       = true
       /\ ~ exists zone,
            In zone (zones st) /\ zone <> sel
            /\ (distanceTo (position (meshes st sel))
                  (position (meshes st zone)) <? Fin (5 / 2))%js = true).
Proof.
  intros Hsel Hdrag. rewrite <- hasCollision_exists.
  unfold onPointerUp. rewrite Hsel, Hdrag.
  destruct (isValidPlacement _ _ _); destruct (hasCollision _ _ _);
    cbn [andb negb];
    destruct (negb (multiSelectMode st) && negb ctrlKey); cbn;
    split; try discriminate; try (intros [H1 H2]; try discriminate;
    exfalso; now apply H2); intros _; split; congruence.
Qed.

(** A pair of zones at distance exactly 2.5 does not collide. *)
Lemma distance_2_5_is_no_collision (a b c a' b' c' : R) :
  sqrt ((a - a') * (a - a') + (b - b') * (b - b') + (c - c') * (c - c'))
  = 5 / 2 ->
  (distanceTo (vec (Fin a) (Fin b) (Fin c)) (vec (Fin a') (Fin b') (Fin c'))
   <? Fin (5 / 2))%js = false.
Proof.
  intro H. rewrite distanceTo_Fin. cbn [JS.ltb]. apply Rltb_false. lra.
Qed.

(** Two zones at [(0, 1, 0)] and [(2, 1, 0)] are closer than 2.5. *)
Lemma zones_two_apart_collide :
  (distanceTo (vec (Fin 0) (Fin 1) (Fin 0)) (vec (Fin 2) (Fin 1) (Fin 0))
   <? Fin (5 / 2))%js = true.
Proof. apply near_Fin. lra. Qed.

(** [onPointerMove] on a dragged zone, grid snapping off. *)
Lemma onPointerMove_free (st : State) (sel : nat) (p : Vector3) :
  selectedZone st = Some sel -> isDragging st = true ->
  snapToGrid st = false ->
  onPointerMove (Some p) st
  = let valid :=
      isValidPlacement (JSString.parseFloat (value st "radius")) (x p) (z p)
    in
    let collision := hasCollision (meshes st) sel (zones st) in
    showFeedback
      (if valid && negb collision then "Valid placement"
       else if collision then "Too close to another zone"
       else "Outside habitat boundary")%string
      (valid && negb collision)
      (update_mesh sel (set_position (vec (x p) (Fin 1) (z p))) st).
Proof.
  intros Hsel Hdrag Hsnap. unfold onPointerMove.
  rewrite Hsel, Hdrag, Hsnap. reflexivity.
Qed.

(** C2, at the failing input.  In [two_apart] the zone at [(0, 1, 0)] is
    dragged onto [(5, 1, 0)], where the other zone stands: the proposed
    position is at distance 0 from it, and [onPointerMove] reports a valid
    placement, because its collision loop measures from the position the
    dragged zone had before this move.  The release of the pointer then
    finds the collision. *)
Theorem onPointerMove_misses_collision :
  let proposed := vec (Fin 5) (Fin 1) (Fin 0) in
  let moved := onPointerMove (Some (vec (Fin 5) (Fin 0) (Fin 0))) two_apart in
  (distanceTo proposed (position (meshes two_apart 1)) <? Fin (5 / 2))%js
  = true
  /\ feedback moved = Some ("Valid placement"%string, true)
  /\ position (meshes moved 0) = proposed
  /\ feedback (onPointerUp false (Fin 0) (Fin 0) moved)
     = Some ("Invalid placement - zone returned to original position"
             %string, false).
Proof.
  cbv zeta.
  assert (Hnear : (distanceTo (vec (Fin 5) (Fin 1) (Fin 0))
                     (vec (Fin 5) (Fin 1) (Fin 0)) <? Fin (5 / 2))%js = true)
    by (apply near_Fin; lra).
  assert (Hfar : (distanceTo (vec (Fin 0) (Fin 1) (Fin 0))
                    (vec (Fin 5) (Fin 1) (Fin 0)) <? Fin (5 / 2))%js = false)
    by (apply far_Fin; lra).
  assert (Hin : isValidPlacement (Fin 10) (Fin 5) (Fin 0) = true).
  { rewrite isValidPlacement_Fin. apply Rltb_true. apply sqrt_lt_sq; nra. }
  split; [exact Hnear|].
  rewrite (onPointerMove_free two_apart 0 _ eq_refl eq_refl eq_refl).
  change (JSString.parseFloat (value two_apart "radius"))
    with (JSString.parseFloat "10").
  change (hasCollision (meshes two_apart) 0 (zones two_apart))
    with (if (distanceTo (vec (Fin 0) (Fin 1) (Fin 0))
                (vec (Fin 5) (Fin 1) (Fin 0)) <? Fin (5 / 2))%js
          then true else false).
  cbn [x z]. rewrite parseFloat_10, Hin, Hfar. cbv zeta. cbn [andb negb].
  split; [reflexivity|]. split; [reflexivity|].
  set (moved := showFeedback _ _ _).
  unfold onPointerUp.
  change (selectedZone moved) with (Some 0%nat).
  change (isDragging moved) with true. cbv iota.
  change (JSString.parseFloat (value moved "radius"))
    with (JSString.parseFloat "10").
  change (position (meshes moved 0)) with (vec (Fin 5) (Fin 1) (Fin 0)).
  change (hasCollision (meshes moved) 0 (zones moved))
    with (if (distanceTo (vec (Fin 5) (Fin 1) (Fin 0))
                (vec (Fin 5) (Fin 1) (Fin 0)) <? Fin (5 / 2))%js
          then true else false).
  cbn [x z]. rewrite parseFloat_10, Hin, Hnear. reflexivity.
Qed.

(** ** Grid snapping *)

(** C10.  The editor starts with grid snapping on.  With grid snapping on,
    a pointer move over the floor point [(px, py, pz)] during a drag gives
    the dragged zone the position [(nx, 1, nz)], where [nx] and [nz] are
    integers nearest to [px] and [pz], whatever the height of the zone was
    before; the boundary check reported with it is the one of the snapped
    point. *)
Theorem drag_commits_snapped_position (st : State) (sel : nat)
    (px pz : R) (py : num) :
  selectedZone st = Some sel -> isDragging st = true ->
  snapToGrid st = true ->
  (forall value0, snapToGrid (initial_state value0) = true)
  /\ exists nx nz : Z,
       let st' := onPointerMove (Some (vec (Fin px) py (Fin pz))) st in
       position (meshes st' sel) = vec (Fin (IZR nx)) (Fin 1) (Fin (IZR nz))
       /\ Rabs (px - IZR nx) <= / 2
       /\ Rabs (pz - IZR nz) <= / 2
       /\ exists text,
            feedback st'
            = Some (text,
                    isValidPlacement
                      (JSString.parseFloat (value st "radius"))
                      (Fin (IZR nx)) (Fin (IZR nz))
                    && negb (hasCollision (meshes st) sel (zones st))).
Proof.
  intros Hsel Hdrag Hsnap. split; [reflexivity|].
  exists (Zfloor (px + / 2)), (Zfloor (pz + / 2)).
  unfold onPointerMove. rewrite Hsel, Hdrag, Hsnap.
  cbn [x y z]. rewrite !snap_Fin.
  split; [|split; [apply round_nearest|split; [apply round_nearest|]]].
  - cbn. rewrite Nat.eqb_refl. reflexivity.
  - eexists. reflexivity.
Qed.

(** ** Habitat figures *)

Lemma PI_bounds : 3.14155 < PI < 3.1416.
Proof.
  pose proof (PI_2_3_7_ineq 1) as [Hlo _].
  pose proof (PI_2_3_7_ineq 2) as [_ Hhi].
  unfold sum_f_R0, tg_alt, PI_2_3_7_tg, Ratan_seq in Hlo, Hhi.
  simpl in Hlo, Hhi.
  split; lra.
Qed.

Lemma parseFloat_15 : JSString.parseFloat "15" = Fin 15.
Proof. cbn. unfold JSString.signed. f_equal. lra. Qed.

Lemma parseInt_8 : JSString.parseInt "8" = Fin 8.
Proof. reflexivity. Qed.

(** [toFixed] on a number that is not negative, once the rounded integer
    is known. *)
Lemma toFixed_nonneg (f : nat) (r : R) (n : Z) :
  0 <= r -> IZR n <= r * 10 ^ f + / 2 < IZR n + 1 ->
  JSString.toFixed f (Fin r)
  = (Str.string_of_N (Z.to_N n / 10 ^ N.of_nat f)
     ++ match f with
        | O => ""
        | S _ => "." ++ Str.fixed_digits f (Z.to_N n mod 10 ^ N.of_nat f) ""
        end)%string.
Proof.
  intros Hr Hn. unfold JSString.toFixed.
  replace (Rltb r 0) with false by (symmetry; apply Rltb_false; lra).
  rewrite Rabs_pos_eq by assumption.
  rewrite (Zfloor_eq n) by assumption. reflexivity.
Qed.

(** C7.  [updateInfo] computes [(2/3)·π·r³] for a dome, [π·r²·h] for a
    cylinder and [π·r²·(h − 2·r) + (4/3)·π·r³] for a capsule, the floor area
    [π·r²] and the volume divided by the crew size.  For the dome of radius
    10 and height 15 with a crew of 8 the volume is 2094.4 and the volume
    per astronaut 261.8, to one decimal. *)
Theorem habitat_volume_formulas (st : State) (r h : R) (crew : num) :
  JSString.parseFloat (value st "radius") = Fin r ->
  JSString.parseFloat (value st "height") = Fin h ->
  JSString.parseInt (value st "crew") = crew ->
  (value st "shape" = "dome"%string ->
   volume (updateInfo st) = Fin (2 / 3 * PI * r ^ 3))
  /\ (value st "shape" = "cylinder"%string ->
      volume (updateInfo st) = Fin (PI * r ^ 2 * h))
  /\ (value st "shape" = "capsule"%string ->
      volume (updateInfo st)
      = Fin (PI * r ^ 2 * (h - 2 * r) + 4 / 3 * PI * r ^ 3))
  /\ floorArea (updateInfo st) = Fin (PI * r ^ 2)
  /\ perAstronaut (updateInfo st) = (volume (updateInfo st) / crew)%js
  /\ (let i := updateInfo (initial_state dome_controls) in
      exists v p,
        volume i = Fin v /\ Rabs (v - 2094.4) < 0.05
        /\ perAstronaut i = Fin p /\ Rabs (p - 261.8) < 0.05
        /\ volume_text i = "2094.4"%string
        /\ perAstronaut_text i = "261.8"%string).
Proof.
  intros Hr Hh Hc.
  repeat split.
  - intro Hs. unfold updateInfo. rewrite Hr, Hh, Hs. cbn. f_equal. ring.
  - intro Hs. unfold updateInfo. rewrite Hr, Hh, Hs. cbn. f_equal. ring.
  - intro Hs. unfold updateInfo. rewrite Hr, Hh, Hs. cbn. f_equal. ring.
  - unfold updateInfo. rewrite Hr. cbn. f_equal. ring.
  - unfold updateInfo. rewrite Hc. reflexivity.
  - pose proof PI_bounds as [Hlo Hhi].
    assert (Hv : volume (updateInfo (initial_state dome_controls))
                 = Fin (2 / 3 * PI * 1000)).
    { unfold updateInfo.
      change (value (initial_state dome_controls) "radius") with "10"%string.
      change (value (initial_state dome_controls) "height") with "15"%string.
      change (value (initial_state dome_controls) "shape") with "dome"%string.
      rewrite parseFloat_10, parseFloat_15. cbn. f_equal. ring. }
    assert (Hp : perAstronaut (updateInfo (initial_state dome_controls))
                 = Fin (2 / 3 * PI * 1000 / 8)).
    { change (perAstronaut (updateInfo (initial_state dome_controls)))
        with (volume (updateInfo (initial_state dome_controls))
              / JSString.parseInt "8")%js.
      rewrite Hv, parseInt_8. cbn [JS.div].
      decide_real_tests.
      reflexivity. }
    cbv zeta.
    exists (2 / 3 * PI * 1000), (2 / 3 * PI * 1000 / 8).
    split; [exact Hv|]. split; [apply Rabs_def1; lra|].
    split; [exact Hp|]. split; [apply Rabs_def1; lra|].
    split.
    + change (volume_text (updateInfo (initial_state dome_controls)))
        with (JSString.toFixed 1
                (volume (updateInfo (initial_state dome_controls)))).
      rewrite Hv. rewrite (toFixed_nonneg 1 _ 20944) by (simpl; lra).
      vm_compute. reflexivity.
    + change (perAstronaut_text (updateInfo (initial_state dome_controls)))
        with (JSString.toFixed 1
                (perAstronaut (updateInfo (initial_state dome_controls)))).
      rewrite Hp. rewrite (toFixed_nonneg 1 _ 2618) by (simpl; lra).
      vm_compute. reflexivity.
Qed.

(** ** Duplicating a zone *)

(** The copy made by [duplicateZone] has the size of a new zone, not the
    size of its source: the copy of the enlarged zone has scale 1. *)
Lemma duplicate_drops_scale :
  let st' := duplicateZone 0 enlarged_zone in
  zones st' = [0; 1]%nat
  /\ scale (meshes enlarged_zone 0)
     = vec (Fin (6 / 5)) (Fin (6 / 5)) (Fin (6 / 5))
  /\ scale (meshes st' 1) = vec (Fin 1) (Fin 1) (Fin 1)
  /\ scale (meshes st' 1) <> scale (meshes enlarged_zone 0).
Proof.
  cbv zeta. repeat split.
  change (scale (meshes (duplicateZone 0 enlarged_zone) 1))
    with (vec (Fin 1) (Fin 1) (Fin 1)).
  change (scale (meshes enlarged_zone 0))
    with (vec (Fin (6 / 5)) (Fin (6 / 5)) (Fin (6 / 5))).
  intro H. injection H as H _ _. lra.
Qed.

(** C9, amended.  [duplicateZone] appends exactly one zone to the list.
    The new zone has the type of its source and the source's position moved
    by [(3, 0, 0)], whatever the boundary and collision checks would say of
    that position, and the rotation, scale and box of every new zone.  No
    mesh that existed before is changed. *)
Theorem duplicateZone_adds_one_zone (st : State) (zone : nat) :
  (zone < next_uuid st)%nat ->
  let st' := duplicateZone zone st in
  let copy := next_uuid st in
  zones st' = zones st ++ [copy]
  /\ List.length (zones st') = S (List.length (zones st))
  /\ userData_type (meshes st' copy) = userData_type (meshes st zone)
  /\ position (meshes st' copy)
     = THREE.add (position (meshes st zone)) (vec (Fin 3) (Fin 0) (Fin 0))
  /\ rotation (meshes st' copy) = vec (Fin 0) (Fin 0) (Fin 0)
  /\ scale (meshes st' copy) = vec (Fin 1) (Fin 1) (Fin 1)
  /\ geometry (meshes st' copy) = vec (Fin 2) (Fin 2) (Fin 2)
  /\ (forall j, (j < next_uuid st)%nat -> meshes st' j = meshes st j)
  /\ meshes st' zone = meshes st zone.
Proof.
  intro Hlt. cbv zeta. unfold duplicateZone, addZone. cbn.
  rewrite Nat.eqb_refl. cbn.
  assert (Hold : forall j, (j < next_uuid st)%nat ->
                 (if Nat.eqb j (next_uuid st)
                  then mesh (userData_type (meshes st zone))
                         (THREE.add (position (meshes st zone))
                            (vec (Fin 3) (Fin 0) (Fin 0)))
                         zero3 one3 box_2_2_2
                  else meshes st j) = meshes st j).
  { intros j Hj. destruct (Nat.eqb_spec j (next_uuid st)); [lia|reflexivity]. }
  repeat split; try reflexivity.
  - rewrite length_app. cbn. lia.
  - exact Hold.
  - apply Hold, Hlt.
Qed.

(** ** The zone editor's position inputs *)

(** The position typed into the zone editor is written onto the zone
    although it fails the boundary check: [(100, 1, 0)] in a habitat of
    radius 10. *)
Lemma editor_writes_rejected_position :
  let st' := updateZonePosition editor_with_far_position in
  In 0%nat (zones st')
  /\ position (meshes st' 0) = vec (Fin 100) (Fin 1) (Fin 0)
  /\ isValidPlacement (JSString.parseFloat (value st' "radius"))
       (Fin 100) (Fin 0) = false.
Proof.
  cbv zeta. split; [now left|]. split.
  - unfold updateZonePosition.
    change (currentEditingZone editor_with_far_position) with (Some 0%nat).
    cbv iota beta.
    change (value editor_with_far_position "zone-pos-x") with "100"%string.
    change (value editor_with_far_position "zone-pos-y") with "1"%string.
    change (value editor_with_far_position "zone-pos-z") with "0"%string.
    cbn. unfold JSString.signed. f_equal; f_equal; lra.
  - change (value (updateZonePosition editor_with_far_position) "radius")
      with "10"%string.
    rewrite parseFloat_10, isValidPlacement_Fin. apply Rltb_false.
    apply sqrt_ge_sq; nra.
Qed.

(** [onPointerUp] on a dragged zone whose position is rejected. *)
Lemma onPointerUp_rejected (st : State) (sel : nat) (ctrlKey : bool)
    (now0 now1 : num) :
  selectedZone st = Some sel -> isDragging st = true ->
  isValidPlacement (JSString.parseFloat (value st "radius"))
    (x (position (meshes st sel))) (z (position (meshes st sel)))
  && negb (hasCollision (meshes st) sel (zones st)) = false ->
  let st' := onPointerUp ctrlKey now0 now1 st in
  meshes st' = meshes (animateZoneToPosition sel now0 now1 st)
  /\ animations st' = animations (animateZoneToPosition sel now0 now1 st)
  /\ zones st' = zones st
  /\ dragStartPosition st' = dragStartPosition st
  /\ feedback st'
     = Some ("Invalid placement - zone returned to original position"%string,
             false).
Proof.
  intros Hsel Hdrag Hv. cbv zeta. unfold onPointerUp.
  rewrite Hsel, Hdrag, Hv. cbn [negb].
  destruct (negb (multiSelectMode st) && negb ctrlKey);
    unfold animateZoneToPosition, run_frame, animation_frame; cbn;
    destruct (_ <? _)%js; repeat split; reflexivity.
Qed.

(** [onPointerUp] on a dragged zone whose position is accepted. *)
Lemma onPointerUp_accepted (st : State) (sel : nat) (ctrlKey : bool)
    (now0 now1 : num) :
  selectedZone st = Some sel -> isDragging st = true ->
  isValidPlacement (JSString.parseFloat (value st "radius"))
    (x (position (meshes st sel))) (z (position (meshes st sel)))
  && negb (hasCollision (meshes st) sel (zones st)) = true ->
  let st' := onPointerUp ctrlKey now0 now1 st in
  meshes st' = meshes st
  /\ animations st' = animations st
  /\ zones st' = zones st
  /\ feedback st' = Some ("Zone positioned successfully"%string, true).
Proof.
  intros Hsel Hdrag Hv. cbv zeta. unfold onPointerUp.
  rewrite Hsel, Hdrag, Hv. cbn [negb].
  destruct (negb (multiSelectMode st) && negb ctrlKey);
    repeat split; reflexivity.
Qed.

(** C8, amended.  Validation gates the release of a drag only.  The zone
    editor's position inputs write whatever they parse to onto the zone
    being edited; every pointer move of a drag writes the pointer position
    (snapped when grid snapping is on) at height 1 onto the dragged zone;
    and when the pointer is released [onPointerUp] leaves the meshes as
    they are if the position passes the boundary and collision checks, and
    starts the revert animation if it does not. *)
Theorem validation_gates_only_the_drop :
  (forall (st : State) (zone : nat),
     currentEditingZone st = Some zone ->
     position (meshes (updateZonePosition st) zone)
     = vec (JSString.parseFloat (value st "zone-pos-x"))
           (JSString.parseFloat (value st "zone-pos-y"))
           (JSString.parseFloat (value st "zone-pos-z")))
  /\ (forall (st : State) (sel : nat) (p : Vector3),
        selectedZone st = Some sel -> isDragging st = true ->
        position (meshes (onPointerMove (Some p) st) sel)
        = if snapToGrid st then vec (snap (x p)) (Fin 1) (snap (z p))
          else vec (x p) (Fin 1) (z p))
  /\ (forall (st : State) (sel : nat) (ctrlKey : bool) (now0 now1 : num),
        selectedZone st = Some sel -> isDragging st = true ->
        let p := position (meshes st sel) in
        let valid :=
          isValidPlacement (JSString.parseFloat (value st "radius"))
            (x p) (z p)
          && negb (hasCollision (meshes st) sel (zones st)) in
        let st' := onPointerUp ctrlKey now0 now1 st in
        (valid = true ->
         meshes st' = meshes st
         /\ animations st' = animations st
         /\ feedback st' = Some ("Zone positioned successfully"%string, true))
        /\ (valid = false ->
            meshes st' = meshes (animateZoneToPosition sel now0 now1 st)
            /\ feedback st'
               = Some ("Invalid placement - zone returned to original position"
                       %string, false))).
Proof.
  split; [|split].
  - intros st zone Hz. unfold updateZonePosition. rewrite Hz. cbn.
    rewrite Nat.eqb_refl. reflexivity.
  - intros st sel p Hsel Hdrag. unfold onPointerMove.
    rewrite Hsel, Hdrag. cbn. rewrite Nat.eqb_refl.
    destruct (snapToGrid st); reflexivity.
  - intros st sel ctrlKey now0 now1 Hsel Hdrag. cbv zeta. split; intro Hv.
    + destruct (onPointerUp_accepted st sel ctrlKey now0 now1 Hsel Hdrag Hv)
        as (H1 & H2 & _ & H4). auto.
    + destruct (onPointerUp_rejected st sel ctrlKey now0 now1 Hsel Hdrag Hv)
        as (H1 & _ & _ & _ & H4). auto.
Qed.

(** ** The revert animation *)

(** A revert that has no distance to cover, both clock readings being the
    same: the duration is 0, the progress [0 / 0] is [NaN], and so is the
    position written. *)
Lemma revert_in_place (st : State) (sel : nat) (a b c t : R) :
  position (meshes st sel) = vec (Fin a) (Fin b) (Fin c) ->
  dragStartPosition st = vec (Fin a) (Fin b) (Fin c) ->
  animateZoneToPosition sel (Fin t) (Fin t) st
  = update_mesh sel (set_position (vec NaN NaN NaN)) st.
Proof.
  intros Hp Hd. unfold animateZoneToPosition. rewrite Hp, Hd.
  rewrite distanceTo_Fin.
  replace ((a - a) * (a - a) + (b - b) * (b - b) + (c - c) * (c - c))
    with 0 by ring.
  rewrite sqrt_0.
  unfold run_frame, animation_frame.
  cbn [duration startTime startPosition anim_zone JS.mul JS.sub Math.min
       JS.ltb].
  decide_real_tests.
  cbn [JS.div].
  decide_real_tests. unfold scale_inf. decide_real_tests.
  rewrite Hd. reflexivity.
Qed.

(** *** A revert that has a distance to cover *)

(** The frame that reaches the end of the duration puts the zone on the
    target and requests no further frame. *)
Lemma final_frame_reverts (a : Animation) (st : State) (now : num)
    (sx sy sz tx ty tz d e : R) :
  startPosition a = vec (Fin sx) (Fin sy) (Fin sz) ->
  dragStartPosition st = vec (Fin tx) (Fin ty) (Fin tz) ->
  duration a = Fin d -> 0 < d ->
  (now - startTime a)%js = Fin e -> d <= e ->
  animation_frame a now st
  = (update_mesh (anim_zone a)
       (set_position (vec (Fin tx) (Fin ty) (Fin tz))) st, false).
Proof.
  intros Hs Ht Hd Hpos He Hle. unfold animation_frame.
  rewrite Hs, Ht, Hd, He.
  assert (Hprog : Math.min (Fin e / Fin d)%js (Fin 1) = Fin 1).
  { cbn [JS.div].
    decide_real_tests.
    cbn [Math.min JS.ltb].
    destruct (Rlt_dec 1 (e / d)) as [Hlt|Hge].
    - replace (Rltb 1 (e / d)) with true
        by (symmetry; apply Rltb_true; exact Hlt).
      reflexivity.
    - replace (Rltb 1 (e / d)) with false
        by (symmetry; apply Rltb_false; lra).
      f_equal.
      assert (1 <= e / d).
      { apply Rmult_le_reg_r with d; [exact Hpos|].
        unfold Rdiv. rewrite Rmult_assoc, Rinv_l by lra. lra. }
      lra. }
  rewrite Hprog.
  assert (Hl : lerpVectors (vec (Fin sx) (Fin sy) (Fin sz))
                 (vec (Fin tx) (Fin ty) (Fin tz))
                 (Fin 1 - Math.pow (Fin 1 - Fin 1) 3)%js
               = vec (Fin tx) (Fin ty) (Fin tz)).
  { unfold lerpVectors. cbn. f_equal; f_equal; ring. }
  rewrite Hl. cbn [JS.ltb].
  decide_real_tests.
  reflexivity.
Qed.

(** The duration of a revert over a positive distance is positive. *)
Lemma duration_positive (dist : R) :
  0 < dist ->
  exists d, Math.min (Fin dist * Fin 200)%js (Fin 1000) = Fin d /\ 0 < d.
Proof.
  intro H. cbn [JS.mul Math.min JS.ltb].
  destruct (Rltb 1000 (dist * 200)); eexists; split; try reflexivity; lra.
Qed.

(** A frame that does not ask for another one has reached the end of the
    duration. *)
Lemma last_frame_is_final (e d : R) :
  0 < d ->
  (Math.min (Fin e / Fin d)%js (Fin 1) <? Fin 1)%js = false -> d <= e.
Proof.
  intros Hd. cbn [JS.div].
  decide_real_tests.
  cbn [Math.min JS.ltb].
  destruct (Rlt_dec 1 (e / d)) as [Hlt|Hge].
  - intros _.
    assert (1 * d < e / d * d) by (apply Rmult_lt_compat_r; lra).
    unfold Rdiv in *. rewrite Rmult_assoc, Rinv_l in * by lra. lra.
  - replace (Rltb 1 (e / d)) with false by (symmetry; apply Rltb_false; lra).
    cbn [JS.ltb]. rewrite Rltb_false. intro H.
    assert (1 * d <= e / d * d) by (apply Rmult_le_compat_r; lra).
    unfold Rdiv in *. rewrite Rmult_assoc, Rinv_l in * by lra. lra.
Qed.

(** What a run of the [animate] callback changes. *)
Lemma run_frame_spec (a : Animation) (now : num) (st : State) :
  exists (p : Vector3) (again : bool),
    animation_frame a now st
    = (update_mesh (anim_zone a) (set_position p) st, again)
    /\ meshes (run_frame a now st)
       = (fun j => if Nat.eqb j (anim_zone a)
                   then set_position p (meshes st j) else meshes st j)
    /\ animations (run_frame a now st)
       = (if again then animations st ++ [a] else animations st)
    /\ zones (run_frame a now st) = zones st
    /\ dragStartPosition (run_frame a now st) = dragStartPosition st.
Proof.
  unfold run_frame, animation_frame. do 2 eexists.
  split; [reflexivity|].
  destruct (_ <? _)%js; repeat split; reflexivity.
Qed.

(** The first frame of a revert over a positive distance. *)
Lemma animateZoneToPosition_spec (st : State) (sel : nat)
    (sx sy sz tx ty tz t0 t1 : R) :
  position (meshes st sel) = vec (Fin sx) (Fin sy) (Fin sz) ->
  dragStartPosition st = vec (Fin tx) (Fin ty) (Fin tz) ->
  0 < (sx - tx) * (sx - tx) + (sy - ty) * (sy - ty) + (sz - tz) * (sz - tz) ->
  let st' := animateZoneToPosition sel (Fin t0) (Fin t1) st in
  exists (d : R) (p : Vector3) (again : bool),
    0 < d <= 1000
    /\ meshes st'
       = (fun j => if Nat.eqb j sel
                   then set_position p (meshes st j) else meshes st j)
    /\ animations st'
       = (if again
          then animations st
               ++ [animation sel (vec (Fin sx) (Fin sy) (Fin sz)) (Fin d)
                             (Fin t0)]
          else animations st)
    /\ zones st' = zones st
    /\ dragStartPosition st' = dragStartPosition st
    /\ (again = false -> p = vec (Fin tx) (Fin ty) (Fin tz)).
Proof.
  intros Hp Ht Hdist. cbv zeta.
  assert (Hsqrt : 0 < sqrt ((sx - tx) * (sx - tx) + (sy - ty) * (sy - ty)
                            + (sz - tz) * (sz - tz)))
    by (apply sqrt_lt_R0; exact Hdist).
  destruct (duration_positive _ Hsqrt) as (d & Hd & Hdpos).
  assert (Hd1000 : d <= 1000).
  { revert Hd. cbn [JS.mul Math.min JS.ltb].
    destruct (Rltb 1000 _) eqn:Hc; intro Hd; injection Hd as <-;
      [lra|apply Rltb_false in Hc; lra]. }
  unfold animateZoneToPosition. rewrite Hp, Ht, distanceTo_Fin, Hd.
  set (a := animation sel (vec (Fin sx) (Fin sy) (Fin sz)) (Fin d) (Fin t0)).
  destruct (run_frame_spec a (Fin t1) st)
    as (p & again & Hfr & Hm & Ha & Hz & Hds).
  exists d, p, again.
  split; [lra|]. split; [exact Hm|]. split; [exact Ha|].
  split; [exact Hz|]. split; [rewrite Hds; exact Ht|].
  intros ->.
  assert (Hs : snd (animation_frame a (Fin t1) st) = false)
    by (rewrite Hfr; reflexivity).
  unfold animation_frame in Hs. cbn [snd startTime duration a JS.sub] in Hs.
  pose proof (last_frame_is_final (t1 - t0) d Hdpos Hs) as Hfin.
  rewrite (final_frame_reverts a st (Fin t1) sx sy sz tx ty tz d (t1 - t0)
             eq_refl Ht eq_refl Hdpos eq_refl Hfin) in Hfr.
  injection Hfr as Hfr.
  apply (f_equal (fun f => position (f sel))) in Hfr.
  cbn in Hfr. rewrite Nat.eqb_refl in Hfr. cbn in Hfr.
  symmetry. exact Hfr.
Qed.

(** The frame that ends the only pending revert. *)
Lemma onAnimationFrame_final (st : State) (a : Animation) (now : num)
    (sx sy sz tx ty tz d e : R) :
  animations st = [a] ->
  startPosition a = vec (Fin sx) (Fin sy) (Fin sz) ->
  dragStartPosition st = vec (Fin tx) (Fin ty) (Fin tz) ->
  duration a = Fin d -> 0 < d ->
  (now - startTime a)%js = Fin e -> d <= e ->
  let st' := onAnimationFrame 0 now st in
  meshes st'
  = (fun j => if Nat.eqb j (anim_zone a)
              then set_position (vec (Fin tx) (Fin ty) (Fin tz)) (meshes st j)
              else meshes st j)
  /\ animations st' = []
  /\ zones st' = zones st.
Proof.
  intros Ha Hs Ht Hd Hpos He Hle. cbv zeta.
  unfold onAnimationFrame. rewrite Ha.
  cbn [nth_error firstn skipn app]. unfold run_frame.
  rewrite (final_frame_reverts a (with_animations [] st) now sx sy sz
             tx ty tz d e Hs Ht Hd Hpos He Hle).
  repeat split; reflexivity.
Qed.

(** In the exact arithmetic of this model, a drag that is rejected away
    from where it started is reverted: once a frame runs at least one
    second (the longest duration) after the release, the zone is back on
    its pre-drag position, no other mesh has changed and no frame is
    pending. *)
Lemma rejected_drag_is_reverted (st : State) (sel : nat) (ctrlKey : bool)
    (sx sy sz tx ty tz t0 t1 t2 : R) :
  selectedZone st = Some sel -> isDragging st = true ->
  animations st = [] ->
  position (meshes st sel) = vec (Fin sx) (Fin sy) (Fin sz) ->
  dragStartPosition st = vec (Fin tx) (Fin ty) (Fin tz) ->
  0 < (sx - tx) * (sx - tx) + (sy - ty) * (sy - ty) + (sz - tz) * (sz - tz) ->
  isValidPlacement (JSString.parseFloat (value st "radius"))
    (x (position (meshes st sel))) (z (position (meshes st sel)))
  && negb (hasCollision (meshes st) sel (zones st)) = false ->
  t0 + 1000 <= t2 ->
  let st2 := onAnimationFrame 0 (Fin t2)
               (onPointerUp ctrlKey (Fin t0) (Fin t1) st) in
  position (meshes st2 sel) = vec (Fin tx) (Fin ty) (Fin tz)
  /\ (forall j, j <> sel -> meshes st2 j = meshes st j)
  /\ animations st2 = []
  /\ zones st2 = zones st.
Proof.
  intros Hsel Hdrag Hanim Hp Ht Hdist Hv Ht2. cbv zeta.
  destruct (onPointerUp_rejected st sel ctrlKey (Fin t0) (Fin t1)
              Hsel Hdrag Hv) as (Hm & Ha & Hz & Hds & _).
  destruct (animateZoneToPosition_spec st sel sx sy sz tx ty tz t0 t1
              Hp Ht Hdist)
    as (d & p & again & Hd & Hm' & Ha' & _ & _ & Hfinal).
  rewrite Hm' in Hm. rewrite Ha', Hanim in Ha.
  set (st1 := onPointerUp ctrlKey (Fin t0) (Fin t1) st) in *.
  destruct again.
  - cbn [app] in Ha.
    destruct (onAnimationFrame_final st1 _ (Fin t2) sx sy sz tx ty tz d
                (t2 - t0) Ha eq_refl (eq_trans Hds Ht) eq_refl
                (proj1 Hd) eq_refl) as (Hm2 & Ha2 & Hz2); [lra|].
    rewrite Hm2, Ha2, Hz2, Hm, Hz. cbn [anim_zone].
    rewrite Nat.eqb_refl. repeat split.
    intros j Hj. destruct (Nat.eqb_spec j sel); [contradiction|reflexivity].
  - rewrite (Hfinal eq_refl) in Hm.
    unfold onAnimationFrame. rewrite Ha. cbn [nth_error].
    rewrite Hm, Ha, Hz. rewrite Nat.eqb_refl. repeat split.
    intros j Hj. destruct (Nat.eqb_spec j sel); [contradiction|reflexivity].
Qed.

(** C3, at the failing input.  The zone of [zone_at_9_picked] stands out of
    bounds at [(9, 1, 0)].  It is picked up and released without a move,
    and both readings of the clock give the same time [t]: the release is
    found invalid, the revert has no distance to cover, and the position of
    the zone becomes [(NaN, NaN, NaN)], with no further frame requested. *)
Theorem revert_without_move_loses_position (t : R) :
  let st' := onPointerUp false (Fin t) (Fin t) zone_at_9_picked in
  position (meshes zone_at_9_picked 0) = vec (Fin 9) (Fin 1) (Fin 0)
  /\ dragStartPosition zone_at_9_picked = vec (Fin 9) (Fin 1) (Fin 0)
  /\ feedback st'
     = Some ("Invalid placement - zone returned to original position"
             %string, false)
  /\ position (meshes st' 0) = vec NaN NaN NaN
  /\ animations st' = []
  /\ layout_zones st' <> layout_zones zone_at_9_picked.
Proof.
  cbv zeta.
  assert (Hv : isValidPlacement
                 (JSString.parseFloat (value zone_at_9_picked "radius"))
                 (x (position (meshes zone_at_9_picked 0)))
                 (z (position (meshes zone_at_9_picked 0)))
               && negb (hasCollision (meshes zone_at_9_picked) 0
                          (zones zone_at_9_picked)) = false).
  { change (JSString.parseFloat (value zone_at_9_picked "radius"))
      with (JSString.parseFloat "10").
    change (position (meshes zone_at_9_picked 0))
      with (vec (Fin 9) (Fin 1) (Fin 0)).
    cbn [x z]. rewrite parseFloat_10, isValidPlacement_Fin.
    replace (Rltb _ _) with false; [reflexivity|].
    symmetry. apply Rltb_false. rewrite sqrt_81. lra. }
  destruct (onPointerUp_rejected zone_at_9_picked 0 false (Fin t) (Fin t)
              eq_refl eq_refl Hv) as (Hm & Ha & Hz & _ & Hf).
  rewrite (revert_in_place zone_at_9_picked 0 9 1 0 t eq_refl eq_refl)
    in Hm, Ha.
  split; [reflexivity|]. split; [reflexivity|]. split; [exact Hf|].
  split; [rewrite Hm; reflexivity|]. split; [rewrite Ha; reflexivity|].
  unfold layout_zones. rewrite Hm, Hz. cbn. intro H. discriminate.
Qed.

(** The bathroom zone of the layout loaded at start-up, at
    [(-5.92, 1.00, -6.11)] in a habitat of radius 10, is such a zone: it
    fails the boundary check where it stands. *)
Lemma start_up_bathroom_is_out_of_bounds :
  isValidPlacement (JSString.parseFloat "10") (JSString.parseFloat "-5.92")
    (JSString.parseFloat "-6.11") = false.
Proof.
  cbn -[isValidPlacement]. unfold JSString.signed.
  rewrite isValidPlacement_Fin. apply Rltb_false.
  apply sqrt_ge_sq; [nra|]. right. simpl. lra.
Qed.

(** ** Loading a layout document *)

Lemma prop_other (v : Value) (k k' : string) (w : Value) :
  prop v k = Some w -> prop v k' = Some (field v k').
Proof.
  unfold field. destruct v; cbn; intro H; try discriminate; reflexivity.
Qed.

Lemma field_of_prop (v : Value) (k : string) (w : Value) :
  prop v k = Some w -> field v k = w.
Proof. unfold field. intro H. rewrite H. reflexivity. Qed.

Lemma load_zone_spec (zoneData : Value) (st : State) :
  load_zone zoneData st
  = if loadable_zone zoneData
    then (addZone (doc_zone_type zoneData)
            (Some (doc_zone_position zoneData)) no_random st, Some tt)
    else (st, None).
Proof.
  unfold load_zone, loadable_zone, bind, throwing, modify.
  unfold doc_zone_type, doc_zone_position.
  destruct (prop zoneData "position") as [p|] eqn:Hp; [|reflexivity].
  rewrite (prop_other _ _ "type" _ Hp), (field_of_prop _ _ _ Hp).
  destruct (prop p "x") as [px|] eqn:Hx; [|reflexivity].
  rewrite (prop_other _ _ "y" _ Hx), (prop_other _ _ "z" _ Hx).
  rewrite (field_of_prop _ _ _ Hx). reflexivity.
Qed.

Lemma forEach_load_zone (items : list Value) (st : State) :
  forallb loadable_zone items = true ->
  forEach items load_zone st = (add_doc_zones items st, Some tt).
Proof.
  revert st. induction items as [|zd rest IH]; intros st H; [reflexivity|].
  cbn in H. apply andb_prop in H as [H1 H2].
  cbn [forEach]. unfold bind. rewrite load_zone_spec, H1.
  unfold add_doc_zones. cbn [fold_left]. apply IH, H2.
Qed.

Lemma add_doc_zones_spec (items : list Value) (st : State) :
  let st' := add_doc_zones items st in
  zones st' = zones st ++ seq (next_uuid st) (List.length items)
  /\ next_uuid st' = (next_uuid st + List.length items)%nat
  /\ (forall j, (j < next_uuid st)%nat -> meshes st' j = meshes st j)
  /\ map (meshes st') (seq (next_uuid st) (List.length items))
     = map doc_mesh items
  /\ value st' = value st
  /\ feedback st' = feedback st
  /\ showCrew st' = showCrew st.
Proof.
  cbv zeta. revert st.
  induction items as [|zd rest IH]; intro st.
  - cbn. rewrite app_nil_r, Nat.add_0_r. repeat split; reflexivity.
  - unfold add_doc_zones. cbn [fold_left].
    set (st1 := addZone _ _ _ st).
    destruct (IH st1) as (Hz & Hn & Hm & Hd & Hv & Hf & Hc).
    fold (add_doc_zones rest st1).
    change (next_uuid st1) with (S (next_uuid st)) in *.
    change (zones st1) with (zones st ++ [next_uuid st]) in Hz.
    repeat split.
    + rewrite Hz, <- app_assoc. reflexivity.
    + rewrite Hn. cbn. lia.
    + intros j Hj. rewrite Hm by lia. unfold st1, addZone. cbn.
      destruct (Nat.eqb_spec j (next_uuid st)); [lia|reflexivity].
    + cbn [List.length seq map]. rewrite Hd. f_equal.
      rewrite Hm by lia. unfold st1, addZone. cbn.
      rewrite Nat.eqb_refl. reflexivity.
    + rewrite Hv. reflexivity.
    + rewrite Hf. reflexivity.
    + rewrite Hc. reflexivity.
Qed.

Lemma loadLayout_reads_to_the_end
    (control_text : string -> Value -> string)
    (layout habitat shape crew : Value) (radius height : num)
    (items : list Value) (st : State) :
  prop layout "habitat" = Some habitat ->
  prop habitat "shape" = Some shape ->
  prop habitat "radius" = Some (VNum radius) ->
  prop habitat "height" = Some (VNum height) ->
  prop habitat "crew" = Some crew ->
  prop layout "zones" = Some (VArr items) ->
  forallb loadable_zone items = true ->
  loadLayout control_text layout st
  = (loaded control_text shape (VNum radius) (VNum height) crew items st,
     Some tt).
Proof.
  intros Hh Hs Hr Hhe Hc Hz Hl.
  unfold loadLayout, assign, bind, throwing, modify.
  rewrite Hh, Hs, Hr, Hhe, Hc. cbn [call_toFixed]. rewrite Hz.
  cbn [as_array]. rewrite forEach_load_zone by assumption. reflexivity.
Qed.

Lemma loaded_spec (control_text : string -> Value -> string)
    (shape radius height crew : Value) (items : list Value) (st : State) :
  let st' := loaded control_text shape radius height crew items st in
  zones st' = seq (next_uuid st) (List.length items)
  /\ layout_zones st' = map doc_mesh items
  /\ value st' "shape" = control_text "shape"%string shape
  /\ value st' "radius" = control_text "radius"%string radius
  /\ value st' "height" = control_text "height"%string height
  /\ value st' "crew" = control_text "crew"%string crew
  /\ feedback st' = Some ("Layout loaded!"%string, true).
Proof.
  cbv zeta. unfold loaded.
  set (st1 := set_control "crew" _ _).
  destruct (add_doc_zones_spec items st1) as (Hz & _ & _ & Hd & Hv & _).
  change (zones st1) with (@nil nat) in Hz.
  change (next_uuid st1) with (next_uuid st) in Hz, Hd.
  unfold layout_zones.
  change (zones (showFeedback "Layout loaded!" true
                   (add_doc_zones items st1)))
    with (zones (add_doc_zones items st1)).
  change (meshes (showFeedback "Layout loaded!" true
                    (add_doc_zones items st1)))
    with (meshes (add_doc_zones items st1)).
  change (value (showFeedback "Layout loaded!" true
                   (add_doc_zones items st1)))
    with (value (add_doc_zones items st1)).
  rewrite Hz, Hv. cbn [app]. rewrite Hd.
  repeat split; reflexivity.
Qed.


(** ** Imports that fail *)

Lemma keeps_bind (P : State -> Prop) {A B : Type} (m : M A) (k : A -> M B) :
  keeps P m -> (forall a, keeps P (k a)) -> keeps P (bind m k).
Proof.
  intros Hm Hk st HP. unfold bind. specialize (Hm st HP).
  destruct (m st) as [st' [a|]]; cbn in *; [apply Hk|]; assumption.
Qed.

Lemma keeps_throwing (P : State -> Prop) {A : Type} (o : option A) :
  keeps P (throwing o).
Proof. intros st HP. exact HP. Qed.

Lemma keeps_modify (P : State -> Prop) (f : State -> State) :
  (forall st, P st -> P (f st)) -> keeps P (modify f).
Proof. intros Hf st HP. apply Hf, HP. Qed.

Lemma keeps_forEach (P : State -> Prop) {A : Type} (items : list A)
    (body : A -> M unit) :
  (forall a, keeps P (body a)) -> keeps P (forEach items body).
Proof.
  intro Hb. induction items as [|a rest IH].
  - intros st HP. exact HP.
  - cbn [forEach]. apply keeps_bind; [apply Hb|intros _; exact IH].
Qed.

Lemma created_from_addZone (n : nat) (type : Value) (pos : option Vector3)
    (random : num * num) (st : State) :
  created_from n st -> created_from n (addZone type pos random st).
Proof.
  intros [Hn Hz]. split; cbn; [lia|].
  apply Forall_app. split; [assumption|]. constructor; [lia|constructor].
Qed.

Lemma keeps_load_zone (n : nat) (zoneData : Value) :
  keeps (created_from n) (load_zone zoneData).
Proof.
  unfold load_zone.
  repeat (apply keeps_bind; [apply keeps_throwing|intro]).
  apply keeps_modify. intros st. apply created_from_addZone.
Qed.

(** Whatever the document and whether loading throws or not, the zones left
    by [loadLayout] were all created during this call. *)
Lemma loadLayout_zones_created (control_text : string -> Value -> string)
    (layout : Value) (st : State) :
  created_from (next_uuid st) (fst (loadLayout control_text layout st)).
Proof.
  unfold loadLayout.
  change (bind (modify resetHabitat) ?k st) with (k tt (resetHabitat st)).
  assert (H0 : created_from (next_uuid st) (resetHabitat st))
    by (split; cbn; [lia|constructor]).
  revert H0. generalize (resetHabitat st) as st0.
  change (forall st0, created_from (next_uuid st) st0 ->
          created_from (next_uuid st) (fst (?m st0)))
    with (keeps (created_from (next_uuid st)) m).
  assert (Hassign : forall id v,
            keeps (created_from (next_uuid st)) (assign control_text id v)).
  { intros id v. apply keeps_modify. intros s Hs. exact Hs. }
  repeat first
    [ apply keeps_bind; [first [apply keeps_throwing|apply Hassign]|intro]
    | apply keeps_bind; [apply keeps_forEach; intro; apply keeps_load_zone
                        |intro] ].
  apply keeps_modify. intros s Hs. exact Hs.
Qed.

(** An import of the text [{}] into the layout of [zone_at_9]: the text is
    valid JSON, loading throws, the failure is reported, and the zone of
    the layout is gone. *)
Lemma failed_import_loses_zones :
  let st' := importFile sample_JSON_parse sample_control_text "{}" zone_at_9
  in
  snd (loadLayout sample_control_text (VObj []) zone_at_9) = None
  /\ feedback st' = Some ("Invalid JSON file!"%string, false)
  /\ List.length (layout_zones zone_at_9) = 1%nat
  /\ layout_zones st' = []
  /\ layout_zones st' <> layout_zones zone_at_9.
Proof.
  cbv zeta. repeat split. intro H. discriminate H.
Qed.

(** C6, amended.  A text that is not valid JSON is reported and leaves the
    state as it was, the message apart.  A document on which loading throws
    is reported with the same message, but the zone list was emptied before
    the document was read: every zone left was created during the import,
    so that none of the zones of the layout before the import remains. *)
Theorem failed_import_is_reported
    (JSON_parse : string -> option Value)
    (control_text : string -> Value -> string) (text : string) (st : State) :
  (JSON_parse text = None ->
   importFile JSON_parse control_text text st
   = showFeedback "Invalid JSON file!" false st)
  /\ (forall layout,
        JSON_parse text = Some layout ->
        snd (loadLayout control_text layout st) = None ->
        let st' := importFile JSON_parse control_text text st in
        feedback st' = Some ("Invalid JSON file!"%string, false)
        /\ (forall i, In i (zones st') -> (next_uuid st <= i)%nat)
        /\ (Forall (fun i => (i < next_uuid st)%nat) (zones st) ->
            forall i, In i (zones st) -> ~ In i (zones st'))).
Proof.
  split.
  - intro Hp. unfold importFile. rewrite Hp. reflexivity.
  - intros layout Hp Hthrow. cbv zeta.
    pose proof (loadLayout_zones_created control_text layout st) as [_ Hz].
    unfold importFile. rewrite Hp.
    destruct (loadLayout control_text layout st) as [st1 [u|]];
      [discriminate|]. cbn in Hz |- *.
    rewrite Forall_forall in Hz.
    split; [reflexivity|]. split; [exact Hz|].
    intros Hold i Hi Hi'. rewrite Forall_forall in Hold.
    specialize (Hold i Hi). specialize (Hz i Hi'). lia.
Qed.

(** ** Printing and reading decimals *)

Section Decimals.

Local Open Scope string_scope.
Local Open Scope N_scope.

Lemma digit_lt10_ind (P : N -> Prop) :
  P 0 -> P 1 -> P 2 -> P 3 -> P 4 -> P 5 -> P 6 -> P 7 -> P 8 -> P 9 ->
  forall d, d < 10 -> P d.
Proof.
  intros H0 H1 H2 H3 H4 H5 H6 H7 H8 H9 d Hd.
  rewrite <- (N2Nat.id d).
  assert (Hm : (N.to_nat d < 10)%nat) by lia.
  destruct (N.to_nat d) as [|[|[|[|[|[|[|[|[|[|m]]]]]]]]]];
    try assumption; lia.
Qed.

Lemma take_digits_digit (d : N) (s : string) (a : N) (c : nat) :
  d < 10 ->
  Str.take_digits (String (Str.digit d) s) a c
  = Str.take_digits s (10 * a + d) (S c).
Proof.
  intro Hd. revert s a c. pattern d.
  apply digit_lt10_ind; try assumption; reflexivity.
Qed.

Lemma head_digit (d : N) (s : string) :
  d < 10 ->
  Str.skip_space (String (Str.digit d) s) = String (Str.digit d) s
  /\ Str.take_sign (String (Str.digit d) s) = (false, String (Str.digit d) s)
  /\ String.prefix "Infinity" (String (Str.digit d) s) = false.
Proof.
  intro Hd. revert s. pattern d.
  apply digit_lt10_ind; try assumption; intro s; repeat split.
Qed.

Lemma dec_digits_S (f : nat) (n : N) (acc : string) :
  Str.dec_digits (S f) n acc
  = if n / 10 =? 0 then String (Str.digit (n mod 10)) acc
    else Str.dec_digits f (n / 10) (String (Str.digit (n mod 10)) acc).
Proof. reflexivity. Qed.

Lemma dec_digits_head (f : nat) (n : N) (acc : string) :
  exists d s, d < 10 /\ Str.dec_digits (S f) n acc = String (Str.digit d) s.
Proof.
  revert n acc. induction f as [|f IH]; intros n acc.
  - exists (n mod 10), acc. split; [apply N.mod_lt; lia|].
    cbn. destruct (n / 10 =? 0); reflexivity.
  - cbn [Str.dec_digits]. destruct (n / 10 =? 0).
    + exists (n mod 10), acc. split; [apply N.mod_lt; lia|reflexivity].
    + apply IH.
Qed.

Lemma dec_digits_app (f : nat) (n : N) (acc rest : string) :
  Str.dec_digits f n acc ++ rest = Str.dec_digits f n (acc ++ rest).
Proof.
  revert n acc. induction f as [|f IH]; intros n acc; [reflexivity|].
  cbn [Str.dec_digits]. destruct (n / 10 =? 0); [reflexivity|].
  rewrite IH. reflexivity.
Qed.

(** Reading back the digits printed for [n]. *)
Lemma take_digits_dec_digits (f : nat) (n : N) (acc : string) (a : N)
    (c : nat) :
  n < 10 ^ N.of_nat (S f) ->
  exists k : nat,
    (0 < k)%nat
    /\ Str.take_digits (Str.dec_digits (S f) n acc) a c
       = Str.take_digits acc (a * 10 ^ N.of_nat k + n) (c + k).
Proof.
  revert n acc a c. induction f as [|f IH]; intros n acc a c Hn.
  - exists 1%nat. split; [lia|].
    assert (n / 10 = 0) as H0 by (apply N.div_small; exact Hn).
    cbn [Str.dec_digits]. rewrite H0. cbn [N.eqb].
    rewrite take_digits_digit by (apply N.mod_lt; lia).
    rewrite N.mod_small by exact Hn.
    f_equal; [|lia]. change (10 ^ N.of_nat 1) with 10. lia.
  - rewrite dec_digits_S. destruct (N.eqb_spec (n / 10) 0) as [H0|H0].
    + exists 1%nat. split; [lia|].
      rewrite take_digits_digit by (apply N.mod_lt; lia).
      assert (n < 10) as Hlt.
      { apply N.div_small_iff in H0; [exact H0|lia]. }
      rewrite N.mod_small by exact Hlt.
      f_equal; [|lia]. change (10 ^ N.of_nat 1) with 10. lia.
    + assert (n / 10 < 10 ^ N.of_nat (S f)) as Hdiv.
      { apply N.Div0.div_lt_upper_bound.
        replace (N.of_nat (S (S f))) with (N.succ (N.of_nat (S f))) in Hn
          by lia.
        rewrite N.pow_succ_r' in Hn. exact Hn. }
      destruct (IH (n / 10) (String (Str.digit (n mod 10)) acc) a c Hdiv)
        as (k & Hk & Heq).
      exists (S k). split; [lia|]. rewrite Heq.
      rewrite take_digits_digit by (apply N.mod_lt; lia).
      f_equal; [|lia].
      replace (N.of_nat (S k)) with (N.succ (N.of_nat k)) by lia.
      rewrite N.pow_succ_r'.
      pose proof (N.div_mod n 10) as Hdm. lia.
Qed.

Lemma string_of_N_fuel (n : N) :
  n < 10 ^ N.of_nat (S (N.to_nat (N.log2 n))).
Proof.
  replace (N.of_nat (S (N.to_nat (N.log2 n)))) with (N.succ (N.log2 n))
    by lia.
  apply N.lt_le_trans with (2 ^ N.succ (N.log2 n)).
  - destruct n as [|p]; [reflexivity|]. apply N.log2_spec. lia.
  - apply N.pow_le_mono_l. lia.
Qed.

(** Reading back [f] padded digits. *)
Lemma take_digits_fixed_digits (f : nat) (b : N) (acc : string) (a : N)
    (c : nat) :
  Str.take_digits (Str.fixed_digits f b acc) a c
  = Str.take_digits acc (a * 10 ^ N.of_nat f + b mod 10 ^ N.of_nat f)
                    (c + f).
Proof.
  revert b acc a c. induction f as [|f IH]; intros b acc a c.
  - cbn [Str.fixed_digits]. change (10 ^ N.of_nat 0) with 1.
    rewrite N.mod_1_r. f_equal; lia.
  - cbn [Str.fixed_digits]. rewrite IH.
    rewrite take_digits_digit by (apply N.mod_lt; lia).
    f_equal; [|lia].
    replace (N.of_nat (S f)) with (N.succ (N.of_nat f)) by lia.
    rewrite N.pow_succ_r'.
    rewrite (N.Div0.mod_mul_r b 10 (10 ^ N.of_nat f)). lia.
Qed.

End Decimals.

(** Reading back a numeral with two decimals as [toFixed] prints it. *)
Lemma parseFloat_printed (neg : bool) (F : nat) (ip fp : N) :
  (ip < 10 ^ N.of_nat (S F))%N ->
  JSString.parseFloat
    ((if neg then "-" else "") ++ Str.dec_digits (S F) ip ""
     ++ "." ++ Str.fixed_digits 2 fp "")%string
  = Fin (JSString.signed neg
           (IZR (Z.of_N ip) + IZR (Z.of_N (fp mod 100)) / 100)).
Proof.
  intro Hip. rewrite dec_digits_app.
  change ("" ++ "." ++ Str.fixed_digits 2 fp "")%string
    with (String "." (Str.fixed_digits 2 fp "")).
  destruct (dec_digits_head F ip (String "." (Str.fixed_digits 2 fp "")))
    as (d & s & Hd & Hhead).
  destruct (take_digits_dec_digits F ip
              (String "." (Str.fixed_digits 2 fp "")) 0 0 Hip)
    as (k & Hk & Htd).
  destruct (head_digit d s Hd) as (Hsp & Hsg & Hpre).
  remember (Str.dec_digits (S F) ip (String "." (Str.fixed_digits 2 fp "")))
    as X eqn:HX.
  assert (Hparse :
            JSString.parseFloat ((if neg then "-" else "") ++ X)%string
            = let '(ip', ni, s2) := Str.take_digits X 0 0 in
              let '(fp', nf, s3) :=
                match s2 with
                | String "." s2' => Str.take_digits s2' 0 0
                | _ => (0%N, O, s2)
                end in
              match ni, nf with
              | O, O => NaN
              | _, _ =>
                  let m := IZR (Z.of_N ip') + IZR (Z.of_N fp') / 10 ^ nf in
                  let '(eneg, e) := Str.take_exponent s3 in
                  let p := 10 ^ N.to_nat e in
                  Fin (JSString.signed neg (if eneg then m / p else m * p))
              end).
  { unfold JSString.parseFloat.
    destruct neg.
    - change ("-" ++ X)%string with (String "-" X).
      change (Str.skip_space (String "-" X)) with (String "-" X).
      change (Str.take_sign (String "-" X)) with (true, X).
      cbv iota beta. rewrite Hhead at 1. rewrite Hpre. reflexivity.
    - change ("" ++ X)%string with X.
      rewrite Hhead at 1 2. rewrite Hsp, Hsg. cbv iota beta.
      rewrite Hpre, <- Hhead. reflexivity. }
  rewrite Hparse, Htd.
  change (Str.take_digits (String "." (Str.fixed_digits 2 fp ""))
            (0 * 10 ^ N.of_nat k + ip) (0 + k))
    with (0 * 10 ^ N.of_nat k + ip, (0 + k)%nat,
          String "." (Str.fixed_digits 2 fp ""))%N.
  cbv iota beta. rewrite take_digits_fixed_digits.
  change (Str.take_digits "" ?a ?c) with (a, c, ""%string).
  cbv iota beta.
  destruct k as [|k]; [lia|]. cbn [Nat.add].
  change (Str.take_exponent "") with (false, 0%N). cbv iota beta zeta.
  replace (0 * 10 ^ N.of_nat (S k) + ip)%N with ip by lia.
  replace (0 * 10 ^ N.of_nat 2 + fp mod 10 ^ N.of_nat 2)%N
    with (fp mod 100)%N by reflexivity.
  f_equal. f_equal. simpl. lra.
Qed.

(** What [toFixed(2)] prints is read back by [parseFloat] as the number
    rounded to 2 decimal places. *)
Lemma parseFloat_toFixed_2 (n : num) :
  JSString.parseFloat (JSString.toFixed 2 n) = round_to_2_decimals n.
Proof.
  destruct n as [r| | |]; try reflexivity.
  unfold JSString.toFixed, round_to_2_decimals, Str.string_of_N.
  replace (Rabs r * 10 ^ 2)%R with (Rabs r * 100)%R by (simpl; ring).
  set (zf := Zfloor (Rabs r * 100 + / 2)).
  assert (Hz : (0 <= zf)%Z).
  { apply (Zfloor_lub 0). pose proof (Rabs_pos r). lra. }
  change (10 ^ N.of_nat 2)%N with 100%N.
  set (n := Z.to_N zf).
  rewrite (parseFloat_printed (Rltb r 0) _ (n / 100) (n mod 100))
    by apply string_of_N_fuel.
  f_equal. f_equal.
  rewrite N.Div0.mod_mod.
  assert (Hn : Z.of_N n = (100 * Z.of_N (n / 100) + Z.of_N (n mod 100))%Z).
  { pose proof (N.div_mod n 100) as Hdm. lia. }
  assert (Hzf : zf = Z.of_N n) by (unfold n; rewrite Z2N.id; auto).
  rewrite Hzf, Hn, plus_IZR, mult_IZR. lra.
Qed.

(** The rounded number is a multiple of 0.01 at most 0.005 away. *)
Lemma round_to_2_decimals_nearest (r : R) :
  exists k : Z,
    round_to_2_decimals (Fin r) = Fin (IZR k / 100)
    /\ Rabs (IZR k / 100 - r) <= / 200.
Proof.
  unfold round_to_2_decimals.
  pose proof (Zfloor_bound (Rabs r * 100 + / 2)) as [H1 H2].
  remember (Zfloor (Rabs r * 100 + / 2)) as zf eqn:Hzf. clear Hzf.
  destruct (Rlt_dec r 0) as [Hneg|Hpos].
  - exists (- zf)%Z.
    replace (Rltb r 0) with true by (symmetry; apply Rltb_true; exact Hneg).
    cbn [JSString.signed]. rewrite opp_IZR.
    split; [f_equal; lra|].
    rewrite Rabs_left in H1, H2 by exact Hneg. apply Rabs_le. lra.
  - exists zf.
    replace (Rltb r 0) with false by (symmetry; apply Rltb_false; lra).
    cbn [JSString.signed]. split; [reflexivity|].
    rewrite Rabs_pos_eq in H1, H2 by lra. apply Rabs_le. lra.
Qed.

(** ** Export followed by import *)

Lemma exported_zone_loads (m : Mesh) :
  let item := match export_zone m with
              | VUndefined => VNull
              | v => JSON_clone v
              end in
  loadable_zone item = true
  /\ doc_mesh item
     = mesh (JSON_clone (userData_type m)) (round_position (position m))
            zero3 one3 box_2_2_2.
Proof.
  cbv zeta. unfold export_zone, doc_mesh, round_position.
  unfold doc_zone_type, doc_zone_position.
  rewrite <- !parseFloat_toFixed_2.
  destruct (userData_type m); split; reflexivity.
Qed.

Lemma JSON_clone_exported (shape : string) (radius height crew : R)
    (ms : list Mesh) :
  JSON_clone
    (VObj [("habitat"%string,
            VObj [("shape"%string, VStr shape);
                  ("radius"%string, VNum (Fin radius));
                  ("height"%string, VNum (Fin height));
                  ("crew"%string, VNum (Fin crew))]);
           ("zones"%string, VArr (map export_zone ms))])
  = VObj [("habitat"%string,
           VObj [("shape"%string, VStr shape);
                 ("radius"%string, VNum (Fin radius));
                 ("height"%string, VNum (Fin height));
                 ("crew"%string, VNum (Fin crew))]);
          ("zones"%string,
           VArr (map (fun i => match i with
                               | VUndefined => VNull
                               | v => JSON_clone v
                               end) (map export_zone ms)))].
Proof. reflexivity. Qed.

(** C4.  Let the habitat controls hold numbers, and let the controls keep
    the shape, radius, height and crew assigned to them.  Then the
    document exported from a layout, as it comes back from the JSON text,
    is imported without an error into any state, and afterwards the shape,
    radius, height and crew read as before, there are as many zones, in the
    same order, with the types JSON keeps of their types (a string stays as
    it is), and the position of each zone is the exported position with
    every coordinate rounded to 2 decimal places. *)
Theorem export_import_round_trip
    (control_text : string -> Value -> string) (st st0 : State)
    (r h c : R) :
  JSString.parseFloat (value st "radius") = Fin r ->
  JSString.parseFloat (value st "height") = Fin h ->
  JSString.parseInt (value st "crew") = Fin c ->
  control_text "shape"%string (VStr (value st "shape")) = value st "shape" ->
  JSString.parseFloat (control_text "radius"%string (VNum (Fin r))) = Fin r ->
  JSString.parseFloat (control_text "height"%string (VNum (Fin h))) = Fin h ->
  JSString.parseInt (control_text "crew"%string (VNum (Fin c))) = Fin c ->
  let document := JSON_clone (fst (exportLayout st)) in
  exists st',
    loadLayout control_text document st0 = (st', Some tt)
    /\ value st' "shape" = value st "shape"
    /\ JSString.parseFloat (value st' "radius") = Fin r
    /\ JSString.parseFloat (value st' "height") = Fin h
    /\ JSString.parseInt (value st' "crew") = Fin c
    /\ List.length (zones st') = List.length (zones st)
    /\ map userData_type (layout_zones st')
       = map (fun m => JSON_clone (userData_type m)) (layout_zones st)
    /\ (Forall (fun m => exists s, userData_type m = VStr s)
          (layout_zones st) ->
        map userData_type (layout_zones st')
        = map userData_type (layout_zones st))
    /\ map position (layout_zones st')
       = map (fun m => round_position (position m)) (layout_zones st).
Proof.
  intros Hr Hh Hc Hks Hkr Hkh Hkc. cbv zeta.
  unfold exportLayout. cbn [fst]. rewrite Hr, Hh, Hc.
  rewrite JSON_clone_exported.
  set (items := map _ (map export_zone (layout_zones st))).
  set (habitat := VObj [("shape"%string, VStr (value st "shape"));
                        ("radius"%string, VNum (Fin r));
                        ("height"%string, VNum (Fin h));
                        ("crew"%string, VNum (Fin c))]).
  assert (Hload : forallb loadable_zone items = true).
  { unfold items. rewrite map_map. apply forallb_forall.
    intros v Hv. apply in_map_iff in Hv as (m & <- & _).
    apply (exported_zone_loads m). }
  assert (Hmesh : map doc_mesh items
                  = map (fun m => mesh (JSON_clone (userData_type m))
                                       (round_position (position m))
                                       zero3 one3 box_2_2_2)
                        (layout_zones st)).
  { unfold items. rewrite !map_map. apply map_ext.
    intro m. apply (exported_zone_loads m). }
  eexists. split.
  { apply (loadLayout_reads_to_the_end control_text _ habitat
             (VStr (value st "shape")) (VNum (Fin c)) (Fin r) (Fin h) items);
      try reflexivity. exact Hload. }
  destruct (loaded_spec control_text (VStr (value st "shape"))
              (VNum (Fin r)) (VNum (Fin h)) (VNum (Fin c)) items st0)
    as (Hzs & Hlz & Hvs & Hvr & Hvh & Hvc & _).
  rewrite Hvs, Hvr, Hvh, Hvc, Hlz, Hzs, Hmesh.
  split; [exact Hks|]. split; [exact Hkr|]. split; [exact Hkh|].
  split; [exact Hkc|].
  split.
  { rewrite length_seq. unfold items. rewrite !length_map.
    unfold layout_zones. apply length_map. }
  rewrite !map_map. cbn [userData_type position].
  split; [reflexivity|]. split; [|reflexivity].
  intro Hstr. apply map_ext_in. intros m Hm.
  rewrite Forall_forall in Hstr. destruct (Hstr m Hm) as [s ->]. reflexivity.
Qed.

(** ** The statements above at sample inputs *)

Lemma sample_control_text_radius :
  JSString.parseFloat (sample_control_text "radius" (VNum (Fin 10)))
  = Fin 10.
Proof.
  unfold sample_control_text.
  decide_real_tests.
  exact parseFloat_10.
Qed.

Lemma sample_control_text_height :
  JSString.parseFloat (sample_control_text "height" (VNum (Fin 15)))
  = Fin 15.
Proof.
  unfold sample_control_text.
  decide_real_tests.
  exact parseFloat_15.
Qed.

Lemma sample_control_text_crew :
  JSString.parseInt (sample_control_text "crew" (VNum (Fin 8))) = Fin 8.
Proof.
  unfold sample_control_text.
  decide_real_tests.
  exact parseInt_8.
Qed.

Lemma drag_commits_snapped_position_witness :
  exists nx nz : Z,
    position
      (meshes
         (onPointerMove (Some (vec (Fin (47 / 5)) (Fin 0) (Fin (1 / 5))))
            zone_at_9_picked) 0)
    = vec (Fin (IZR nx)) (Fin 1) (Fin (IZR nz))
    /\ Rabs (47 / 5 - IZR nx) <= / 2
    /\ Rabs (1 / 5 - IZR nz) <= / 2.
Proof.
  destruct (drag_commits_snapped_position zone_at_9_picked 0 (47 / 5)
              (1 / 5) (Fin 0) eq_refl eq_refl eq_refl)
    as (_ & nx & nz & H1 & H2 & H3 & _).
  exists nx, nz. split; [exact H1|]. split; [exact H2|exact H3].
Defined.

Lemma habitat_volume_formulas_witness :
  volume (updateInfo (initial_state dome_controls))
  = Fin (2 / 3 * PI * 10 ^ 3).
Proof.
  exact (proj1 (habitat_volume_formulas (initial_state dome_controls) 10 15
                  (Fin 8) parseFloat_10 parseFloat_15 parseInt_8)
               eq_refl).
Defined.

Lemma duplicateZone_adds_one_zone_witness :
  zones (duplicateZone 0 zone_at_9) = [0; 1]%nat.
Proof.
  exact (proj1 (duplicateZone_adds_one_zone zone_at_9 0 (le_n 1))).
Defined.

Lemma validation_gates_only_the_drop_witness :
  position (meshes (updateZonePosition editor_with_far_position) 0)
  = vec (JSString.parseFloat "100") (JSString.parseFloat "1")
        (JSString.parseFloat "0").
Proof.
  exact (proj1 validation_gates_only_the_drop editor_with_far_position
               0%nat eq_refl).
Defined.


Lemma failed_import_is_reported_witness :
  importFile sample_JSON_parse sample_control_text "not json" zone_at_9
  = showFeedback "Invalid JSON file!" false zone_at_9
  /\ (forall i,
        In i (zones (importFile sample_JSON_parse sample_control_text "{}"
                       zone_at_9)) ->
        (1 <= i)%nat).
Proof.
  destruct (failed_import_is_reported sample_JSON_parse sample_control_text
              "not json" zone_at_9) as [Ha _].
  destruct (failed_import_is_reported sample_JSON_parse sample_control_text
              "{}" zone_at_9) as [_ Hb].
  split; [exact (Ha eq_refl)|].
  exact (proj1 (proj2 (Hb (VObj []) eq_refl eq_refl))).
Defined.

Lemma export_import_round_trip_witness :
  exists st',
    loadLayout sample_control_text (JSON_clone (fst (exportLayout zone_at_9)))
      (initial_state dome_controls) = (st', Some tt)
    /\ List.length (zones st') = 1%nat
    /\ map position (layout_zones st')
       = [round_position (vec (Fin 9) (Fin 1) (Fin 0))].
Proof.
  destruct (export_import_round_trip sample_control_text zone_at_9
              (initial_state dome_controls) 10 15 8
              parseFloat_10 parseFloat_15 parseInt_8 eq_refl
              sample_control_text_radius sample_control_text_height
              sample_control_text_crew)
    as (st' & Hl & _ & _ & _ & _ & Hn & _ & _ & Hp).
  exists st'. split; [exact Hl|]. split; [exact Hn|exact Hp].
Defined.

(** * Further properties *)

(** ** Removing zones *)

Lemma with_zones_same (st : State) : with_zones (zones st) st = st.
Proof. destruct st; reflexivity. Qed.

Lemma remove_first_absent (id : nat) (zs : list nat) :
  ~ In id zs -> remove_first id zs = zs.
Proof.
  induction zs as [|i rest IH]; intro H; [reflexivity|].
  cbn [remove_first]. destruct (Nat.eqb_spec i id) as [->|Hne].
  - exfalso. apply H. now left.
  - f_equal. apply IH. intro Hin. apply H. now right.
Qed.

(** [remove_first] takes out the first occurrence and nothing else. *)
Lemma remove_first_split (id : nat) (zs : list nat) :
  In id zs ->
  exists before after,
    zs = before ++ id :: after /\ ~ In id before
    /\ remove_first id zs = before ++ after.
Proof.
  induction zs as [|i rest IH]; intro H; [destruct H|].
  cbn [remove_first]. destruct (Nat.eqb_spec i id) as [->|Hne].
  - exists [], rest. repeat split. intros [].
  - destruct H as [H|H]; [contradiction|].
    destruct (IH H) as (before & after & Hz & Hb & Hr).
    exists (i :: before), after. rewrite Hz at 1. rewrite Hr.
    repeat split. intros [Hi|Hi]; [contradiction|auto].
Qed.

Lemma remove_first_In (id i : nat) (zs : list nat) :
  In i (remove_first id zs) -> In i zs.
Proof.
  induction zs as [|j rest IH]; [intros []|].
  cbn [remove_first]. destruct (Nat.eqb_spec j id) as [->|Hne].
  - intro H. now right.
  - intros [H|H]; [now left|right; auto].
Qed.

Lemma remove_first_other (id i : nat) (zs : list nat) :
  i <> id -> In i zs -> In i (remove_first id zs).
Proof.
  intro Hne. induction zs as [|j rest IH]; [intros []|].
  cbn [remove_first]. destruct (Nat.eqb_spec j id) as [->|Hj].
  - intros [H|H]; [congruence|exact H].
  - intros [H|H]; [now left|right; auto].
Qed.

Lemma remove_first_NoDup (id : nat) (zs : list nat) :
  NoDup zs -> NoDup (remove_first id zs) /\ ~ In id (remove_first id zs).
Proof.
  induction 1 as [|i rest Hi Hnd [IH1 IH2]]; [split; [constructor|intros []]|].
  cbn [remove_first]. destruct (Nat.eqb_spec i id) as [->|Hne].
  - split; assumption.
  - split.
    + constructor; [|exact IH1]. intro H. apply Hi.
      now apply remove_first_In in H.
    + intros [H|H]; [contradiction|auto].
Qed.

Lemma remove_first_filter (id : nat) (zs : list nat) :
  NoDup zs ->
  remove_first id zs = filter (fun i => negb (Nat.eqb i id)) zs.
Proof.
  induction 1 as [|i rest Hi Hnd IH]; [reflexivity|].
  cbn [remove_first filter]. destruct (Nat.eqb_spec i id) as [->|Hne].
  - cbn [negb]. rewrite <- IH. symmetry. now apply remove_first_absent.
  - cbn [negb]. f_equal. exact IH.
Qed.

Lemma remove_first_Forall (P : nat -> Prop) (id : nat) (zs : list nat) :
  Forall P zs -> Forall P (remove_first id zs).
Proof.
  intro H. apply Forall_forall. intros i Hi.
  rewrite Forall_forall in H. apply H. now apply remove_first_In in Hi.
Qed.

Lemma remove_first_last (n : nat) (zs : list nat) :
  ~ In n zs -> remove_first n (zs ++ [n]) = zs.
Proof.
  induction zs as [|i rest IH]; intro H; cbn.
  - rewrite Nat.eqb_refl. reflexivity.
  - destruct (Nat.eqb_spec i n) as [->|Hne].
    + exfalso. apply H. now left.
    + f_equal. apply IH. intro Hin. apply H. now right.
Qed.

(** X1.  [removeZone(id)] takes the first zone with that id out of the list,
    the zones before and after it keeping their order, and changes nothing
    when no zone has the id; no mesh is changed. When the identities of the
    list are distinct, the id is not in the list afterwards. *)
Theorem removeZone_takes_out_that_zone (id : nat) (st : State) :
  let st' := removeZone id st in
  (~ In id (zones st) -> st' = st)
  /\ (In id (zones st) ->
      exists before after,
        zones st = before ++ id :: after /\ ~ In id before
        /\ zones st' = before ++ after)
  /\ (In id (zones st) ->
      S (List.length (zones st')) = List.length (zones st))
  /\ (forall i, i <> id -> (In i (zones st') <-> In i (zones st)))
  /\ (NoDup (zones st) -> NoDup (zones st') /\ ~ In id (zones st'))
  /\ meshes st' = meshes st.
Proof.
  cbv zeta. unfold removeZone. cbn [zones with_zones meshes].
  split; [|split; [|split; [|split; [|split]]]].
  - intro H. rewrite remove_first_absent by exact H. apply with_zones_same.
  - apply remove_first_split.
  - intro H. destruct (remove_first_split id (zones st) H)
      as (before & after & Hz & _ & Hr).
    rewrite Hr, Hz, !length_app. cbn. lia.
  - intros i Hne. split; [apply remove_first_In|now apply remove_first_other].
  - apply remove_first_NoDup.
  - reflexivity.
Qed.

Lemma removeZone_takes_out_that_zone_witness :
  S (List.length (zones (removeZone 0 two_apart)))
  = List.length (zones two_apart)
  /\ removeZone 7 two_apart = two_apart.
Proof.
  destruct (removeZone_takes_out_that_zone 0 two_apart) as (_ & _ & H & _).
  destruct (removeZone_takes_out_that_zone 7 two_apart) as (H7 & _).
  split.
  - apply H. now left.
  - apply H7. cbn. intros [H0|[H0|[]]]; discriminate.
Defined.

(** X2.  Removing the zone that was just added, or the copy just made by
    [duplicateZone], gives back the zone list as it was, and the meshes of
    the zones that were there are unchanged. *)
Theorem removeZone_undoes_addZone (type : Value) (pos : option Vector3)
    (random : num * num) (zone : nat) (st : State) :
  Forall (fun i => (i < next_uuid st)%nat) (zones st) ->
  let new := next_uuid st in
  let st1 := removeZone new (addZone type pos random st) in
  let st2 := removeZone new (duplicateZone zone st) in
  zones st1 = zones st
  /\ zones st2 = zones st
  /\ (forall j, (j < next_uuid st)%nat ->
      meshes st1 j = meshes st j /\ meshes st2 j = meshes st j).
Proof.
  intro Hold. cbv zeta.
  assert (Hnew : ~ In (next_uuid st) (zones st)).
  { intro H. rewrite Forall_forall in Hold. specialize (Hold _ H). lia. }
  assert (Hrm : remove_first (next_uuid st) (zones st ++ [next_uuid st])
                = zones st).
  { apply remove_first_last, Hnew. }
  split; [exact Hrm|]. split; [exact Hrm|].
  intros j Hj. unfold removeZone, duplicateZone, addZone. cbn.
  destruct (Nat.eqb_spec j (next_uuid st)); [lia|]. split; reflexivity.
Qed.

Lemma removeZone_undoes_addZone_witness :
  zones (removeZone 1 (duplicateZone 0 zone_at_9)) = zones zone_at_9.
Proof.
  refine (proj1 (proj2 (removeZone_undoes_addZone VNull None no_random 0
                          zone_at_9 _))).
  repeat constructor.
Defined.

(** ** The Delete key *)

Lemma fold_removeZone (sel : list nat) (st : State) :
  fold_left (fun s zone => removeZone zone s) sel st
  = with_zones
      (fold_left (fun zs zone => remove_first zone zs) sel (zones st)) st.
Proof.
  revert st. induction sel as [|a sel IH]; intro st; cbn [fold_left].
  - symmetry. apply with_zones_same.
  - rewrite IH. reflexivity.
Qed.

Lemma fold_remove_first_NoDup (sel zs : list nat) :
  NoDup zs ->
  NoDup (fold_left (fun zs zone => remove_first zone zs) sel zs).
Proof.
  revert zs. induction sel as [|a sel IH]; intros zs H; cbn [fold_left].
  - exact H.
  - apply IH. now apply remove_first_NoDup.
Qed.

Lemma fold_remove_first_Forall (P : nat -> Prop) (sel zs : list nat) :
  Forall P zs ->
  Forall P (fold_left (fun zs zone => remove_first zone zs) sel zs).
Proof.
  revert zs. induction sel as [|a sel IH]; intros zs H; cbn [fold_left].
  - exact H.
  - apply IH. now apply remove_first_Forall.
Qed.

Lemma filter_twice {A : Type} (p q : A -> bool) (l : list A) :
  filter q (filter p l) = filter (fun a => p a && q a) l.
Proof.
  induction l as [|a l IH]; [reflexivity|].
  cbn [filter]. destruct (p a); cbn [andb filter]; rewrite IH; reflexivity.
Qed.

Lemma filter_all {A : Type} (l : list A) : filter (fun _ => true) l = l.
Proof. induction l as [|a l IH]; [reflexivity|]. cbn. now rewrite IH. Qed.

Lemma fold_remove_first_filter (sel zs : list nat) :
  NoDup zs ->
  fold_left (fun zs zone => remove_first zone zs) sel zs
  = filter (fun i => negb (existsb (Nat.eqb i) sel)) zs.
Proof.
  revert zs. induction sel as [|a sel IH]; intros zs H; cbn [fold_left].
  - cbn [existsb negb]. symmetry. apply filter_all.
  - rewrite IH by (now apply remove_first_NoDup).
    rewrite remove_first_filter by exact H. rewrite filter_twice.
    apply filter_ext. intro i. cbn [existsb].
    rewrite negb_orb. reflexivity.
Qed.

(** X3.  The Delete key and the Backspace key take every selected zone out
    of the zone list, the other zones keeping their order, and empty the
    selection. They leave [selectedZone], the zone clicked last, and a drag
    in progress as they are, and change no mesh. *)
Theorem delete_key_removes_the_selection (code : string) (now0 now1 : num)
    (clock : list num) (st : State) :
  code = "Delete"%string \/ code = "Backspace"%string ->
  NoDup (zones st) ->
  let st' := onKeyDown code now0 now1 clock st in
  zones st'
  = filter (fun i => negb (existsb (Nat.eqb i) (selectedZones st))) (zones st)
  /\ (forall i, In i (selectedZones st) -> ~ In i (zones st'))
  /\ (forall i, ~ In i (selectedZones st) -> In i (zones st) ->
      In i (zones st'))
  /\ selectedZones st' = []
  /\ selectedZone st' = selectedZone st
  /\ isDragging st' = isDragging st
  /\ meshes st' = meshes st.
Proof.
  intros Hcode Hnd. cbv zeta.
  assert (Hkey : onKeyDown code now0 now1 clock st
                 = match selectedZones st with
                   | [] => st
                   | _ :: _ =>
                       let st1 := remove_selected st in
                       showFeedback "Selected zones deleted" true
                         (state (meshes st1) (next_uuid st1) (zones st1)
                                (selectedZone st1) [] (multiSelectMode st1)
                                (isDragging st1) (dragStartPosition st1)
                                (snapToGrid st1) (showCrew st1)
                                (currentEditingZone st1) (value st1)
                                (feedback st1) (animations st1)
                                (pendingDeselect st1))
                   end).
  { destruct Hcode as [-> | ->]; reflexivity. }
  assert (Hz : zones (onKeyDown code now0 now1 clock st)
               = filter (fun i => negb (existsb (Nat.eqb i) (selectedZones st)))
                        (zones st)).
  { rewrite Hkey. destruct (selectedZones st) as [|a sel] eqn:Hsel.
    - cbn [existsb negb]. symmetry. apply filter_all.
    - cbv zeta. unfold remove_selected. rewrite fold_removeZone, Hsel.
      cbn [zones showFeedback with_zones].
      apply fold_remove_first_filter, Hnd. }
  split; [exact Hz|]. split; [|split].
  - intros i Hi. rewrite Hz, filter_In. intros [_ H].
    apply negb_true_iff in H.
    assert (existsb (Nat.eqb i) (selectedZones st) = true) as H1.
    { apply existsb_exists. exists i. split; [exact Hi|apply Nat.eqb_refl]. }
    congruence.
  - intros i Hi Hin. rewrite Hz, filter_In. split; [exact Hin|].
    apply negb_true_iff.
    destruct (existsb (Nat.eqb i) (selectedZones st)) eqn:He; [|reflexivity].
    apply existsb_exists in He as (j & Hj & Heq).
    apply Nat.eqb_eq in Heq. subst j. contradiction.
  - rewrite Hkey. destruct (selectedZones st) as [|a sel] eqn:Hsel.
    + repeat split. exact Hsel.
    + cbv zeta. unfold remove_selected. rewrite fold_removeZone.
      repeat split.
Qed.

Lemma delete_key_removes_the_selection_witness :
  zones (onKeyDown "Delete" NaN NaN [] two_apart) = [1%nat].
Proof.
  refine (proj1 (delete_key_removes_the_selection "Delete" NaN NaN []
                   two_apart (or_introl eq_refl) _)).
  repeat constructor; cbn; intuition discriminate.
Defined.

(** ** An invariant of the zone list *)

(** Handlers that leave the zone list, the identities given out and the
    selection as they are keep the invariant. *)
Lemma distinct_zones_same (st st' : State) :
  zones st' = zones st -> next_uuid st' = next_uuid st ->
  selectedZones st' = selectedZones st ->
  distinct_zones st -> distinct_zones st'.
Proof.
  unfold distinct_zones. intros -> -> ->. exact (fun H => H).
Qed.

Lemma distinct_zones_selection (st st' : State) :
  zones st' = zones st -> next_uuid st' = next_uuid st ->
  NoDup (selectedZones st') ->
  distinct_zones st -> distinct_zones st'.
Proof.
  unfold distinct_zones. intros -> -> H (H1 & H2 & _). auto.
Qed.

Lemma distinct_zones_addZone (type : Value) (pos : option Vector3)
    (random : num * num) (st : State) :
  distinct_zones st -> distinct_zones (addZone type pos random st).
Proof.
  intros (Hnd & Hlt & Hsel). unfold distinct_zones. cbn.
  split; [|split; [|exact Hsel]].
  - apply NoDup_app; [exact Hnd|repeat constructor; intros []|].
    intros i Hi [<-|[]]. rewrite Forall_forall in Hlt.
    specialize (Hlt _ Hi). lia.
  - apply Forall_app. split.
    + eapply Forall_impl; [|exact Hlt]. cbn. intros; lia.
    + repeat constructor.
Qed.

Lemma distinct_zones_removeZone (id : nat) (st : State) :
  distinct_zones st -> distinct_zones (removeZone id st).
Proof.
  intros (Hnd & Hlt & Hsel). unfold distinct_zones. cbn.
  split; [now apply remove_first_NoDup|].
  split; [now apply remove_first_Forall|exact Hsel].
Qed.

(** A property kept by the statements of [loadLayout] is kept by it,
    whether it throws or not. *)
Lemma loadLayout_keeps (P : State -> Prop)
    (control_text : string -> Value -> string) (layout : Value) :
  (forall s, P s -> P (resetHabitat s)) ->
  (forall id text s, P s -> P (set_control id text s)) ->
  (forall type pos s, P s -> P (addZone type (Some pos) no_random s)) ->
  (forall text valid s, P s -> P (showFeedback text valid s)) ->
  keeps P (loadLayout control_text layout).
Proof.
  intros Hreset Hset Hadd Hfb. unfold loadLayout.
  assert (Hassign : forall id v, keeps P (assign control_text id v)).
  { intros id v. apply keeps_modify. intros s Hs. now apply Hset. }
  assert (Hzone : forall zoneData, keeps P (load_zone zoneData)).
  { intro zoneData. unfold load_zone.
    repeat (apply keeps_bind; [apply keeps_throwing|intro]).
    apply keeps_modify. intros s Hs. now apply Hadd. }
  apply keeps_bind; [apply keeps_modify; exact Hreset|intro].
  repeat first
    [ apply keeps_bind; [first [apply keeps_throwing|apply Hassign]|intro]
    | apply keeps_bind; [apply keeps_forEach; exact Hzone|intro] ].
  apply keeps_modify. intros s Hs. now apply Hfb.
Qed.

Lemma later_frames_keeps (P : State -> Prop)
    (frame : num -> State -> State * bool) (clock : list num) (st : State) :
  (forall now s, P s -> P (fst (frame now s))) ->
  P st -> P (later_frames frame clock st).
Proof.
  intro Hf. revert st. induction clock as [|now rest IH]; intros st H.
  - exact H.
  - cbn [later_frames]. specialize (Hf now st H).
    destruct (frame now st) as [st' again]. cbn in Hf.
    destruct again; [apply IH|]; exact Hf.
Qed.

Lemma distinct_zones_rotateZone (zone : nat) (now0 now1 : num)
    (clock : list num) (st : State) :
  distinct_zones st -> distinct_zones (rotateZone zone now0 now1 clock st).
Proof.
  intro H. unfold rotateZone.
  set (frame := rotateZone_frame zone _ _ now0).
  assert (Hf : forall now s, distinct_zones s ->
                             distinct_zones (fst (frame now s))).
  { intros now s Hs. revert Hs. now apply distinct_zones_same. }
  specialize (Hf now1 st H).
  destruct (frame now1 st) as [st1 again]. cbn in Hf.
  assert (H2 : distinct_zones
                 (showFeedback "Zone rotated 90 degrees" true st1)).
  { revert Hf. now apply distinct_zones_same. }
  destruct again; [|exact H2].
  apply later_frames_keeps; [|exact H2].
  intros now s Hs. revert Hs. now apply distinct_zones_same.
Qed.

Lemma distinct_zones_scaleZone (zone : nat) (now0 now1 : num)
    (clock : list num) (st : State) :
  distinct_zones st -> distinct_zones (scaleZone zone now0 now1 clock st).
Proof.
  intro H. unfold scaleZone.
  set (frame := scaleZone_frame zone _ _ now0).
  assert (Hf : forall now s, distinct_zones s ->
                             distinct_zones (fst (frame now s))).
  { intros now s Hs. revert Hs. now apply distinct_zones_same. }
  specialize (Hf now1 st H).
  destruct (frame now1 st) as [st1 again]. cbn in Hf.
  set (text := if (_ <? _)%js then _ else _).
  assert (H2 : distinct_zones (showFeedback text true st1)).
  { revert Hf. now apply distinct_zones_same. }
  destruct again; [|exact H2].
  apply later_frames_keeps; [|exact H2].
  intros now s Hs. revert Hs. now apply distinct_zones_same.
Qed.

Lemma distinct_zones_run_frame (a : Animation) (now : num) (st : State) :
  distinct_zones st -> distinct_zones (run_frame a now st).
Proof.
  unfold run_frame, animation_frame.
  destruct (_ <? _)%js; now apply distinct_zones_same.
Qed.

Lemma distinct_zones_onPointerDown (button : nat) (ctrlKey : bool)
    (hit : option nat) (st : State) :
  distinct_zones st -> distinct_zones (onPointerDown button ctrlKey hit st).
Proof.
  intro H. unfold onPointerDown.
  destruct (negb (Nat.eqb button 0)); [exact H|].
  destruct hit as [zone|].
  - pose proof H as (_ & _ & Hs).
    revert H. apply distinct_zones_selection; try reflexivity.
    cbn [selectedZones].
    destruct ctrlKey; cbn [andb negb fst].
    + destruct (existsb (Nat.eqb zone) (selectedZones st)) eqn:He;
        cbn [negb fst].
      * exact Hs.
      * apply NoDup_app; [exact Hs|repeat constructor; intros []|].
        intros i Hi [<-|[]].
        assert (existsb (Nat.eqb zone) (selectedZones st) = true) as H1.
        { apply existsb_exists. exists zone.
          split; [exact Hi|apply Nat.eqb_refl]. }
        congruence.
    + repeat constructor. intros [].
  - revert H. apply distinct_zones_selection; try reflexivity. constructor.
Qed.

Lemma distinct_zones_onPointerUp (ctrlKey : bool) (now0 now1 : num)
    (st : State) :
  distinct_zones st -> distinct_zones (onPointerUp ctrlKey now0 now1 st).
Proof.
  intro H. unfold onPointerUp.
  destruct (selectedZone st) as [sel|]; [|exact H].
  destruct (isDragging st); [|exact H].
  set (st1 := state _ _ _ _ _ _ false _ _ _ _ _ _ _ _).
  assert (H1 : distinct_zones st1) by (revert H; now apply distinct_zones_same).
  set (st2 := if negb _ then _ else _).
  assert (H2 : distinct_zones st2).
  { unfold st2. destruct (negb _).
    - assert (distinct_zones (animateZoneToPosition sel now0 now1 st1)) as Ha
        by (apply distinct_zones_run_frame, H1).
      revert Ha. now apply distinct_zones_same.
    - revert H1. now apply distinct_zones_same. }
  destruct (negb (multiSelectMode st) && negb ctrlKey); [|exact H2].
  revert H2. now apply distinct_zones_same.
Qed.

Lemma distinct_zones_onKeyDown (code : string) (now0 now1 : num)
    (clock : list num) (st : State) :
  distinct_zones st -> distinct_zones (onKeyDown code now0 now1 clock st).
Proof.
  intro H. unfold onKeyDown.
  destruct (String.eqb code "KeyG");
    [revert H; now apply distinct_zones_same|].
  destruct (String.eqb code "Delete" || String.eqb code "Backspace").
  { destruct (selectedZones st) as [|a sel] eqn:Hsel; [exact H|].
    cbv zeta. unfold remove_selected. rewrite fold_removeZone.
    destruct H as (Hnd & Hlt & _). unfold distinct_zones. cbn.
    split; [now apply fold_remove_first_NoDup|].
    split; [now apply fold_remove_first_Forall|constructor]. }
  destruct (String.eqb code "KeyR").
  { destruct (selectedZone st); [now apply distinct_zones_rotateZone|exact H]. }
  destruct (String.eqb code "KeyS").
  { destruct (selectedZone st); [now apply distinct_zones_scaleZone|exact H]. }
  destruct (String.eqb code "Escape"); [|exact H].
  revert H. apply distinct_zones_selection; try reflexivity. constructor.
Qed.

Lemma distinct_zones_importFile (JSON_parse : string -> option Value)
    (control_text : string -> Value -> string) (text : string) (st : State) :
  distinct_zones st ->
  distinct_zones (importFile JSON_parse control_text text st).
Proof.
  intro H. unfold importFile.
  destruct (JSON_parse text) as [layout|];
    [|revert H; now apply distinct_zones_same].
  assert (Hk : keeps distinct_zones (loadLayout control_text layout)).
  { apply loadLayout_keeps.
    - intros s (_ & _ & Hs). repeat split; [constructor|constructor|exact Hs].
    - intros id t s. now apply distinct_zones_same.
    - intros type pos s. apply distinct_zones_addZone.
    - intros t v s. now apply distinct_zones_same. }
  specialize (Hk st H).
  destruct (loadLayout control_text layout st) as [st' [u|]]; cbn in Hk;
    [exact Hk|].
  revert Hk. now apply distinct_zones_same.
Qed.

(** X4.  At start-up and after every event, the zones of the list are
    distinct meshes that were created before, and no zone is selected twice:
    adding and duplicating append a fresh mesh, an import builds its list
    from fresh meshes only, and every other listener removes zones or leaves
    the list as it is. *)
Theorem zone_identities_stay_distinct
    (JSON_parse : string -> option Value)
    (control_text : string -> Value -> string) :
  (forall value0, distinct_zones (initial_state value0))
  /\ (forall e st,
        distinct_zones st ->
        distinct_zones (handle JSON_parse control_text e st))
  /\ (forall events value0,
        distinct_zones
          (run JSON_parse control_text events (initial_state value0))).
Proof.
  assert (H0 : forall value0, distinct_zones (initial_state value0))
    by (intro; repeat split; constructor).
  assert (Hstep : forall e st,
            distinct_zones st ->
            distinct_zones (handle JSON_parse control_text e st)).
  { intros e st H. destruct e; cbn [handle].
    - now apply distinct_zones_addZone.
    - revert H. now apply distinct_zones_same.
    - now apply distinct_zones_importFile.
    - revert H. now apply distinct_zones_same.
    - destruct H as (_ & _ & Hs).
      repeat split; [constructor|constructor|exact Hs].
    - now apply distinct_zones_onPointerDown.
    - unfold onPointerMove.
      destruct (selectedZone st); [|exact H].
      destruct (isDragging st); [|exact H].
      destruct floorHit; [|exact H].
      revert H. now apply distinct_zones_same.
    - now apply distinct_zones_onPointerUp.
    - unfold deselectTimeout. destruct (pendingDeselect st); [exact H|].
      revert H. now apply distinct_zones_same.
    - unfold onAnimationFrame.
      destruct (nth_error (animations st) k); [|exact H].
      apply distinct_zones_run_frame.
      revert H. now apply distinct_zones_same.
    - now apply distinct_zones_onKeyDown.
    - now apply distinct_zones_rotateZone.
    - now apply distinct_zones_scaleZone.
    - unfold duplicateZone.
      assert (distinct_zones
                (addZone (userData_type (meshes st zone))
                   (Some (THREE.add (position (meshes st zone))
                            (vec (Fin 3) (Fin 0) (Fin 0))))
                   (NaN, NaN) st)) as Ha by now apply distinct_zones_addZone.
      revert Ha. now apply distinct_zones_same.
    - now apply distinct_zones_removeZone.
    - revert H. apply distinct_zones_selection; try reflexivity.
      repeat constructor. intros [].
    - now apply distinct_zones_removeZone.
    - assert (distinct_zones (set_control (control_id c) text st)) as Hc
        by (revert H; now apply distinct_zones_same).
      destruct c; try exact Hc.
      + unfold updateZonePosition.
        destruct (currentEditingZone _); [|exact Hc].
        revert Hc. now apply distinct_zones_same.
      + unfold updateZoneRotation.
        destruct (currentEditingZone _); [|exact Hc].
        revert Hc. now apply distinct_zones_same.
    - revert H. now apply distinct_zones_same. }
  split; [exact H0|]. split; [exact Hstep|].
  intros events value0. unfold run.
  generalize (H0 value0). generalize (initial_state value0).
  induction events as [|e events IH]; intros st H; [exact H|].
  cbn [fold_left]. apply IH, Hstep, H.
Qed.

Lemma zone_identities_stay_distinct_witness :
  distinct_zones
    (handle sample_JSON_parse sample_control_text (MenuDuplicate 0)
       zone_at_9).
Proof.
  refine (proj1 (proj2 (zone_identities_stay_distinct sample_JSON_parse
                          sample_control_text)) (MenuDuplicate 0) zone_at_9 _).
  repeat split; repeat constructor; cbn; intuition lia.
Defined.

(** ** Zones added at a random place *)

(** X5.  A zone added with the Add Zone button, which gives no position, is
    put at height 1 on a point of the square of side [radius] around the
    centre. In a habitat of radius 5.2 or more every such point passes the
    boundary check of the drag handlers; in a habitat of radius 5 the corner
    of the square does not. *)
Theorem random_placement_is_within_bounds :
  (forall (type : Value) (st : State) (r u v : R),
     JSString.parseFloat (value st "radius") = Fin r ->
     0 <= u < 1 -> 0 <= v < 1 -> 26 / 5 <= r ->
     let st' := addZone type None (Fin u, Fin v) st in
     let p := position (meshes st' (next_uuid st)) in
     zones st' = zones st ++ [next_uuid st]
     /\ p = vec (Fin ((u - 1 / 2) * r)) (Fin 1) (Fin ((v - 1 / 2) * r))
     /\ Rabs ((u - 1 / 2) * r) <= r / 2
     /\ Rabs ((v - 1 / 2) * r) <= r / 2
     /\ isValidPlacement (Fin r) (x p) (z p) = true)
  /\ isValidPlacement (Fin 5) (Fin ((0 - 1 / 2) * 5)) (Fin ((0 - 1 / 2) * 5))
     = false.
Proof.
  split.
  - intros type st r u v Hr Hu Hv Hrad. cbv zeta.
    assert (Hp : position (meshes (addZone type None (Fin u, Fin v) st)
                             (next_uuid st))
                 = vec (Fin ((u - 1 / 2) * r)) (Fin 1)
                       (Fin ((v - 1 / 2) * r))).
    { unfold addZone. cbn [meshes]. rewrite Nat.eqb_refl, Hr. reflexivity. }
    rewrite Hp. cbn [x z].
    assert (Hu2 : (u - 1 / 2) * (u - 1 / 2) <= 1 / 4) by nra.
    assert (Hv2 : (v - 1 / 2) * (v - 1 / 2) <= 1 / 4) by nra.
    split; [reflexivity|]. split; [reflexivity|].
    split; [apply Rabs_le; nra|]. split; [apply Rabs_le; nra|].
    rewrite isValidPlacement_Fin. apply Rltb_true.
    apply sqrt_lt_sq; [apply sum_squares_nonneg|].
    split; [lra|].
    assert (Ha : (u - 1 / 2) * r * ((u - 1 / 2) * r) <= r * r / 4) by nra.
    assert (Hb : (v - 1 / 2) * r * ((v - 1 / 2) * r) <= r * r / 4) by nra.
    nra.
  - rewrite isValidPlacement_Fin. apply Rltb_false.
    apply sqrt_ge_sq; [apply sum_squares_nonneg|]. right. lra.
Qed.

Lemma random_placement_is_within_bounds_witness :
  let st' :=
    addZone (VStr "kitchen") None (Fin (3 / 4), Fin 0)
      (initial_state dome_controls) in
  isValidPlacement (Fin 10) (x (position (meshes st' 0)))
    (z (position (meshes st' 0))) = true.
Proof.
  refine (proj2 (proj2 (proj2 (proj2
            (proj1 random_placement_is_within_bounds (VStr "kitchen")
               (initial_state dome_controls) 10 (3 / 4) 0
               parseFloat_10 _ _ _))))); lra.
Defined.

(** ** The habitat figures at the edges *)

(** X19.  A shape other than [cylinder] and [dome] is given the capsule
    figure [π·r·r·(h − r·2) + (4/3)·π·r³].  For a positive radius this
    figure is positive as soon as the height is 0.7 times the radius or
    more, long before the height reaches twice the radius, and it is
    negative when the height is 0.6 times the radius or less.  (In exact
    arithmetic the sign changes at two thirds of the radius, where the two
    terms cancel.) *)
Theorem capsule_volume_sign (st : State) (r h : R) :
  JSString.parseFloat (value st "radius") = Fin r ->
  JSString.parseFloat (value st "height") = Fin h ->
  value st "shape" <> "cylinder"%string ->
  value st "shape" <> "dome"%string ->
  0 < r ->
  exists v,
    volume (updateInfo st) = Fin v
    /\ v = PI * r * r * (h - r * 2) + 4 / 3 * PI * (r * (r * r))
    /\ (7 / 10 * r <= h -> 0 < v)
    /\ (h <= 3 / 5 * r -> v < 0).
Proof.
  intros Hr Hh Hc Hd Hpos.
  exists (PI * r * r * (h - r * 2) + 4 / 3 * PI * (r * (r * r))).
  split; [|split; [reflexivity|]].
  - unfold updateInfo. rewrite Hr, Hh.
    apply String.eqb_neq in Hc, Hd. rewrite Hc, Hd.
    reflexivity.
  - pose proof PI_RGT_0 as Hpi.
    assert (Hk : 0 < PI * r * r).
    { apply Rmult_lt_0_compat; [|exact Hpos].
      apply Rmult_lt_0_compat; assumption. }
    replace (PI * r * r * (h - r * 2) + 4 / 3 * PI * (r * (r * r)))
      with (PI * r * r * (h - 2 / 3 * r)) by field.
    revert Hk. generalize (PI * r * r). intros k Hk.
    split; intro H; nra.
Qed.

Lemma capsule_volume_sign_witness :
  exists v,
    volume (updateInfo (initial_state capsule_controls)) = Fin v /\ 0 < v.
Proof.
  destruct (capsule_volume_sign (initial_state capsule_controls) 10 15
              parseFloat_10 parseFloat_15)
    as (v & Hv & _ & Hpos & _); try discriminate; try lra.
  exists v. split; [exact Hv|apply Hpos; lra].
Defined.

(** X20.  With a crew of 0 the volume per astronaut is a division by zero:
    [Infinity] for a positive volume, [-Infinity] for a negative one and
    [NaN] for the volume 0, and the page shows these words. With a crew
    control that holds no number it is [NaN]. *)
Theorem per_astronaut_without_crew (st : State) (v : R) :
  volume (updateInfo st) = Fin v ->
  (JSString.parseInt (value st "crew") = Fin 0 ->
   (0 < v ->
    perAstronaut (updateInfo st) = PInf
    /\ perAstronaut_text (updateInfo st) = "Infinity"%string)
   /\ (v < 0 ->
       perAstronaut (updateInfo st) = NInf
       /\ perAstronaut_text (updateInfo st) = "-Infinity"%string)
   /\ (v = 0 ->
       perAstronaut (updateInfo st) = NaN
       /\ perAstronaut_text (updateInfo st) = "NaN"%string))
  /\ (JSString.parseInt (value st "crew") = NaN ->
      perAstronaut (updateInfo st) = NaN
      /\ perAstronaut_text (updateInfo st) = "NaN"%string).
Proof.
  intro Hv.
  change (perAstronaut_text (updateInfo st))
    with (JSString.toFixed 1 (perAstronaut (updateInfo st))).
  change (perAstronaut (updateInfo st))
    with (volume (updateInfo st) / JSString.parseInt (value st "crew"))%js.
  rewrite Hv. split.
  - intros ->. cbn [JS.div]. decide_real_tests. unfold scale_inf.
    split; [|split]; intro H; decide_real_tests; split; reflexivity.
  - intros ->. split; reflexivity.
Qed.

(** The capsule of [capsule_controls] has a positive volume. *)
Lemma capsule_sample_volume :
  exists v,
    volume (updateInfo (initial_state capsule_controls)) = Fin v /\ 0 < v.
Proof.
  exists (PI * 10 * 10 * (15 - 10 * 2) + 4 / 3 * PI * (10 * (10 * 10))).
  split.
  - unfold updateInfo.
    change (value (initial_state capsule_controls) "radius") with "10"%string.
    change (value (initial_state capsule_controls) "height") with "15"%string.
    change (value (initial_state capsule_controls) "shape")
      with "capsule"%string.
    rewrite parseFloat_10, parseFloat_15. reflexivity.
  - pose proof PI_RGT_0. lra.
Qed.

Lemma per_astronaut_without_crew_witness :
  perAstronaut_text (updateInfo (initial_state capsule_controls))
  = "Infinity"%string.
Proof.
  destruct capsule_sample_volume as (v & Hv & Hpos).
  exact (proj2 (proj1 (proj1 (per_astronaut_without_crew
                                (initial_state capsule_controls) v Hv)
                         eq_refl) Hpos)).
Defined.

(** ** Copies of one zone *)

(** X9.  A copy made by [duplicateZone] stands at distance 3 from its
    source, which is no collision. A second copy of the same source is put
    on the same place as the first one: the two copies are at distance 0
    from each other, and the collision loop run for either of them over the
    zone list finds the other. *)
Theorem duplicates_of_one_zone_are_stacked (st : State) (zone : nat)
    (a b c : R) :
  (zone < next_uuid st)%nat ->
  position (meshes st zone) = vec (Fin a) (Fin b) (Fin c) ->
  let copy1 := next_uuid st in
  let copy2 := S (next_uuid st) in
  let st2 := duplicateZone zone (duplicateZone zone st) in
  zones st2 = zones st ++ [copy1; copy2]
  /\ position (meshes st2 copy1) = vec (Fin (a + 3)) (Fin (b + 0)) (Fin (c + 0))
  /\ position (meshes st2 copy2) = position (meshes st2 copy1)
  /\ position (meshes st2 zone) = position (meshes st zone)
  /\ hasCollision (meshes st2) copy1 [zone] = false
  /\ hasCollision (meshes st2) copy1 (zones st2) = true
  /\ hasCollision (meshes st2) copy2 (zones st2) = true.
Proof.
  intros Hlt Hp. cbv zeta.
  set (n := next_uuid st).
  assert (E1 : Nat.eqb zone n = false) by (apply Nat.eqb_neq; lia).
  assert (E2 : Nat.eqb zone (S n) = false) by (apply Nat.eqb_neq; lia).
  assert (E3 : Nat.eqb n (S n) = false) by (apply Nat.eqb_neq; lia).
  assert (E4 : Nat.eqb (S n) n = false) by (apply Nat.eqb_neq; lia).
  assert (P1 : position (meshes (duplicateZone zone (duplicateZone zone st)) n)
               = vec (Fin (a + 3)) (Fin (b + 0)) (Fin (c + 0))).
  { unfold duplicateZone, addZone. cbn. fold n.
    rewrite E3, Nat.eqb_refl. cbn. rewrite Hp. reflexivity. }
  assert (P2 : position (meshes (duplicateZone zone (duplicateZone zone st))
                           (S n))
               = vec (Fin (a + 3)) (Fin (b + 0)) (Fin (c + 0))).
  { unfold duplicateZone, addZone. cbn. fold n.
    rewrite Nat.eqb_refl, E1. cbn. rewrite Hp. reflexivity. }
  assert (P0 : position (meshes (duplicateZone zone (duplicateZone zone st))
                           zone)
               = vec (Fin a) (Fin b) (Fin c)).
  { unfold duplicateZone, addZone. cbn. fold n.
    rewrite E2, E1. exact Hp. }
  assert (Hz : zones (duplicateZone zone (duplicateZone zone st))
               = zones st ++ [n; S n]).
  { unfold duplicateZone, addZone. cbn. rewrite <- app_assoc. reflexivity. }
  split; [exact Hz|]. split; [exact P1|]. split; [congruence|].
  split; [congruence|]. split; [|split].
  - cbn [hasCollision]. rewrite E1, P1, P0. cbn [negb andb].
    replace (distanceTo _ _ <? Fin (5 / 2))%js with false; [reflexivity|].
    symmetry. apply far_Fin. nra.
  - apply hasCollision_exists. exists (S n).
    split; [rewrite Hz; apply in_or_app; right; right; now left|].
    split; [lia|]. rewrite P1, P2. apply near_Fin. nra.
  - apply hasCollision_exists. exists n.
    split; [rewrite Hz; apply in_or_app; right; now left|].
    split; [lia|]. rewrite P1, P2. apply near_Fin. nra.
Qed.

Lemma duplicates_of_one_zone_are_stacked_witness :
  position (meshes (duplicateZone 0 (duplicateZone 0 zone_at_9)) 2)
  = position (meshes (duplicateZone 0 (duplicateZone 0 zone_at_9)) 1).
Proof.
  exact (proj1 (proj2 (proj2 (duplicates_of_one_zone_are_stacked zone_at_9 0
                                9 1 0 (le_n 1) eq_refl)))).
Defined.

(** ** Which documents are imported *)

Lemma forEach_load_zone_stops (good : list Value) (bad : Value)
    (rest : list Value) (st : State) :
  forallb loadable_zone good = true -> loadable_zone bad = false ->
  forEach (good ++ bad :: rest) load_zone st = (add_doc_zones good st, None).
Proof.
  revert st. induction good as [|zd good IH]; intros st Hg Hb.
  - cbn [app forEach]. unfold bind. rewrite load_zone_spec, Hb. reflexivity.
  - cbn in Hg. apply andb_prop in Hg as [H1 H2].
    cbn [app forEach]. unfold bind. rewrite load_zone_spec, H1.
    unfold add_doc_zones. cbn [fold_left]. apply IH; assumption.
Qed.

Lemma forEach_load_zone_result (items : list Value) (st : State) :
  snd (forEach items load_zone st)
  = if forallb loadable_zone items then Some tt else None.
Proof.
  revert st. induction items as [|zd items IH]; intro st; [reflexivity|].
  cbn [forEach forallb]. unfold bind. rewrite load_zone_spec.
  destruct (loadable_zone zd); [apply IH|reflexivity].
Qed.

Lemma loadLayout_result (control_text : string -> Value -> string)
    (layout : Value) (st : State) :
  snd (loadLayout control_text layout st)
  = if loadable_document layout then Some tt else None.
Proof.
  unfold loadLayout, assign, bind, throwing, modify, loadable_document.
  destruct (prop layout "habitat") as [habitat|] eqn:Hh; [|reflexivity].
  rewrite (prop_other _ _ "zones" _ Hh).
  destruct (prop habitat "shape") as [shape|] eqn:Hs.
  - rewrite (prop_other _ _ "radius" _ Hs), (prop_other _ _ "height" _ Hs),
      (prop_other _ _ "crew" _ Hs).
    destruct (field habitat "radius"); try reflexivity.
    cbn [call_toFixed].
    destruct (field habitat "height"); try reflexivity.
    cbn [call_toFixed].
    destruct (field layout "zones"); try reflexivity.
    cbn [as_array].
    match goal with
    | |- snd (let (_, _) := forEach items load_zone ?s in _) = _ =>
        pose proof (forEach_load_zone_result items s) as Hr;
        destruct (forEach items load_zone s) as [st' [[]|]]
    end; exact Hr.
  - destruct habitat; cbn in Hs; try discriminate; reflexivity.
Qed.

(** X15.  Among the documents whose shape, radius, height, crew, zone
    types and coordinates can be turned into strings, an import succeeds
    exactly on those whose habitat is neither [null] nor missing and has a
    numeric radius and height, and whose [zones] is an array of entries
    that each have a position that is neither [null] nor missing.  The
    shape, the crew, the type of a zone and the coordinates of a position
    may be missing, and they may be of any printable kind.  Every other
    such document is reported as an invalid file. *)
Theorem import_succeeds_iff
    (JSON_parse : string -> option Value)
    (control_text : string -> Value -> string)
    (text : string) (layout : Value) (st : State) :
  JSON_parse text = Some layout ->
  printable_document layout = true ->
  let st' := importFile JSON_parse control_text text st in
  (snd (loadLayout control_text layout st) = Some tt
   <-> loadable_document layout = true)
  /\ (feedback st' = Some ("Layout loaded!"%string, true)
      <-> loadable_document layout = true)
  /\ (feedback st' = Some ("Invalid JSON file!"%string, false)
      <-> loadable_document layout = false).
Proof.
  intros Hp _. cbv zeta.
  pose proof (loadLayout_result control_text layout st) as Hr.
  assert (Hf : loadable_document layout = true ->
               feedback (fst (loadLayout control_text layout st))
               = Some ("Layout loaded!"%string, true)).
  { intro Hl. revert Hr. rewrite Hl.
    unfold loadLayout, assign, bind, throwing, modify.
    repeat match goal with
           | |- context [match ?o with Some _ => _ | None => _ end] =>
               destruct o; try discriminate
           | |- context [let (_, _) := ?m in _] =>
               destruct m as [? [[]|]]; try discriminate
           end.
    reflexivity. }
  unfold importFile. rewrite Hp.
  destruct (loadable_document layout).
  - specialize (Hf eq_refl).
    destruct (loadLayout control_text layout st) as [st' [[]|]];
      [|discriminate].
    cbn [fst snd] in *. rewrite Hf.
    repeat split; try reflexivity; discriminate.
  - destruct (loadLayout control_text layout st) as [st' [[]|]];
      [discriminate|].
    cbn. repeat split; try reflexivity; discriminate.
Qed.

Lemma import_succeeds_iff_witness :
  feedback (importFile sample_JSON_parse sample_control_text empty_dome_text
              zone_at_9)
  = Some ("Layout loaded!"%string, true)
  /\ feedback (importFile sample_JSON_parse sample_control_text "{}"
                 zone_at_9)
     = Some ("Invalid JSON file!"%string, false).
Proof.
  split.
  - apply (import_succeeds_iff sample_JSON_parse sample_control_text
             empty_dome_text empty_dome_document zone_at_9 eq_refl eq_refl).
    reflexivity.
  - apply (import_succeeds_iff sample_JSON_parse sample_control_text
             "{}" (VObj []) zone_at_9 eq_refl eq_refl).
    reflexivity.
Defined.

(** X16.  An import stops at the first entry of [zones] that has no
    position.  When the shape and the crew of the document and the
    coordinates and types of the entries before that one can be turned
    into strings, the failure is reported, but the habitat controls have
    been assigned the values of the document and the zone list holds the
    meshes made for the entries before the bad one, in file order, and
    nothing else. *)
Theorem import_stops_at_the_first_bad_entry
    (JSON_parse : string -> option Value)
    (control_text : string -> Value -> string)
    (text : string) (layout habitat shape crew : Value)
    (radius height : num) (good : list Value) (bad : Value)
    (rest : list Value) (st : State) :
  JSON_parse text = Some layout ->
  prop layout "habitat" = Some habitat ->
  prop habitat "shape" = Some shape ->
  prop habitat "radius" = Some (VNum radius) ->
  prop habitat "height" = Some (VNum height) ->
  prop habitat "crew" = Some crew ->
  prop layout "zones" = Some (VArr (good ++ bad :: rest)) ->
  printable shape = true -> printable crew = true ->
  forallb printable_zone good = true ->
  forallb loadable_zone good = true ->
  loadable_zone bad = false ->
  let st' := importFile JSON_parse control_text text st in
  snd (loadLayout control_text layout st) = None
  /\ feedback st' = Some ("Invalid JSON file!"%string, false)
  /\ zones st' = seq (next_uuid st) (List.length good)
  /\ layout_zones st' = map doc_mesh good
  /\ value st' "shape" = control_text "shape"%string shape
  /\ value st' "radius" = control_text "radius"%string (VNum radius)
  /\ value st' "height" = control_text "height"%string (VNum height)
  /\ value st' "crew" = control_text "crew"%string crew.
Proof.
  intros Hp Hh Hs Hr Hhe Hc Hz _ _ _ Hg Hb. cbv zeta.
  assert (Hload : loadLayout control_text layout st
                  = (add_doc_zones good
                       (set_control "crew" (control_text "crew"%string crew)
                          (set_control "height"
                             (control_text "height"%string (VNum height))
                             (set_control "radius"
                                (control_text "radius"%string (VNum radius))
                                (set_control "shape"
                                   (control_text "shape"%string shape)
                                   (resetHabitat st))))), None)).
  { unfold loadLayout, assign, bind, throwing, modify.
    rewrite Hh, Hs, Hr, Hhe, Hc. cbn [call_toFixed]. rewrite Hz.
    cbn [as_array]. rewrite forEach_load_zone_stops by assumption.
    reflexivity. }
  unfold importFile. rewrite Hp, Hload. cbn [snd].
  destruct (loaded_spec control_text shape (VNum radius) (VNum height) crew
              good st) as (Hzs & Hlz & Hvs & Hvr & Hvh & Hvc & _).
  repeat split; assumption.
Qed.

Lemma import_stops_at_the_first_bad_entry_witness :
  let st' := importFile sample_JSON_parse_broken sample_control_text
               broken_text zone_at_9 in
  feedback st' = Some ("Invalid JSON file!"%string, false)
  /\ zones st' = [1%nat].
Proof.
  destruct (import_stops_at_the_first_bad_entry sample_JSON_parse_broken
              sample_control_text broken_text broken_document
              (VObj [("shape"%string, VStr "dome");
                     ("radius"%string, VNum (Fin 10));
                     ("height"%string, VNum (Fin 15));
                     ("crew"%string, VNum (Fin 8))])
              (VStr "dome") (VNum (Fin 8)) (Fin 10) (Fin 15)
              [VObj [("type"%string, VStr "kitchen");
                     ("position"%string,
                      VObj [("x"%string, VStr "1.00");
                            ("y"%string, VStr "1.00");
                            ("z"%string, VStr "2.00")])]]
              (VObj [("type"%string, VStr "storage")]) [] zone_at_9
              eq_refl eq_refl eq_refl eq_refl eq_refl eq_refl eq_refl
              eq_refl eq_refl eq_refl eq_refl eq_refl)
    as (_ & Hf & Hz & _).
  split; [exact Hf|exact Hz].
Defined.

(** ** The Rotate Zone and Scale Zone commands *)

(** The progress of an animation at and after the end of its duration. *)
Lemma progress_complete (e d : R) :
  0 < d -> d <= e -> Math.min (Fin e / Fin d)%js (Fin 1) = Fin 1.
Proof.
  intros Hpos Hle. cbn [JS.div]. decide_real_tests. cbn [Math.min JS.ltb].
  assert (1 <= e / d).
  { apply Rmult_le_reg_r with d; [exact Hpos|].
    unfold Rdiv. rewrite Rmult_assoc, Rinv_l by lra. lra. }
  destruct (Rlt_dec 1 (e / d)) as [Hlt|Hge].
  - replace (Rltb 1 (e / d)) with true
      by (symmetry; apply Rltb_true; exact Hlt).
    reflexivity.
  - replace (Rltb 1 (e / d)) with false
      by (symmetry; apply Rltb_false; lra).
    f_equal. lra.
Qed.

Lemma frame_ends (e d : R) :
  0 < d -> d <= e ->
  (Math.min (Fin e / Fin d)%js (Fin 1) <? Fin 1)%js = false.
Proof.
  intros Hpos Hle. rewrite progress_complete by assumption.
  cbn [JS.ltb]. apply Rltb_false. lra.
Qed.

(** The value written by a frame that requests no other one is the
    target. *)
Lemma eased_value_at_the_end (cur tgt e d : R) :
  0 < d ->
  (Math.min (Fin e / Fin d)%js (Fin 1) <? Fin 1)%js = false ->
  (Fin cur
   + (Fin tgt - Fin cur)
     * (Fin 1 - Math.pow (Fin 1 - Math.min (Fin e / Fin d) (Fin 1)) 3))%js
  = Fin tgt.
Proof.
  intros Hpos Hend. apply last_frame_is_final in Hend; [|exact Hpos].
  rewrite progress_complete by assumption. cbn. f_equal. ring.
Qed.

(** The first frame that requests no other one ends the animation. *)
Lemma later_frames_final (C : num -> Prop) (P Q : State -> Prop)
    (frame : num -> State -> State * bool) (clock : list num) (st : State) :
  (forall now s, C now -> P s -> P (fst (frame now s))) ->
  (forall now s, C now -> P s -> snd (frame now s) = false ->
                 Q (fst (frame now s))) ->
  Forall C clock ->
  Exists (fun now => forall s, snd (frame now s) = false) clock ->
  P st ->
  P (later_frames frame clock st) /\ Q (later_frames frame clock st).
Proof.
  intros Hkeep Hlast. revert st.
  induction clock as [|now rest IH]; intros st HC Hex HP.
  - inversion Hex.
  - inversion HC as [|? ? Hnow Hrest]; subst.
    cbn [later_frames].
    pose proof (Hkeep now st Hnow HP) as H1.
    pose proof (Hlast now st Hnow HP) as H2.
    destruct (frame now st) as [st' again] eqn:Hfr. cbn [fst snd] in *.
    destruct again.
    + apply IH; [exact Hrest| |exact H1].
      inversion Hex as [? ? Hhead|? ? Htail]; subst; [|exact Htail].
      specialize (Hhead st). rewrite Hfr in Hhead. discriminate.
    + split; [exact H1|apply H2; reflexivity].
Qed.

Lemma clock_reaches (frame : num -> State -> State * bool) (bound : R)
    (clock : list R) :
  (forall t s, bound <= t -> snd (frame (Fin t) s) = false) ->
  Exists (fun t => bound <= t) clock ->
  Exists (fun now => forall s, snd (frame now s) = false) (map Fin clock).
Proof.
  intros Hf Hex. induction Hex as [t rest Ht|t rest _ IH].
  - left. intro s. apply Hf, Ht.
  - right. exact IH.
Qed.

Lemma clock_is_finite (clock : list R) :
  Forall (fun now => exists t, now = Fin t) (map Fin clock).
Proof.
  induction clock as [|t rest IH]; constructor; [now exists t|exact IH].
Qed.

(** X13.  [rotateZone], once a frame runs half a second or more after the
    command, has turned the zone by a quarter turn about the vertical axis:
    [rotation.y] has grown by [π/2] exactly, whatever the frames in between
    have written, and nothing else of the zone, no other mesh and no entry
    of the zone list has changed. *)
Theorem rotateZone_turns_a_quarter (zone : nat) (st : State)
    (r t0 t1 : R) (clock : list R) :
  y (rotation (meshes st zone)) = Fin r ->
  Exists (fun t => t0 + 500 <= t) (t1 :: clock) ->
  let st' := rotateZone zone (Fin t0) (Fin t1) (map Fin clock) st in
  meshes st' zone = set_rotation_y (Fin (r + PI / 2)) (meshes st zone)
  /\ (forall j, j <> zone -> meshes st' j = meshes st j)
  /\ zones st' = zones st
  /\ feedback st' = Some ("Zone rotated 90 degrees"%string, true).
Proof.
  intros Hy Hex. cbv zeta. unfold rotateZone. rewrite Hy.
  assert (Htarget : (Fin r + Math.PI / Fin 2)%js = Fin (r + PI / 2)).
  { unfold Math.PI. cbn [JS.div]. decide_real_tests. reflexivity. }
  rewrite Htarget.
  set (frame := rotateZone_frame zone (Fin r) (Fin (r + PI / 2)) (Fin t0)).
  set (P := fun s : State =>
              (forall j, j <> zone -> meshes s j = meshes st j)
              /\ (exists v, meshes s zone = set_rotation_y v (meshes st zone))
              /\ zones s = zones st).
  set (Q := fun s : State =>
              meshes s zone
              = set_rotation_y (Fin (r + PI / 2)) (meshes st zone)).
  assert (HP0 : P st).
  { split; [reflexivity|]. split; [|reflexivity].
    exists (Fin r). rewrite <- Hy. destruct (meshes st zone) as [? ? [] ? ?].
    reflexivity. }
  assert (Hkeep : forall now s, P s -> P (fst (frame now s))).
  { intros now s (H1 & (v & H2) & H3). unfold frame, rotateZone_frame.
    cbn [fst]. split; [|split].
    - intros j Hj. cbn. destruct (Nat.eqb_spec j zone); [contradiction|].
      now apply H1.
    - eexists. cbn. rewrite Nat.eqb_refl, H2. reflexivity.
    - exact H3. }
  assert (Hlast : forall now s,
            (exists t, now = Fin t) -> P s -> snd (frame now s) = false ->
            Q (fst (frame now s))).
  { intros now s [t ->] (_ & (v & H2) & _) Hend.
    unfold frame, rotateZone_frame in Hend |- *. cbv zeta in Hend |- *.
    cbn [fst snd] in Hend |- *.
    change (Fin t - Fin t0)%js with (Fin (t - t0)) in Hend |- *.
    unfold Q. cbn [meshes update_mesh with_meshes].
    rewrite Nat.eqb_refl, H2.
    rewrite eased_value_at_the_end by (lra || exact Hend). reflexivity. }
  assert (Hends : forall t s, t0 + 500 <= t -> snd (frame (Fin t) s) = false).
  { intros t s Ht. unfold frame, rotateZone_frame. cbv zeta. cbn [snd].
    change (Fin t - Fin t0)%js with (Fin (t - t0)).
    apply frame_ends; lra. }
  pose proof (Hkeep (Fin t1) st HP0) as H1.
  pose proof (Hlast (Fin t1) st (ex_intro _ t1 eq_refl) HP0) as H2.
  destruct (frame (Fin t1) st) as [st1 again] eqn:Hfr. cbn [fst snd] in *.
  destruct again.
  - assert (Hex' : Exists (fun t => t0 + 500 <= t) clock).
    { inversion Hex as [? ? Hhead|? ? Htail]; subst; [|exact Htail].
      pose proof (Hends t1 st Hhead) as Hc. rewrite Hfr in Hc. discriminate. }
    set (P' := fun s => P s /\ feedback s
                               = Some ("Zone rotated 90 degrees"%string, true)).
    destruct (later_frames_final (fun now => exists t, now = Fin t) P' Q frame
                (map Fin clock)
                (showFeedback "Zone rotated 90 degrees" true st1))
      as [[(Ha & _ & Hc) Hf] Hq].
    + intros now s _ [HPs Hf]. split; [now apply Hkeep|exact Hf].
    + intros now s Hnow [HPs _]. now apply Hlast.
    + apply clock_is_finite.
    + now apply clock_reaches with (bound := t0 + 500).
    + split; [exact H1|reflexivity].
    + repeat split; assumption.
  - destruct H1 as (Ha & _ & Hc). specialize (H2 eq_refl).
    repeat split; assumption.
Qed.

Lemma rotateZone_turns_a_quarter_witness :
  meshes (rotateZone 0 (Fin 0) (Fin 16) (map Fin [250; 516]) zone_at_9) 0
  = set_rotation_y (Fin (0 + PI / 2)) (meshes zone_at_9 0).
Proof.
  refine (proj1 (rotateZone_turns_a_quarter 0 zone_at_9 0 0 16 [250; 516]
                   eq_refl _)).
  right. right. left. lra.
Defined.

(** X14.  [scaleZone], once a frame runs 0.3 seconds or more after the
    command, has given the zone one scale on all three axes: 1.2 when the
    scale along x was exactly 1 before, and 1 in every other case, whatever
    the scales along y and z were; the command given to an enlarged zone
    restores the scale 1. *)
Theorem scaleZone_toggles_the_size (zone : nat) (st : State)
    (s t0 t1 : R) (clock : list R) :
  x (scale (meshes st zone)) = Fin s ->
  Exists (fun t => t0 + 300 <= t) (t1 :: clock) ->
  let st' := scaleZone zone (Fin t0) (Fin t1) (map Fin clock) st in
  (s = 1 ->
   meshes st' zone = setScalar (Fin (6 / 5)) (meshes st zone)
   /\ feedback st' = Some ("Zone enlarged"%string, true))
  /\ (s <> 1 ->
      meshes st' zone = setScalar (Fin 1) (meshes st zone)
      /\ feedback st' = Some ("Zone restored"%string, true))
  /\ (forall j, j <> zone -> meshes st' j = meshes st j)
  /\ zones st' = zones st.
Proof.
  intros Hx Hex. cbv zeta. unfold scaleZone. rewrite Hx.
  cbn [strict_eq].
  set (tgt := if Reqb s 1 then 6 / 5 else 1).
  replace (if Reqb s 1 then Fin (6 / 5) else Fin 1) with (Fin tgt)
    by (unfold tgt; destruct (Reqb s 1); reflexivity).
  set (text := if (Fin 1 <? Fin tgt)%js then _ else _).
  set (frame := scaleZone_frame zone (Fin s) (Fin tgt) (Fin t0)).
  set (P := fun u : State =>
              (forall j, j <> zone -> meshes u j = meshes st j)
              /\ setScalar (Fin 0) (meshes u zone)
                 = setScalar (Fin 0) (meshes st zone)
              /\ zones u = zones st).
  set (Q := fun u : State =>
              meshes u zone = setScalar (Fin tgt) (meshes st zone)).
  assert (HP0 : P st) by (repeat split).
  assert (Hkeep : forall now u, P u -> P (fst (frame now u))).
  { intros now u (H1 & H2 & H3). unfold frame, scaleZone_frame.
    cbv zeta. cbn [fst]. split; [|split].
    - intros j Hj. cbn [meshes update_mesh with_meshes].
      destruct (Nat.eqb_spec j zone); [contradiction|]. now apply H1.
    - cbn [meshes update_mesh with_meshes]. rewrite Nat.eqb_refl.
      exact H2.
    - exact H3. }
  assert (Hlast : forall now u,
            (exists t, now = Fin t) -> P u -> snd (frame now u) = false ->
            Q (fst (frame now u))).
  { intros now u [t ->] (_ & H2 & _) Hend.
    unfold frame, scaleZone_frame in Hend |- *. cbv zeta in Hend |- *.
    cbn [fst snd] in Hend |- *.
    change (Fin t - Fin t0)%js with (Fin (t - t0)) in Hend |- *.
    unfold Q. cbn [meshes update_mesh with_meshes].
    rewrite Nat.eqb_refl.
    rewrite eased_value_at_the_end by (lra || exact Hend).
    change (setScalar (Fin tgt) (meshes u zone))
      with (setScalar (Fin tgt) (setScalar (Fin 0) (meshes u zone))).
    rewrite H2. reflexivity. }
  assert (Hends : forall t u, t0 + 300 <= t -> snd (frame (Fin t) u) = false).
  { intros t u Ht. unfold frame, scaleZone_frame. cbv zeta. cbn [snd].
    change (Fin t - Fin t0)%js with (Fin (t - t0)).
    apply frame_ends; lra. }
  assert (Hresult :
            let st' :=
              (let '(st1, again) := frame (Fin t1) st in
               let st2 := showFeedback text true st1 in
               if again then later_frames frame (map Fin clock) st2 else st2)
            in P st' /\ Q st' /\ feedback st' = Some (text, true)).
  { cbv zeta.
    pose proof (Hkeep (Fin t1) st HP0) as H1.
    pose proof (Hlast (Fin t1) st (ex_intro _ t1 eq_refl) HP0) as H2.
    destruct (frame (Fin t1) st) as [st1 again] eqn:Hfr. cbn [fst snd] in *.
    destruct again.
    - assert (Hex' : Exists (fun t => t0 + 300 <= t) clock).
      { inversion Hex as [? ? Hhead|? ? Htail]; subst; [|exact Htail].
        pose proof (Hends t1 st Hhead) as Hc. rewrite Hfr in Hc.
        discriminate. }
      set (P' := fun u => P u /\ feedback u = Some (text, true)).
      destruct (later_frames_final (fun now => exists t, now = Fin t) P' Q
                  frame (map Fin clock) (showFeedback text true st1))
        as [[Ha Hf] Hq].
      + intros now u _ [HPu Hf]. split; [now apply Hkeep|exact Hf].
      + intros now u Hnow [HPu _]. now apply Hlast.
      + apply clock_is_finite.
      + now apply clock_reaches with (bound := t0 + 300).
      + split; [exact H1|reflexivity].
      + split; [exact Ha|]. split; [exact Hq|exact Hf].
    - specialize (H2 eq_refl). split; [exact H1|].
      split; [exact H2|reflexivity]. }
  cbv zeta in Hresult. destruct Hresult as ((Ha & _ & Hc) & Hq & Hf).
  unfold Q in Hq.
  split; [|split; [|split; assumption]].
  - intros ->.
    assert (Ht : tgt = 6 / 5) by (unfold tgt; decide_real_tests; reflexivity).
    assert (Htext : text = "Zone enlarged"%string).
    { unfold text. rewrite Ht. cbn [JS.ltb]. decide_real_tests. reflexivity. }
    split; [rewrite <- Ht; exact Hq|rewrite <- Htext; exact Hf].
  - intros Hne.
    assert (Ht : tgt = 1) by (unfold tgt; decide_real_tests; reflexivity).
    assert (Htext : text = "Zone restored"%string).
    { unfold text. rewrite Ht. cbn [JS.ltb]. decide_real_tests. reflexivity. }
    split; [rewrite <- Ht; exact Hq|rewrite <- Htext; exact Hf].
Qed.

Lemma scaleZone_toggles_the_size_witness :
  meshes (scaleZone 0 (Fin 0) (Fin 16) (map Fin [150; 316]) zone_at_9) 0
  = setScalar (Fin (6 / 5)) (meshes zone_at_9 0).
Proof.
  refine (proj1 (proj1 (scaleZone_toggles_the_size 0 zone_at_9 1 0 16
                          [150; 316] eq_refl _) eq_refl)).
  right. right. left. lra.
Defined.

(** ** Drags *)

Lemma isValidPlacement_12 : isValidPlacement (Fin 10) (Fin 12) (Fin 0) = false.
Proof.
  rewrite isValidPlacement_Fin. apply Rltb_false.
  apply sqrt_ge_sq; [apply sum_squares_nonneg|]. right. lra.
Qed.

Lemma onPointerUp_accepts_witness :
  feedback (onPointerUp false (Fin 0) (Fin 0) two_apart)
  = Some ("Zone positioned successfully"%string, true).
Proof.
  apply (onPointerUp_accepts two_apart 0 false (Fin 0) (Fin 0)
           eq_refl eq_refl).
  split.
  - change (JSString.parseFloat (value two_apart "radius"))
      with (JSString.parseFloat "10").
    change (position (meshes two_apart 0))
      with (vec (Fin 0) (Fin 1) (Fin 0)).
    cbn [x z]. rewrite parseFloat_10, isValidPlacement_Fin.
    apply Rltb_true. apply sqrt_lt_sq; [apply sum_squares_nonneg|lra].
  - intros (zone & Hin & Hne & Hd).
    destruct Hin as [<-|[<-|[]]]; [now apply Hne|].
    change (position (meshes two_apart 0))
      with (vec (Fin 0) (Fin 1) (Fin 0)) in Hd.
    change (position (meshes two_apart 1))
      with (vec (Fin 5) (Fin 1) (Fin 0)) in Hd.
    apply near_Fin in Hd. lra.
Defined.

(** In exact arithmetic [v1 + (v2 - v1)·1] is [v2]. *)
Lemma lerpVectors_at_the_end (sx sy sz tx ty tz : R) :
  lerpVectors (vec (Fin sx) (Fin sy) (Fin sz)) (vec (Fin tx) (Fin ty) (Fin tz))
    (Fin 1)
  = vec (Fin tx) (Fin ty) (Fin tz).
Proof. unfold lerpVectors. cbn. f_equal; f_equal; ring. Qed.

(** X10.  A drag that is rejected away from where it started ends its
    revert within a second: once a frame runs 1000 ms or more after the
    release, no frame is pending, the position of the zone is the one the
    last frame has computed, [lerpVectors(start, dragStartPosition, 1)],
    that is [start + (target - start)·1] on every axis, no other mesh has
    changed and the zone list is as it was.  The value written is the
    pre-drag position as far as that expression is computed exactly. *)
Theorem rejected_drag_ends_its_revert (st : State) (sel : nat)
    (ctrlKey : bool) (sx sy sz tx ty tz t0 t1 t2 : R) :
  selectedZone st = Some sel -> isDragging st = true ->
  animations st = [] ->
  position (meshes st sel) = vec (Fin sx) (Fin sy) (Fin sz) ->
  dragStartPosition st = vec (Fin tx) (Fin ty) (Fin tz) ->
  0 < (sx - tx) * (sx - tx) + (sy - ty) * (sy - ty) + (sz - tz) * (sz - tz) ->
  isValidPlacement (JSString.parseFloat (value st "radius"))
    (x (position (meshes st sel))) (z (position (meshes st sel)))
  && negb (hasCollision (meshes st) sel (zones st)) = false ->
  t0 + 1000 <= t2 ->
  let st2 := onAnimationFrame 0 (Fin t2)
               (onPointerUp ctrlKey (Fin t0) (Fin t1) st) in
  position (meshes st2 sel)
  = lerpVectors (position (meshes st sel)) (dragStartPosition st) (Fin 1)
  /\ (forall j, j <> sel -> meshes st2 j = meshes st j)
  /\ animations st2 = []
  /\ zones st2 = zones st.
Proof.
  intros Hsel Hdrag Hanim Hp Ht Hdist Hv Ht2. cbv zeta.
  destruct (rejected_drag_is_reverted st sel ctrlKey sx sy sz tx ty tz
              t0 t1 t2 Hsel Hdrag Hanim Hp Ht Hdist Hv Ht2)
    as (H1 & H2 & H3 & H4).
  rewrite Hp, Ht, lerpVectors_at_the_end.
  split; [exact H1|]. split; [exact H2|]. split; [exact H3|exact H4].
Qed.

Lemma rejected_drag_ends_its_revert_witness :
  position
    (meshes
       (onAnimationFrame 0 (Fin 1016)
          (onPointerUp false (Fin 0) (Fin 16) zone_dragged_out)) 0)
  = lerpVectors (vec (Fin 12) (Fin 1) (Fin 0)) (vec (Fin 9) (Fin 1) (Fin 0))
      (Fin 1).
Proof.
  refine (proj1 (rejected_drag_ends_its_revert zone_dragged_out 0 false
                   12 1 0 9 1 0 0 16 1016 eq_refl eq_refl eq_refl eq_refl
                   eq_refl _ _ _)); [lra| |lra].
  change (JSString.parseFloat (value zone_dragged_out "radius"))
    with (JSString.parseFloat "10").
  change (position (meshes zone_dragged_out 0))
    with (vec (Fin 12) (Fin 1) (Fin 0)).
  cbn [x z]. rewrite parseFloat_10, isValidPlacement_12. reflexivity.
Defined.

(** X12.  A drag that loses its selection is never validated. When the
    Escape key is pressed during a drag, or when the timer started by the
    release before fires during it, [selectedZone] is cleared while
    [isDragging] stays set. From then on pointer moves and the release of
    the pointer do nothing: the zone stays where the last pointer move has
    put it, whether that place passes the checks or not, no revert is
    started, and [isDragging] is still set afterwards. *)
Theorem cut_off_drag_is_never_validated (st cut : State) (sel : nat)
    (p : Vector3) (ctrlKey : bool) (now0 now1 : num) (clock : list num) :
  selectedZone st = Some sel -> isDragging st = true ->
  let moved := onPointerMove (Some p) st in
  cut = onKeyDown "Escape" now0 now1 clock moved
  \/ (pendingDeselect st <> 0%nat /\ cut = deselectTimeout moved) ->
  let final := onPointerUp ctrlKey now0 now1 cut in
  final = cut
  /\ (forall floorHit, onPointerMove floorHit cut = cut)
  /\ position (meshes final sel)
     = (if snapToGrid st then vec (snap (x p)) (Fin 1) (snap (z p))
        else vec (x p) (Fin 1) (z p))
  /\ animations final = animations st
  /\ selectedZone final = None
  /\ isDragging final = true.
Proof.
  intros Hsel Hdrag moved Hcut. cbv zeta.
  assert (Hmoved : moved
                   = showFeedback (match feedback moved with
                                   | Some (text, _) => text
                                   | None => ""%string
                                   end)
                       (match feedback moved with
                        | Some (_, valid) => valid
                        | None => false
                        end)
                       (update_mesh sel
                          (set_position
                             (if snapToGrid st
                              then vec (snap (x p)) (Fin 1) (snap (z p))
                              else vec (x p) (Fin 1) (z p))) st)).
  { unfold moved, onPointerMove. rewrite Hsel, Hdrag.
    destruct (snapToGrid st); reflexivity. }
  assert (Hfacts : selectedZone cut = None /\ isDragging cut = true
                   /\ meshes cut = meshes moved
                   /\ animations cut = animations moved).
  { destruct Hcut as [->|[Hpend ->]].
    - rewrite Hmoved. cbn. rewrite Hdrag. repeat split.
    - unfold deselectTimeout. rewrite Hmoved.
      cbn [pendingDeselect showFeedback update_mesh with_meshes].
      destruct (pendingDeselect st); [contradiction|].
      cbn. rewrite Hdrag. repeat split. }
  destruct Hfacts as (Hnone & Hd & Hm & Ha).
  assert (Hup : onPointerUp ctrlKey now0 now1 cut = cut)
    by (unfold onPointerUp; rewrite Hnone; reflexivity).
  rewrite Hup. split; [reflexivity|]. split.
  { intro floorHit. unfold onPointerMove. rewrite Hnone. reflexivity. }
  rewrite Hm, Ha, Hmoved. cbn [meshes animations showFeedback update_mesh
                                 with_meshes].
  rewrite Nat.eqb_refl. repeat split; assumption.
Qed.

Lemma cut_off_drag_is_never_validated_witness :
  let cut := onKeyDown "Escape" (Fin 0) (Fin 0) [] zone_dragged_out in
  position (meshes (onPointerUp false (Fin 0) (Fin 0) cut) 0)
  = vec (Fin 12) (Fin 1) (Fin 0)
  /\ isValidPlacement (Fin 10) (Fin 12) (Fin 0) = false.
Proof.
  split; [|exact isValidPlacement_12].
  exact (proj1 (proj2 (proj2
           (cut_off_drag_is_never_validated zone_at_9_picked_free _ 0
              (vec (Fin 12) (Fin 0) (Fin 0)) false (Fin 0) (Fin 0) []
              eq_refl eq_refl (or_introl eq_refl))))).
Defined.

(** ** The frames of a revert *)

(** X11.  Every frame of a revert puts the zone on the segment from where it
    was released to the pre-drag position: at the point [start + (target -
    start)·k] with [k = 1 - (1 - p)³] between 0 and 1, where [p] is the
    elapsed part of the duration, at most 1. The frame requests another one
    exactly while the duration has not elapsed. *)
Theorem revert_frames_stay_on_the_segment (a : Animation) (st : State)
    (sx sy sz tx ty tz d t0 t : R) :
  startPosition a = vec (Fin sx) (Fin sy) (Fin sz) ->
  dragStartPosition st = vec (Fin tx) (Fin ty) (Fin tz) ->
  duration a = Fin d -> 0 < d ->
  startTime a = Fin t0 -> t0 <= t ->
  let p := Rmin ((t - t0) / d) 1 in
  let k := 1 - (1 - p) ^ 3 in
  0 <= k <= 1
  /\ (k = 1 <-> d <= t - t0)
  /\ fst (animation_frame a (Fin t) st)
     = update_mesh (anim_zone a)
         (set_position (vec (Fin (sx + (tx - sx) * k))
                            (Fin (sy + (ty - sy) * k))
                            (Fin (sz + (tz - sz) * k)))) st
  /\ (snd (animation_frame a (Fin t) st) = true <-> t - t0 < d).
Proof.
  intros Hs Ht Hd Hpos Ht0 Hle. cbv zeta.
  assert (Hq : 0 <= (t - t0) / d).
  { apply Rmult_le_reg_r with d; [exact Hpos|].
    unfold Rdiv. rewrite Rmult_assoc, Rinv_l by lra. lra. }
  assert (Hq1 : (t - t0) / d < 1 <-> t - t0 < d).
  { split; intro H.
    - apply Rmult_lt_reg_r with (/ d); [now apply Rinv_0_lt_compat|].
      rewrite Rinv_r by lra. exact H.
    - apply Rmult_lt_reg_r with d; [exact Hpos|].
      unfold Rdiv. rewrite Rmult_assoc, Rinv_l by lra. lra. }
  set (q := (t - t0) / d) in *.
  assert (Hprog : Math.min ((Fin t - Fin t0) / Fin d)%js (Fin 1)
                  = Fin (Rmin q 1)).
  { cbn [JS.sub JS.div]. decide_real_tests. fold q. cbn [Math.min JS.ltb].
    unfold Rmin. destruct (Rle_dec q 1) as [H1|H1].
    - replace (Rltb 1 q) with false by (symmetry; apply Rltb_false; lra).
      reflexivity.
    - replace (Rltb 1 q) with true by (symmetry; apply Rltb_true; lra).
      reflexivity. }
  assert (Hp : 0 <= Rmin q 1 <= 1).
  { unfold Rmin. destruct (Rle_dec q 1); lra. }
  assert (Hp1 : Rmin q 1 < 1 <-> q < 1).
  { unfold Rmin. destruct (Rle_dec q 1); lra. }
  set (u := 1 - Rmin q 1).
  assert (Hu : 0 <= u <= 1) by (unfold u; lra).
  assert (Hu3 : 0 <= u ^ 3 <= 1).
  { simpl. assert (0 <= u * u <= 1) by nra. nra. }
  split; [lra|]. split.
  { assert (Hz : u ^ 3 = 0 <-> u = 0).
    { split; intro H; [|rewrite H; simpl; lra].
      simpl in H. destruct (Req_dec u 0) as [|Hne]; [assumption|].
      assert (0 < u) by lra. assert (0 < u * u) by nra.
      assert (0 < u * (u * 1)) by nra. nra. }
    split; intro H.
    - assert (u = 0) by (apply Hz; lra). unfold u in *. lra.
    - assert (u = 0) by (unfold u; lra). assert (u ^ 3 = 0) by now apply Hz.
      lra. }
  unfold animation_frame. rewrite Hs, Ht, Hd, Ht0, Hprog. cbn [fst snd].
  split.
  - f_equal. unfold lerpVectors. cbn. unfold u.
    f_equal; f_equal; f_equal; ring.
  - cbn [JS.ltb]. rewrite Rltb_true. rewrite Hp1. exact Hq1.
Qed.

Lemma revert_frames_stay_on_the_segment_witness :
  snd (animation_frame
         (animation 0 (vec (Fin 12) (Fin 1) (Fin 0)) (Fin 600) (Fin 0))
         (Fin 300) zone_dragged_out) = true.
Proof.
  apply (revert_frames_stay_on_the_segment
           (animation 0 (vec (Fin 12) (Fin 1) (Fin 0)) (Fin 600) (Fin 0))
           zone_dragged_out 12 1 0 9 1 0 600 0 300
           eq_refl eq_refl eq_refl); try reflexivity; lra.
Defined.

(** ** A second round trip *)

(** A multiple of 0.01 is not changed by the rounding to 2 decimals. *)
Lemma round_to_2_decimals_exact (k : Z) :
  round_to_2_decimals (Fin (IZR k / 100)) = Fin (IZR k / 100).
Proof.
  unfold round_to_2_decimals. f_equal.
  destruct (Z_lt_le_dec k 0) as [Hneg|Hpos].
  - assert (IZR k < 0) by (apply IZR_lt in Hneg; exact Hneg).
    replace (Rltb (IZR k / 100) 0) with true
      by (symmetry; apply Rltb_true; lra).
    rewrite Rabs_left by lra.
    rewrite (Zfloor_eq (- k)%Z) by (rewrite opp_IZR; lra).
    cbn [JSString.signed]. rewrite opp_IZR. lra.
  - assert (0 <= IZR k) by (apply IZR_le in Hpos; exact Hpos).
    replace (Rltb (IZR k / 100) 0) with false
      by (symmetry; apply Rltb_false; lra).
    rewrite Rabs_pos_eq by lra.
    rewrite (Zfloor_eq k) by lra.
    cbn [JSString.signed]. reflexivity.
Qed.

Lemma round_to_2_decimals_idempotent (n : num) :
  round_to_2_decimals (round_to_2_decimals n) = round_to_2_decimals n.
Proof.
  destruct n as [r| | |]; try reflexivity.
  destruct (round_to_2_decimals_nearest r) as (k & -> & _).
  apply round_to_2_decimals_exact.
Qed.

Lemma round_position_idempotent (p : Vector3) :
  round_position (round_position p) = round_position p.
Proof.
  unfold round_position. cbn [x y z].
  rewrite !round_to_2_decimals_idempotent. reflexivity.
Qed.

(** What a round trip through export and import leaves. *)
Lemma reimport_spec (control_text : string -> Value -> string)
    (st st0 : State) (r h c : R) :
  JSString.parseFloat (value st "radius") = Fin r ->
  JSString.parseFloat (value st "height") = Fin h ->
  JSString.parseInt (value st "crew") = Fin c ->
  let st' := reimport control_text st st0 in
  value st' "shape"
  = control_text "shape"%string (VStr (value st "shape"))
  /\ value st' "radius" = control_text "radius"%string (VNum (Fin r))
  /\ value st' "height" = control_text "height"%string (VNum (Fin h))
  /\ value st' "crew" = control_text "crew"%string (VNum (Fin c))
  /\ List.length (zones st') = List.length (zones st)
  /\ map position (layout_zones st')
     = map (fun m => round_position (position m)) (layout_zones st).
Proof.
  intros Hr Hh Hc. cbv zeta. unfold reimport, exportLayout. cbn [fst].
  rewrite Hr, Hh, Hc, JSON_clone_exported.
  set (items := map _ (map export_zone (layout_zones st))).
  set (habitat := VObj [("shape"%string, VStr (value st "shape"));
                        ("radius"%string, VNum (Fin r));
                        ("height"%string, VNum (Fin h));
                        ("crew"%string, VNum (Fin c))]).
  assert (Hload : forallb loadable_zone items = true).
  { unfold items. rewrite map_map. apply forallb_forall.
    intros v Hv. apply in_map_iff in Hv as (m & <- & _).
    apply (exported_zone_loads m). }
  assert (Hmesh : map doc_mesh items
                  = map (fun m => mesh (JSON_clone (userData_type m))
                                       (round_position (position m))
                                       zero3 one3 box_2_2_2)
                        (layout_zones st)).
  { unfold items. rewrite !map_map. apply map_ext.
    intro m. apply (exported_zone_loads m). }
  rewrite (loadLayout_reads_to_the_end control_text _ habitat
             (VStr (value st "shape")) (VNum (Fin c)) (Fin r) (Fin h) items)
    by (try reflexivity; exact Hload).
  cbn [fst].
  destruct (loaded_spec control_text (VStr (value st "shape"))
              (VNum (Fin r)) (VNum (Fin h)) (VNum (Fin c)) items st0)
    as (Hzs & Hlz & Hvs & Hvr & Hvh & Hvc & _).
  rewrite Hvs, Hvr, Hvh, Hvc, Hlz, Hzs, Hmesh.
  repeat split.
  - rewrite length_seq. unfold items. rewrite !length_map.
    unfold layout_zones. apply length_map.
  - rewrite !map_map. reflexivity.
Qed.

(** X18.  Export followed by import is exact from the second time on. Under
    the conditions on the controls of the first round trip, the layout that
    came out of one round trip comes out of a second one with the same zone
    positions, the same number of zones and the same shape, radius, height
    and crew; and a position whose coordinates are multiples of 0.01 is not
    changed by any round trip. *)
Theorem second_round_trip_is_exact
    (control_text : string -> Value -> string) (st st0 st0' : State)
    (r h c : R) :
  JSString.parseFloat (value st "radius") = Fin r ->
  JSString.parseFloat (value st "height") = Fin h ->
  JSString.parseInt (value st "crew") = Fin c ->
  control_text "shape"%string (VStr (value st "shape")) = value st "shape" ->
  JSString.parseFloat (control_text "radius"%string (VNum (Fin r))) = Fin r ->
  JSString.parseFloat (control_text "height"%string (VNum (Fin h))) = Fin h ->
  JSString.parseInt (control_text "crew"%string (VNum (Fin c))) = Fin c ->
  let st1 := reimport control_text st st0 in
  let st2 := reimport control_text st1 st0' in
  map position (layout_zones st2) = map position (layout_zones st1)
  /\ List.length (zones st2) = List.length (zones st1)
  /\ value st2 "shape" = value st1 "shape"
  /\ value st2 "radius" = value st1 "radius"
  /\ value st2 "height" = value st1 "height"
  /\ value st2 "crew" = value st1 "crew"
  /\ (forall kx ky kz : Z,
        round_position
          (vec (Fin (IZR kx / 100)) (Fin (IZR ky / 100)) (Fin (IZR kz / 100)))
        = vec (Fin (IZR kx / 100)) (Fin (IZR ky / 100)) (Fin (IZR kz / 100))).
Proof.
  intros Hr Hh Hc Hks Hkr Hkh Hkc. cbv zeta.
  destruct (reimport_spec control_text st st0 r h c Hr Hh Hc)
    as (Hs1 & Hr1 & Hh1 & Hc1 & Hn1 & Hp1).
  set (st1 := reimport control_text st st0) in *.
  assert (Hr' : JSString.parseFloat (value st1 "radius") = Fin r)
    by (rewrite Hr1; exact Hkr).
  assert (Hh' : JSString.parseFloat (value st1 "height") = Fin h)
    by (rewrite Hh1; exact Hkh).
  assert (Hc' : JSString.parseInt (value st1 "crew") = Fin c)
    by (rewrite Hc1; exact Hkc).
  destruct (reimport_spec control_text st1 st0' r h c Hr' Hh' Hc')
    as (Hs2 & Hr2 & Hh2 & Hc2 & Hn2 & Hp2).
  split; [|split; [exact Hn2|split; [|split; [|split; [|split]]]]].
  - rewrite Hp2. rewrite <- (map_map position round_position).
    rewrite Hp1, map_map.
    rewrite <- (map_map position round_position) at 1.
    rewrite map_map. apply map_ext. intro m.
    apply round_position_idempotent.
  - rewrite Hs2, Hs1, Hks. rewrite Hks. reflexivity.
  - rewrite Hr2, Hr1. reflexivity.
  - rewrite Hh2, Hh1. reflexivity.
  - rewrite Hc2, Hc1. reflexivity.
  - intros kx ky kz. unfold round_position. cbn [x y z].
    rewrite !round_to_2_decimals_exact. reflexivity.
Qed.

Lemma second_round_trip_is_exact_witness :
  let st1 := reimport sample_control_text zone_at_9
               (initial_state dome_controls) in
  map position (layout_zones (reimport sample_control_text st1 zone_at_9))
  = map position (layout_zones st1).
Proof.
  exact (proj1 (second_round_trip_is_exact sample_control_text zone_at_9
                  (initial_state dome_controls) zone_at_9 10 15 8
                  parseFloat_10 parseFloat_15 parseInt_8 eq_refl
                  sample_control_text_radius sample_control_text_height
                  sample_control_text_crew)).
Defined.

(** ** Exports that cannot be imported *)

Lemma JSON_clone_exported_any (shape : string) (radius height crew : num)
    (ms : list Mesh) :
  JSON_clone
    (VObj [("habitat"%string,
            VObj [("shape"%string, VStr shape);
                  ("radius"%string, VNum radius);
                  ("height"%string, VNum height);
                  ("crew"%string, VNum crew)]);
           ("zones"%string, VArr (map export_zone ms))])
  = VObj [("habitat"%string,
           VObj [("shape"%string, VStr shape);
                 ("radius"%string, JSON_clone (VNum radius));
                 ("height"%string, JSON_clone (VNum height));
                 ("crew"%string, JSON_clone (VNum crew))]);
          ("zones"%string,
           VArr (map (fun i => match i with
                               | VUndefined => VNull
                               | v => JSON_clone v
                               end) (map export_zone ms)))].
Proof. reflexivity. Qed.

(** X17.  The document exported from a layout can be imported again exactly
    when the radius and height controls hold finite numbers. A control that
    holds no number is exported as [NaN], which the JSON text writes as
    [null], and the import stops at it; the crew control and the zones never
    stand in the way. *)
Theorem exported_document_loads_iff
    (control_text : string -> Value -> string) (st st0 : State) :
  let document := JSON_clone (fst (exportLayout st)) in
  loadable_document document
  = isFinite (JSString.parseFloat (value st "radius"))
    && isFinite (JSString.parseFloat (value st "height"))
  /\ (snd (loadLayout control_text document st0) = Some tt
      <-> exists r h,
            JSString.parseFloat (value st "radius") = Fin r
            /\ JSString.parseFloat (value st "height") = Fin h).
Proof.
  cbv zeta.
  assert (Hl : loadable_document (JSON_clone (fst (exportLayout st)))
               = isFinite (JSString.parseFloat (value st "radius"))
                 && isFinite (JSString.parseFloat (value st "height"))).
  { unfold exportLayout. cbn [fst]. rewrite JSON_clone_exported_any.
    assert (Hz : forallb loadable_zone
                   (map (fun i => match i with
                                  | VUndefined => VNull
                                  | v => JSON_clone v
                                  end)
                        (map export_zone (layout_zones st))) = true).
    { rewrite map_map. apply forallb_forall.
      intros v Hv. apply in_map_iff in Hv as (m & <- & _).
      apply (exported_zone_loads m). }
    unfold loadable_document. cbn [prop lookup String.eqb Ascii.eqb Bool.eqb].
    rewrite Hz.
    destruct (JSString.parseFloat (value st "radius"));
      destruct (JSString.parseFloat (value st "height")); reflexivity. }
  split; [exact Hl|].
  rewrite loadLayout_result, Hl.
  destruct (JSString.parseFloat (value st "radius")) as [r| | |];
    destruct (JSString.parseFloat (value st "height")) as [h| | |];
    cbn [isFinite andb]; split;
    try discriminate; try (intros (r' & h' & H1 & H2); discriminate).
  - intros _. exists r, h. split; reflexivity.
  - reflexivity.
Qed.

Lemma exported_document_loads_iff_witness :
  snd (loadLayout sample_control_text
         (JSON_clone (fst (exportLayout zone_at_9))) zone_at_9)
  = Some tt.
Proof.
  apply (exported_document_loads_iff sample_control_text zone_at_9 zone_at_9).
  exists 10, 15. split; [exact parseFloat_10|exact parseFloat_15].
Defined.

(** ** Neighbours on the grid *)

(** X8.  For two zones at height 1 on points of the grid, which is where
    drags with grid snapping put them, the collision loop counts the zones
    as too close exactly when the squares of their offsets along x and z add
    up to 5 or less: a neighbour 2 cells away along one axis and 1 along the
    other is too close, one 2 cells away along both axes or 3 cells away
    along one axis is not. *)
Theorem grid_collision_rule (ms : nat -> Mesh) (sel other : nat)
    (i j i' j' : Z) :
  other <> sel ->
  position (ms sel) = vec (Fin (IZR i)) (Fin 1) (Fin (IZR j)) ->
  position (ms other) = vec (Fin (IZR i')) (Fin 1) (Fin (IZR j')) ->
  (hasCollision ms sel [other] = true
   <-> ((i - i') * (i - i') + (j - j') * (j - j') <= 5)%Z).
Proof.
  intros Hne Hs Ho. rewrite hasCollision_exists.
  set (a := (i - i')%Z). set (b := (j - j')%Z).
  assert (Hreal : (IZR i - IZR i') * (IZR i - IZR i') + (1 - 1) * (1 - 1)
                  + (IZR j - IZR j') * (IZR j - IZR j')
                  = IZR (a * a + b * b)).
  { unfold a, b. rewrite plus_IZR, !mult_IZR, !minus_IZR. ring. }
  assert (Hnear : (distanceTo (position (ms sel)) (position (ms other))
                   <? Fin (5 / 2))%js = true
                  <-> (a * a + b * b <= 5)%Z).
  { rewrite Hs, Ho, near_Fin, Hreal. split; intro H.
    - assert (Hlt : (a * a + b * b < 7)%Z) by (apply lt_IZR; lra).
      assert (Ha : (-2 <= a <= 2)%Z) by nia.
      assert (Hb : (-2 <= b <= 2)%Z) by nia.
      assert (Ha' : (a = -2 \/ a = -1 \/ a = 0 \/ a = 1 \/ a = 2)%Z) by lia.
      assert (Hb' : (b = -2 \/ b = -1 \/ b = 0 \/ b = 1 \/ b = 2)%Z) by lia.
      destruct Ha' as [-> | [-> | [-> | [-> | ->]]]];
        destruct Hb' as [-> | [-> | [-> | [-> | ->]]]]; lia.
    - apply IZR_le in H. lra. }
  rewrite <- Hnear. split.
  - intros (zone & [<-|[]] & _ & Hd). exact Hd.
  - intro Hd. exists other. repeat split; [now left|exact Hne|exact Hd].
Qed.

Lemma grid_collision_rule_witness :
  hasCollision (meshes crowded_edge) 0 [1%nat] = true.
Proof.
  apply (grid_collision_rule (meshes crowded_edge) 0 1 9 0 9 1);
    try reflexivity; lia.
Defined.

(** ** Zones that are too close to each other *)

Lemma sq_diff_comm (a b : num) :
  ((a - b) * (a - b))%js = ((b - a) * (b - a))%js.
Proof.
  destruct a as [p| | |], b as [q| | |]; try reflexivity.
  cbn. f_equal. ring.
Qed.

Lemma distanceTo_comm (a b : Vector3) : distanceTo a b = distanceTo b a.
Proof.
  unfold distanceTo. cbv zeta.
  rewrite (sq_diff_comm (x a)), (sq_diff_comm (y a)), (sq_diff_comm (z a)).
  reflexivity.
Qed.

(** X7.  Two zones of the list that are closer than 2.5 to each other block
    each other: the collision loop run for either of them finds the other,
    so that whichever of the two is dragged and released where it stands is
    rejected, wherever that is. *)
Theorem collision_is_mutual (st : State) (one other sel : nat)
    (ctrlKey : bool) (now0 now1 : num) :
  In one (zones st) -> In other (zones st) -> one <> other ->
  (distanceTo (position (meshes st one)) (position (meshes st other))
   <? Fin (5 / 2))%js = true ->
  sel = one \/ sel = other ->
  selectedZone st = Some sel -> isDragging st = true ->
  hasCollision (meshes st) one (zones st) = true
  /\ hasCollision (meshes st) other (zones st) = true
  /\ feedback (onPointerUp ctrlKey now0 now1 st)
     = Some ("Invalid placement - zone returned to original position"%string,
             false).
Proof.
  intros Hone Hother Hne Hd Hwhich Hsel Hdrag.
  assert (H1 : hasCollision (meshes st) one (zones st) = true).
  { apply hasCollision_exists. exists other. repeat split; auto. }
  assert (H2 : hasCollision (meshes st) other (zones st) = true).
  { apply hasCollision_exists. exists one. repeat split; auto.
    rewrite distanceTo_comm. exact Hd. }
  split; [exact H1|]. split; [exact H2|].
  apply (onPointerUp_rejected st sel ctrlKey now0 now1 Hsel Hdrag).
  destruct Hwhich as [-> | ->]; rewrite ?H1, ?H2; apply andb_false_r.
Qed.

Lemma collision_is_mutual_witness :
  feedback (onPointerUp false (Fin 0) (Fin 16) crowded_edge)
  = Some ("Invalid placement - zone returned to original position"%string,
          false).
Proof.
  refine (proj2 (proj2 (collision_is_mutual crowded_edge 0 1 0 false (Fin 0)
                          (Fin 16) _ _ _ _ (or_introl eq_refl) eq_refl
                          eq_refl))).
  - now left.
  - right. now left.
  - discriminate.
  - change (position (meshes crowded_edge 0))
      with (vec (Fin 9) (Fin 1) (Fin 0)).
    change (position (meshes crowded_edge 1))
      with (vec (Fin 9) (Fin 1) (Fin 1)).
    apply near_Fin. lra.
Defined.

(** ** Positions that are not numbers *)

(** X21.  The boundary check passes for finite coordinates only: a
    position with a coordinate that is [NaN] or infinite fails it, and so
    does every position when the radius control holds no number.  A zone
    that stands on such a position is therefore rejected whenever it is
    released there. *)
Theorem boundary_check_needs_numbers :
  (forall radius px pz : num,
     isValidPlacement radius px pz = true ->
     isFinite px = true /\ isFinite pz = true
     /\ radius <> NaN /\ radius <> NInf)
  /\ (forall (st : State) (sel : nat) (ctrlKey : bool) (now0 now1 : num),
        selectedZone st = Some sel -> isDragging st = true ->
        isFinite (x (position (meshes st sel))) = false
        \/ isFinite (z (position (meshes st sel))) = false
        \/ JSString.parseFloat (value st "radius") = NaN ->
        feedback (onPointerUp ctrlKey now0 now1 st)
        = Some ("Invalid placement - zone returned to original position"
                %string, false)).
Proof.
  assert (H1 : forall radius px pz : num,
            isValidPlacement radius px pz = true ->
            isFinite px = true /\ isFinite pz = true
            /\ radius <> NaN /\ radius <> NInf).
  { intros radius px pz. unfold isValidPlacement. cbv zeta.
    destruct px as [a| | |], pz as [b| | |], radius as [r| | |];
      cbn [JS.mul JS.add JS.sub JS.neg Math.sqrt JS.ltb isFinite];
      try discriminate;
      try (intros _; repeat split; discriminate);
      try (destruct (Rltb _ 0); cbn [JS.ltb]; discriminate). }
  split; [exact H1|].
  intros st sel ctrlKey now0 now1 Hsel Hdrag Hbad.
  apply (onPointerUp_rejected st sel ctrlKey now0 now1 Hsel Hdrag).
  destruct (isValidPlacement _ _ _) eqn:Hv; [|reflexivity].
  exfalso. apply H1 in Hv as (Hx & Hz & Hr & _).
  destruct Hbad as [Hb|[Hb|Hb]]; congruence.
Qed.

Lemma boundary_check_needs_numbers_witness :
  feedback
    (onPointerUp false (Fin 0) (Fin 16)
       (update_mesh 0 (set_position (vec NaN NaN NaN)) zone_at_9_picked))
  = Some ("Invalid placement - zone returned to original position"%string,
          false).
Proof.
  apply (proj2 boundary_check_needs_numbers
           (update_mesh 0 (set_position (vec NaN NaN NaN)) zone_at_9_picked)
           0%nat false (Fin 0) (Fin 16) eq_refl eq_refl).
  left. reflexivity.
Defined.

(** ** A revert and the drag that follows *)

(** X22.  A revert has no target of its own: each of its frames reads
    [dragStartPosition], the variable that the next pointer press on a
    zone overwrites.  When another zone is pressed while a revert is
    running, the frame that ends the revert computes the position of the
    reverting zone from the position the pressed zone had at the press,
    as [lerpVectors(start, that position, 1)]: the reverting zone ends
    closer than 2.5 to the pressed zone, and no frame is left pending. *)
Theorem revert_heads_for_the_next_drag_start (st : State) (a : Animation)
    (other : nat) (ctrlKey : bool) (sx sy sz bx by' bz d t0 t : R) :
  animations st = [a] ->
  startPosition a = vec (Fin sx) (Fin sy) (Fin sz) ->
  duration a = Fin d -> 0 < d ->
  startTime a = Fin t0 -> t0 + d <= t ->
  position (meshes st other) = vec (Fin bx) (Fin by') (Fin bz) ->
  other <> anim_zone a ->
  let st1 := onPointerDown 0 ctrlKey (Some other) st in
  let st2 := onAnimationFrame 0 (Fin t) st1 in
  dragStartPosition st1 = position (meshes st other)
  /\ position (meshes st2 (anim_zone a))
     = lerpVectors (startPosition a) (position (meshes st other)) (Fin 1)
  /\ position (meshes st2 other) = position (meshes st other)
  /\ animations st2 = []
  /\ (distanceTo (position (meshes st2 (anim_zone a)))
        (position (meshes st2 other)) <? Fin (5 / 2))%js = true.
Proof.
  intros Ha Hs Hd Hpos Ht0 Ht Hb Hne. cbv zeta.
  set (st1 := onPointerDown 0 ctrlKey (Some other) st).
  assert (Ha1 : animations st1 = [a]).
  { unfold st1, onPointerDown. cbn. exact Ha. }
  assert (Hd1 : dragStartPosition st1 = vec (Fin bx) (Fin by') (Fin bz)).
  { unfold st1, onPointerDown. cbn. exact Hb. }
  assert (Hm1 : meshes st1 = meshes st) by reflexivity.
  destruct (onAnimationFrame_final st1 a (Fin t) sx sy sz bx by' bz d
              (t - t0) Ha1 Hs Hd1 Hd Hpos)
    as (Hm2 & Ha2 & _); [rewrite Ht0; reflexivity|lra|].
  rewrite Hm2, Ha2, Hm1, Hb, Hd1, Hs, lerpVectors_at_the_end.
  rewrite Nat.eqb_refl.
  destruct (Nat.eqb_spec other (anim_zone a)) as [|_]; [contradiction|].
  rewrite Hb. cbn [position set_position].
  repeat split. apply near_Fin. nra.
Qed.

Lemma revert_heads_for_the_next_drag_start_witness :
  (distanceTo
     (position
        (meshes
           (onAnimationFrame 0 (Fin 616)
              (onPointerDown 0 false (Some 1%nat) revert_pending)) 0))
     (position
        (meshes
           (onAnimationFrame 0 (Fin 616)
              (onPointerDown 0 false (Some 1%nat) revert_pending)) 1))
   <? Fin (5 / 2))%js = true.
Proof.
  refine (proj2 (proj2 (proj2 (proj2
            (revert_heads_for_the_next_drag_start revert_pending
               (animation 0 (vec (Fin 12) (Fin 1) (Fin 0))
                  (Fin 600) (Fin 0))
               1%nat false 12 1 0 9 1 1 600 0 616
               eq_refl eq_refl eq_refl _ eq_refl _ eq_refl _)))));
    try lra. discriminate.
Defined.
